(** * The Mixcloud show indexer: fetcher, processor and index persistence

    A shallow embedding of [indexer/processor.py], [indexer/fetcher.py] and
    [indexer/main.py], and the properties of the specification proved (or
    refuted) on it.

    Modelling conventions.
    - A Python [str] is a Rocq [string]; the character classes used by the
      source ([str.lower], [str.strip], the regex class [\w]) are the ASCII
      ones, so the model is exact on ASCII text.
    - A value read from JSON (API answers, the stored index, the
      configuration) is a [json] tree; a JSON object is an association list
      in insertion order, as a Python [dict] keeps it.
    - Exceptions are values of [exn]; a function that can raise returns a
      [result].  Where the source reads a field without checking its type and
      Python's behaviour on a value of another type depends on that value, the
      model raises [IllTyped] and goes no further: the declarations of
      [indexer_types.py] are the domain of the model.
    - The [re] module and the remote HTTP API are interfaces of the model
      ([ReEngine], [remote]); the file that holds the index is a [file_state],
      which covers the files whose bytes decode as UTF-8, and what can go
      wrong in the one write of a run is an [io_fault].
    - The log lines of the functions of [main.py] and of [fetch_shows], at
      INFO level and above, are kept as structured [log_record]s in the trace
      of a run; those of the constructors and of the processor are left out.
      An exception keeps the text the source builds for it, without the text
      of the library exception behind it. *)

From Stdlib Require Import ZArith Ascii String List Sorted Permutation Lia.
From stdpp Require Import base option list sorting gmap strings pretty.

#[local] Set Warnings "-clear-no-such-hyp".
Local Open Scope Z_scope.

(** ** Python values *)

Module Py.

(** JSON documents as [json.load] returns them (numbers are integers). *)
#[local] Unset Elimination Schemes.
Inductive json : Type :=
  | JNull
  | JBool (b : bool)
  | JInt (z : Z)
  | JStr (s : string)
  | JList (l : list json)
  | JDict (d : list (string * json)).
#[local] Set Elimination Schemes.

Definition dict : Type := list (string * json).

(** Exceptions of the source and of the Python run time. *)
Inductive exn : Type :=
  | KeyError (key : string)
  | AttributeError
  | TypeError
  | IllTyped (what : string)
  | ValidationError (msg : string)
  | ProcessingError (msg : string) (cause : exn)
  | ConfigError (msg : string)
  | FetchError (msg : string)
  | IOError
  | UnicodeEncodeError.

Inductive result (A : Type) : Type :=
  | Ok (a : A)
  | Raise (e : exn).
Arguments Ok {A} a.
Arguments Raise {A} e.

#[global] Instance result_ret : MRet result := fun _ a => Ok a.
#[global] Instance result_bind : MBind result := fun _ _ k r =>
  match r with
  | Ok a => k a
  | Raise e => Raise e
  end.

(** [x in d], [d.get(k)], [d.get(k, default)], [d[k]] and [d[k] = v]. *)
Fixpoint dict_get (k : string) (d : dict) : option json :=
  match d with
  | [] => None
  | (k', v) :: d' => if String.eqb k' k then Some v else dict_get k d'
  end.

Definition dict_has (k : string) (d : dict) : bool :=
  match dict_get k d with Some _ => true | None => false end.

Definition dict_get_default (k : string) (default : json) (d : dict) : json :=
  match dict_get k d with Some v => v | None => default end.

Definition dict_item (k : string) (d : dict) : result json :=
  match dict_get k d with Some v => Ok v | None => Raise (KeyError k) end.

Fixpoint dict_set (k : string) (v : json) (d : dict) : dict :=
  match d with
  | [] => [(k, v)]
  | (k', v') :: d' =>
      if String.eqb k' k then (k', v) :: d' else (k', v') :: dict_set k v d'
  end.

(** Truth value of a JSON value ([if x:], [not x]). *)
Definition truthy (v : json) : bool :=
  match v with
  | JNull => false
  | JBool b => b
  | JInt z => negb (z =? 0)
  | JStr s => negb (String.eqb s "")
  | JList l => match l with [] => false | _ => true end
  | JDict d => match d with [] => false | _ => true end
  end.

(** *** Strings *)

Definition is_upper (c : ascii) : bool :=
  let n := nat_of_ascii c in (65 <=? n)%nat && (n <=? 90)%nat.
Definition is_lower (c : ascii) : bool :=
  let n := nat_of_ascii c in (97 <=? n)%nat && (n <=? 122)%nat.
Definition is_digit (c : ascii) : bool :=
  let n := nat_of_ascii c in (48 <=? n)%nat && (n <=? 57)%nat.

(** [str.isalnum] on one character. *)
Definition is_alnum (c : ascii) : bool := is_upper c || is_lower c || is_digit c.

(** The regex class [\w]: letters, digits and the underscore. *)
Definition is_word (c : ascii) : bool := is_alnum c || (nat_of_ascii c =? 95)%nat.

(** [str.isspace] on one character: TAB, LF, VT, FF, CR, FS, GS, RS, US
    and the space. *)
Definition is_space (c : ascii) : bool :=
  let n := nat_of_ascii c in
  ((9 <=? n)%nat && (n <=? 13)%nat) || ((28 <=? n)%nat && (n <=? 32)%nat).

Definition lower_char (c : ascii) : ascii :=
  if is_upper c then ascii_of_nat (nat_of_ascii c + 32) else c.

(** [s.lower()]. *)
Fixpoint lower (s : string) : string :=
  match s with
  | EmptyString => EmptyString
  | String c s' => String (lower_char c) (lower s')
  end.

Fixpoint filter_chars (keep : ascii -> bool) (s : string) : string :=
  match s with
  | EmptyString => EmptyString
  | String c s' =>
      if keep c then String c (filter_chars keep s') else filter_chars keep s'
  end.

Fixpoint lstrip (s : string) : string :=
  match s with
  | EmptyString => EmptyString
  | String c s' => if is_space c then lstrip s' else s
  end.

(** [rstrip] keeps a character when it is not a space or when something is
    left after it. *)
Fixpoint rstrip (s : string) : string :=
  match s with
  | EmptyString => EmptyString
  | String c s' =>
      match rstrip s' with
      | EmptyString => if is_space c then EmptyString else String c EmptyString
      | r => String c r
      end
  end.

(** [s.strip()]. *)
Definition strip (s : string) : string := rstrip (lstrip s).

(** [sep.join(parts)]. *)
Fixpoint join (sep : string) (parts : list string) : string :=
  match parts with
  | [] => ""
  | [p] => p
  | p :: rest => p +:+ sep +:+ join sep rest
  end.

(** [s.split(sep)] and [s.split(sep, maxsplit)] for a non-empty [sep]:
    [skip] counts the characters of a separator still to be passed over,
    [cur] is the current part, reversed, and [budget] the number of cuts
    still allowed ([None]: no bound). *)
Fixpoint split_go (sep : string) (budget : option nat) (skip : nat)
    (cur : string) (s : string) : list string :=
  match s with
  | EmptyString => [String.rev cur]
  | String c s' =>
      match skip with
      | S k => split_go sep budget k cur s'
      | O =>
          let cut := String.prefix sep s in
          match budget with
          | Some O => split_go sep budget O (String c cur) s'
          | Some (S b) =>
              if cut
              then String.rev cur :: split_go sep (Some b) (String.length sep - 1) "" s'
              else split_go sep budget O (String c cur) s'
          | None =>
              if cut
              then String.rev cur :: split_go sep None (String.length sep - 1) "" s'
              else split_go sep budget O (String c cur) s'
          end
      end
  end.

Definition split (sep : string) (maxsplit : option nat) (s : string) : list string :=
  split_go sep maxsplit O "" s.

(** [sorted(l)] for the order [le], and [sorted(l, reverse=True)] when [le]
    is the converse order: an insertion sort that, like Python's sort,
    keeps elements that compare equal in their original order. *)
Section Sorted.
Context {A : Type} (le : A -> A -> bool).

Fixpoint insert_sorted (x : A) (l : list A) : list A :=
  match l with
  | [] => [x]
  | y :: l' => if le x y then x :: l else y :: insert_sorted x l'
  end.

Fixpoint sorted (l : list A) : list A :=
  match l with
  | [] => []
  | x :: l' => insert_sorted x (sorted l')
  end.

End Sorted.

End Py.
Import Py.


(** ** Files and the [re] module *)

(** What a path holds, as far as [json.load] and [json.dump] can tell, for a
    file whose bytes, when it can be read, decode as UTF-8: [Garbled] and
    [Torn] are texts that [json.load] refuses with [JSONDecodeError].  A file
    that is not valid UTF-8 (a text cut inside a multi-byte character, say)
    makes [json.load] raise [UnicodeDecodeError], which neither
    [load_existing_index] nor [_load_config] catches: such a file is outside
    the model. *)
Inductive file_state : Type :=
  | Absent                 (* no file at the path *)
  | Unreadable             (* a file that cannot be opened for reading: IOError *)
  | Garbled                (* a readable file that is not a JSON text *)
  | Torn (doc : json)      (* a proper prefix of the JSON text of [doc], cut between
                              two characters: not a JSON text *)
  | Complete (doc : json). (* the JSON text of [doc] *)

Inductive re_flag : Type := IGNORECASE.

(** The part of Python's [re] the indexer uses: [re.compile(s, flags)]
    ([None] stands for [re.error]) and [pattern.search(s)] read as a truth
    value. *)
Class ReEngine : Type := {
  Pattern : Type;
  re_compile : string -> list re_flag -> option Pattern;
  re_search : Pattern -> string -> bool;
}.

(** ** The trace of a run *)

Inductive level : Type := INFO | WARNING | ERROR.

(** The log lines of [fetcher.py] and [main.py], with the values they
    print. *)
Inductive log_record : Type :=
  | StartingFetch (limit : option Z)
  | PageRetrieved (page_num : nat) (shows : nat)
  | PageFailed (page_num : nat) (error_msg : string)
  | ReachedLimit (limit : Z)
  | FoundExisting (show_key : json)
  | DetailFailed (show_key : json) (e : string)
  | CompletedFetching (count : Z)
  | NoExistingIndex
  | InvalidIndexFormat
  | LoadedExisting (shows : nat)
  | IndexParseFailed
  | IndexReadFailed
  | SavedShows (shows : nat)
  | WriteFailed
  | StartingLocalUpdate
  | NoExistingData
  | UpdatedCategory (name : json) (new_category : string)
  | UpdatedTags (name : json) (tags : nat)
  | UpdatedShows (updated_count : nat)
  | NoUpdatesNeeded
  | StartingFetchAndIndex
  | ConfigurationError (e : exn)
  | Indexed (name : json)
  | ProcessFailed (e : exn)
  | FetchFailed (e : exn)
  | FoundNewShows (shows : nat)
  | NoNewShows
  | Banner (text : string)
  | ConfigNotFound
  | IndexerFailed (e : exn)
  | UnexpectedError (e : exn).

Inductive event : Type :=
  | Log (lvl : level) (record : log_record)
  | Get (url : string) (params : list (string * Z))  (* [session.get] *)
  | Sleep                                            (* [time.sleep(rate_limit_delay)] *)
  | Yield (item : json)                              (* the generator hands an item over *)
  | Mkdir                                            (* [path.parent.mkdir] *)
  | OpenWrite                                        (* [path.open("w")] *)
  | Dump (doc : json).                               (* [json.dump] ran to its end *)

(** A computation that leaves a trace and may raise. *)
Definition traced (A : Type) : Type := list event * result A.

#[global] Instance traced_ret : MRet traced := fun _ a => ([], Ok a).
#[global] Instance traced_bind : MBind traced := fun _ _ k m =>
  match m.2 with
  | Ok a => (m.1 ++ (k a).1, (k a).2)
  | Raise e => (m.1, Raise e)
  end.

Definition emit (ev : event) : traced unit := ([ev], Ok tt).
Definition lift {A} (r : result A) : traced A := ([], r).

(** ** constants.py *)

Definition DEFAULT_CATEGORY : string := "Sans cat√©gorie".
Definition API_PAGE_SIZE : Z := 100.
Definition MIXCLOUD_BASE_URL : string := "https://api.mixcloud.com".
Definition MIXCLOUD_USER : string := "punkrockradio".
Definition EXIT_SUCCESS : Z := 0.
Definition EXIT_CONFIG_ERROR : Z := 1.
Definition EXIT_FETCH_ERROR : Z := 2.
Definition EXIT_PROCESSING_ERROR : Z := 3.
Definition EXIT_IO_ERROR : Z := 4.

(** ** processor.py *)

Module Processor.
Section WithRe.
Context `{RE : ReEngine}.

Record CompiledPattern : Type := {
  name : string;
  regex : Pattern;
  extra_tags : list string;
}.

Record DataProcessor : Type := {
  config : dict;
  tag_mappings : list (string * string);
  patterns : list CompiledPattern;
}.

(** [DataProcessor._load_config]. *)
Definition _load_config (file : file_state) : result dict :=
  match file with
  | Absent => Raise (ConfigError "Configuration file not found")
  | Unreadable => Raise (ConfigError "Failed to read configuration file")
  | Garbled | Torn _ => Raise (ConfigError "Invalid JSON in configuration file")
  | Complete (JDict config) =>
      match dict_get "shows" config with
      | None => Raise (ConfigError "Configuration must contain 'shows' array")
      | Some (JList _) => Ok config
      | Some _ => Raise (ConfigError "'shows' must be an array")
      end
  | Complete _ => Raise (ConfigError "Configuration must be a JSON object")
  end.

(** A JSON list read as a [List[str]]. *)
Definition as_str_list (l : list json) : option (list string) :=
  mapM (fun v => match v with JStr s => Some s | _ => None end) l.

(** One turn of the loop of [_compile_patterns]: [Ok None] is [continue]. *)
Definition compile_show_config (show_config : json) : result (option CompiledPattern) :=
  match show_config with
  | JDict show_config =>
      let name := dict_get_default "name" JNull show_config in
      let regex_str := dict_get_default "regex" JNull show_config in
      if negb (truthy name) || negb (truthy regex_str) then Ok None
      else
        match regex_str with
        | JStr regex_str =>
            match re_compile regex_str [IGNORECASE] with
            | Some compiled_regex =>
                let extra_tags := dict_get_default "extra_tags" (JList []) show_config in
                extra_tags ←
                  match extra_tags with
                  | JList l =>
                      match as_str_list l with
                      | Some tags => Ok tags
                      | None => Raise (IllTyped "extra_tags")
                      end
                  | _ => Ok []
                  end;
                match name with
                | JStr name => Ok (Some (Build_CompiledPattern name compiled_regex extra_tags))
                | _ => Raise (IllTyped "name")
                end
            | None =>
                match name with
                | JStr name => Raise (ConfigError ("Invalid regex for '" +:+ name +:+ "'"))
                | _ => Raise (IllTyped "name")
                end
            end
        | _ => Raise TypeError
        end
  | _ => Ok None
  end.

Fixpoint compile_show_configs (shows : list json) : result (list CompiledPattern) :=
  match shows with
  | [] => Ok []
  | show_config :: rest =>
      compiled ← compile_show_config show_config;
      patterns ← compile_show_configs rest;
      Ok (match compiled with Some p => p :: patterns | None => patterns end)
  end.

(** [DataProcessor._compile_patterns]. *)
Definition _compile_patterns (config : dict) : result (list CompiledPattern) :=
  match dict_get_default "shows" (JList []) config with
  | JList shows => compile_show_configs shows
  | _ => Raise (IllTyped "shows")
  end.

(** [self.config.get("tag_mappings", {})] read as a [Dict[str, str]]. *)
Definition read_tag_mappings (config : dict) : result (list (string * string)) :=
  match dict_get_default "tag_mappings" (JDict []) config with
  | JDict d =>
      match mapM (fun kv => match kv.2 with JStr v => Some (kv.1, v) | _ => None end) d with
      | Some m => Ok m
      | None => Raise (IllTyped "tag_mappings")
      end
  | _ => Raise (IllTyped "tag_mappings")
  end.

(** [DataProcessor.__init__]. *)
Definition DataProcessor_init (config_file : file_state) : result DataProcessor :=
  config ← _load_config config_file;
  tag_mappings ← read_tag_mappings config;
  patterns ← _compile_patterns config;
  Ok (Build_DataProcessor config tag_mappings patterns).

(** The loop of [get_category_info]: the answer, and the rules whose
  pattern was searched, in the order they were. *)
Fixpoint search_patterns (title : string) (patterns : list CompiledPattern)
    : (string * list string) * list CompiledPattern :=
  match patterns with
  | [] => ((DEFAULT_CATEGORY, []), [])
  | pattern :: rest =>
      if re_search (regex pattern) title
      then ((name pattern, extra_tags pattern), [pattern])
      else
        let '(info, searched) := search_patterns title rest in
        (info, pattern :: searched)
  end.

Definition get_category_info_traced (self : DataProcessor) (title : string)
    : (string * list string) * list CompiledPattern :=
  if String.eqb title "" then ((DEFAULT_CATEGORY, []), [])
  else search_patterns title (patterns self).

(** [DataProcessor.get_category_info]. *)
Definition get_category_info (self : DataProcessor) (title : string)
    : string * list string :=
  (get_category_info_traced self title).1.

Definition required_fields : list string := ["key"; "name"; "slug"; "url"].

(** [DataProcessor._validate_raw_show]. *)
Definition _validate_raw_show (raw_data : dict) : result unit :=
  let missing_fields :=
    filter (fun field => dict_has field raw_data = false) required_fields in
  match missing_fields with
  | [] => Ok tt
  | _ => Raise (ValidationError ("Missing required fields: " +:+ join ", " missing_fields))
  end.

(** [DataProcessor._normalize_text]: [re.sub(r'[^\w]', '', text).lower()]. *)
Definition _normalize_text (text : string) : string :=
  if String.eqb text "" then "" else lower (filter_chars is_word text).

Fixpoint lookup_mapping (tag_lower : string) (tag : string)
    (items : list (string * string)) : string :=
  match items with
  | [] => tag
  | (key, value) :: rest =>
      if String.eqb (lower key) tag_lower then value
      else lookup_mapping tag_lower tag rest
  end.

(** [DataProcessor.normalize_tag]. *)
Definition normalize_tag (self : DataProcessor) (tag : string) : string :=
  if String.eqb tag "" then tag
  else lookup_mapping (lower tag) tag (tag_mappings self).

(** [DataProcessor.normalize_tags]. *)
Definition normalize_tags (self : DataProcessor) (tags : list string) : list string :=
  let normalized_set : gset string :=
    foldl (fun acc tag => acc ∪ {[ normalize_tag self tag ]}) ∅ tags in
  sorted String.leb (elements normalized_set).

Fixpoint picture_key_from (pictures : dict) (keys : list string) : string :=
  match keys with
  | [] => ""
  | key :: rest =>
      match dict_get_default key JNull pictures with
      | JStr url =>
          match split "unsafe/" None url with
          | _ :: suffix :: _ =>
              match split "/" (Some 1%nat) suffix with
              | _ :: path :: _ => path
              | _ => picture_key_from pictures rest
              end
          | _ => picture_key_from pictures rest
          end
      | _ => picture_key_from pictures rest
      end
  end.

(** [DataProcessor._extract_picture_key]; a value that is not a dict has no
  [get].  A URL that is empty, absent or not a [str] moves on to the next
  size (the last by the [AttributeError] the source catches). *)
Definition _extract_picture_key (pictures : json) : result string :=
  match pictures with
  | JDict pictures =>
      Ok (picture_key_from pictures ["large"; "medium"; "small"; "thumbnail"])
  | _ => Raise AttributeError
  end.

(** The names of the tag objects of the API answer. *)
Definition existing_tag_names (raw_tags : json) : list string :=
  match raw_tags with
  | JList l =>
      omap (fun tag =>
              match tag with
              | JDict tag =>
                  match dict_get "name" tag with
                  | Some (JStr tag_name) => Some tag_name
                  | _ => None
                  end
              | _ => None
              end) l
  | _ => []
  end.

(** The [try] block of [process_show]. *)
Definition process_show_body (self : DataProcessor) (raw_data : dict) : result dict :=
  _ ← _validate_raw_show raw_data;
  title ←
    match dict_get_default "name" (JStr "") raw_data with
    | JStr s => Ok (strip s)
    | _ => Raise AttributeError
    end;
  let '(category, extra_tags) := get_category_info self title in
  let existing_tags := existing_tag_names (dict_get_default "tags" (JList []) raw_data) in
  let all_tags := normalize_tags self (existing_tags ++ extra_tags) in
  slug ← dict_item "slug" raw_data;
  picture_key ← _extract_picture_key (dict_get_default "pictures" (JDict []) raw_data);
  let processed : dict :=
    [ ("name", JStr title);
      ("slug", slug);
      ("created_time", dict_get_default "created_time" (JStr "") raw_data);
      ("picture_key", JStr picture_key);
      ("tags", JList (JStr <$> all_tags));
      ("category", JStr category);
      ("audio_length", dict_get_default "audio_length" (JInt 0) raw_data) ] in
  let description := dict_get_default "description" (JStr "") raw_data in
  if truthy description then
    match description with
    | JStr text =>
        let norm_title := _normalize_text title in
        let norm_desc := _normalize_text text in
        if String.eqb norm_title norm_desc then Ok processed
        else Ok (dict_set "description" description processed)
    | _ => Raise TypeError
    end
  else Ok processed.

(** [DataProcessor.process_show]: the [except (ValidationError, KeyError)]
  clause wraps these two, anything else goes through. *)
Definition process_show (self : DataProcessor) (raw_data : dict) : result dict :=
  match process_show_body self raw_data with
  | Raise (ValidationError msg) =>
      Raise (ProcessingError ("Failed to process show: " +:+ msg) (ValidationError msg))
  | Raise (KeyError key) =>
      Raise (ProcessingError ("Failed to process show: '" +:+ key +:+ "'") (KeyError key))
  | r => r
  end.

End WithRe.
End Processor.

(** ** fetcher.py *)

Module Fetcher.

(** What [session.get(url, params)] followed by [raise_for_status()] and
    [json()] gives for a listing page: one of the four exceptions the
    source turns into [FetchError], or the decoded body. *)
Inductive page_response : Type :=
  | PageTimeout
  | PageHTTPError
  | PageRequestException
  | PageInvalidJSON
  | PageBody (data : json).

(** The same for a detail request: any [requests.exceptions.RequestException]
    (with its text), or the decoded body. *)
Inductive detail_response : Type :=
  | DetailFails (e : string)
  | DetailBody (full_show : json).

Record remote : Type := {
  listing : string -> list (string * Z) -> page_response;
  detail : string -> detail_response;
}.

Record MixcloudFetcher : Type := {
  base_url : string;
  user : string;
}.

(** [MixcloudFetcher()] with the defaults of [constants.py]. *)
Definition MixcloudFetcher_init : MixcloudFetcher :=
  {| base_url := MIXCLOUD_BASE_URL; user := MIXCLOUD_USER |}.

(** How a [for] over the shows of one page ends. *)
Inductive page_end : Type :=
  | PageDone (count : Z)   (* the page is exhausted *)
  | PageReturn             (* [return]: limit reached or known key met *)
  | PageRaise (e : exn).

(** How the generator ends; [GenUnfinished]: the walk needs more pages than
    the fuel allows. *)
Inductive gen_end : Type :=
  | GenReturn
  | GenRaise (e : exn)
  | GenUnfinished.

(** [show_key in existing_ids] for a set of [str]: a list or a dict cannot
    be hashed. *)
Definition key_in (existing_ids : gset string) (show_key : json) : result bool :=
  match show_key with
  | JStr k => Ok (bool_decide (k ∈ existing_ids))
  | JNull | JBool _ | JInt _ => Ok false
  | JList _ | JDict _ => Raise TypeError
  end.

(** [f"{show_key}"] for a key that can be hashed. *)
Definition format_key (show_key : json) : string :=
  match show_key with
  | JStr k => k
  | JNull => "None"
  | JBool true => "True"
  | JBool false => "False"
  | JInt z => pretty z
  | JList _ | JDict _ => ""
  end.

Section FetchShows.
Variables (self : MixcloudFetcher) (api : remote).
Variables (limit : option Z) (existing_ids : gset string).

(** [limit is not None and count >= limit]. *)
Definition limit_reached (count : Z) : bool :=
  match limit with
  | Some n => n <=? count
  | None => false
  end.

(** The detail request of one show and what is yielded for it. *)
Definition resolve_show (show : json) (show_key : json) : list event :=
  let detail_url := base_url self +:+ format_key show_key in
  Get detail_url [] ::
    match detail api detail_url with
    | DetailBody full_show => [Yield full_show; Sleep]
    | DetailFails e => [Log ERROR (DetailFailed show_key e); Yield show]
    end.

(** The loop [for show in shows]. *)
Fixpoint fetch_page_shows (shows : list json) (count : Z) : list event * page_end :=
  match shows with
  | [] => ([], PageDone count)
  | show :: rest =>
      if limit_reached count
      then ([Log INFO (ReachedLimit (default 0 limit))], PageReturn)
      else
        match show with
        | JDict fields =>
            let show_key := dict_get_default "key" JNull fields in
            match key_in existing_ids show_key with
            | Raise e => ([], PageRaise e)
            | Ok true => ([Log INFO (FoundExisting show_key)], PageReturn)
            | Ok false =>
                let '(events, fin) := fetch_page_shows rest (count + 1) in
                (resolve_show show show_key ++ events, fin)
            end
        | _ => ([], PageRaise AttributeError)
        end
  end.

Definition page_failure (page_num : nat) (error_msg : string) : list event * gen_end :=
  ([Log ERROR (PageFailed page_num error_msg)], GenRaise (FetchError error_msg)).

(** The loop [while url], one page for each unit of fuel; [page_num] is
    the number of pages fetched before this one. *)
Fixpoint fetch_pages (fuel : nat) (url : string) (params : list (string * Z))
    (count : Z) (page_num : nat) : list event * gen_end :=
  match fuel with
  | O => ([], GenUnfinished)
  | S fuel' =>
      let page_num := S page_num in
      let '(events, fin) :=
        match listing api url params with
        | PageTimeout => page_failure page_num "Request timeout while fetching page"
        | PageHTTPError => page_failure page_num "HTTP error on page"
        | PageRequestException => page_failure page_num "Request failed on page"
        | PageInvalidJSON => page_failure page_num "Invalid JSON response on page"
        | PageBody (JDict data) =>
            match dict_get_default "data" (JList []) data with
            | JList shows =>
                let '(events, fin) := fetch_page_shows shows count in
                let '(events', fin') :=
                  match fin with
                  | PageReturn => ([], GenReturn)
                  | PageRaise e => ([], GenRaise e)
                  | PageDone count =>
                      match dict_get_default "paging" (JDict []) data with
                      | JDict paging =>
                          let url := dict_get_default "next" JNull paging in
                          if truthy url then
                            match url with
                            | JStr url =>
                                let '(events, fin) := fetch_pages fuel' url [] count page_num in
                                (Sleep :: events, fin)
                            | _ => ([Sleep], GenRaise (IllTyped "next"))
                            end
                          else ([Log INFO (CompletedFetching count)], GenReturn)
                      | _ => ([], GenRaise AttributeError)
                      end
                  end in
                (Log INFO (PageRetrieved page_num (length shows)) :: events ++ events', fin')
            | _ => page_failure page_num "Expected list in 'data' field"
            end
        | PageBody _ => page_failure page_num "Expected dict response"
        end in
      (Get url params :: events, fin)
  end.

End FetchShows.

(** The URL and the parameters of the first request. *)
Definition first_url (self : MixcloudFetcher) : string :=
  base_url self +:+ "/" +:+ user self +:+ "/cloudcasts/".
Definition first_params : list (string * Z) := [("limit", API_PAGE_SIZE)].

(** [MixcloudFetcher.fetch_shows]: everything the generator does when it
    is run to its end, and how it ends. *)
Definition fetch_shows (self : MixcloudFetcher) (api : remote)
    (limit : option Z) (existing_ids : option (gset string)) (fuel : nat)
    : list event * gen_end :=
  let existing_ids := default ∅ existing_ids in
  let '(events, fin) :=
    fetch_pages self api limit existing_ids fuel (first_url self) first_params 0 O in
  (Log INFO (StartingFetch limit) :: events, fin).

(** The items a trace yields, in order. *)
Definition yields (events : list event) : list json :=
  omap (fun ev => match ev with Yield item => Some item | _ => None end) events.

End Fetcher.

(** ** main.py *)

Module Main.
Section WithRe.
Context `{RE : ReEngine}.
Import Processor Fetcher.

(** How a run ends: [sys.exit(code)], an exception nothing catches, or a
  page walk longer than the fuel. *)
Inductive run_end : Type :=
  | Exit (code : Z)
  | Uncaught (e : exn)
  | Unfinished.

(** What goes wrong in the one write a run attempts. *)
Inductive io_fault : Type :=
  | FailMkdir   (* the parent directory cannot be created: OSError *)
  | FailOpen    (* the file cannot be opened for writing: OSError *)
  | FailDump    (* the file is opened, and an OSError stops [json.dump] *)
  | FailClose   (* [json.dump] returns, and the flush at the end of the [with]
                   block raises OSError *)
  | FailEncode. (* the file is opened, and [json.dump] meets a [str] that cannot
                   be encoded as UTF-8 (a lone surrogate, which [json.load]
                   accepts): UnicodeEncodeError, a ValueError *)

(** The exception of a fault; [IOError] is [OSError]. *)
Definition write_error (fault : io_fault) : exn :=
  match fault with
  | FailEncode => UnicodeEncodeError
  | _ => IOError
  end.

(** [load_existing_index]. *)
Definition load_existing_index (file : file_state) : list event * list json :=
  match file with
  | Absent => ([Log INFO NoExistingIndex], [])
  | Unreadable => ([Log WARNING IndexReadFailed], [])
  | Garbled | Torn _ => ([Log WARNING IndexParseFailed], [])
  | Complete (JList data) => ([Log INFO (LoadedExisting (length data))], data)
  | Complete _ => ([Log WARNING InvalidIndexFormat], [])
  end.

(** [lambda x: x.get("created_time", "")]. *)
Definition created_time_key (x : json) : result json :=
  match x with
  | JDict x => Ok (dict_get_default "created_time" (JStr "") x)
  | _ => Raise AttributeError
  end.

(** The same key where it is known to be a [str]. *)
Definition created_time (x : json) : string :=
  match created_time_key x with
  | Ok (JStr s) => s
  | _ => ""
  end.

(** [x] goes before [y] when its key is not smaller. *)
Definition newer_first (x y : json) : bool :=
  String.leb (created_time y) (created_time x).

(** A key that [<] refuses to compare with some key of any two or more keys
  that are not all [str]: [None] and a dict are compared with nothing, a
  [str] with a [str] only. *)
Definition never_compared (key : json) : bool :=
  match key with
  | JNull | JStr _ | JDict _ => true
  | _ => false
  end.

(** [sorted(data, key=..., reverse=True)]: the keys are computed first;
  keys that are all [str] can be compared, and one key alone is never
  compared.  Of two keys or more, each is compared at least once and the
  comparisons link them all: when they are not all [str] and one of them is
  [None], a [str] or a dict, [TypeError] is raised; what is left (numbers,
  lists) is outside the typed model. *)
Definition sort_by_created_time (data : list json) : result (list json) :=
  keys ← mapM created_time_key data;
  match as_str_list keys with
  | Some _ => Ok (sorted newer_first data)
  | None =>
      match data with
      | [_] => Ok data
      | _ =>
          if existsb never_compared keys then Raise TypeError
          else Raise (IllTyped "created_time")
      end
  end.

(** [save_index]: the trace, the result, and the file afterwards. *)
Definition save_index (fault : option io_fault) (data : list json) (file : file_state)
    : traced unit * file_state :=
  match sort_by_created_time data with
  | Raise e => (lift (Raise e), file)
  | Ok sorted_data =>
      match fault with
      | Some FailMkdir => (([Mkdir], Raise IOError), file)
      | Some FailOpen =>
          (([Mkdir; OpenWrite; Log ERROR WriteFailed], Raise IOError), file)
      | Some FailDump =>
          (([Mkdir; OpenWrite; Log ERROR WriteFailed], Raise IOError),
           Torn (JList sorted_data))
      | Some FailClose =>
          (([Mkdir; OpenWrite; Dump (JList sorted_data); Log ERROR WriteFailed],
            Raise IOError),
           Torn (JList sorted_data))
      | Some FailEncode =>
          (([Mkdir; OpenWrite], Raise UnicodeEncodeError), Torn (JList sorted_data))
      | None =>
          (([Mkdir; OpenWrite; Dump (JList sorted_data);
             Log INFO (SavedShows (length sorted_data))], Ok tt),
           Complete (JList sorted_data))
      end
  end.

(** [set(tags)]: the value must be iterable and its elements hashable. *)
Definition set_of_tags (tags : json) : result unit :=
  match tags with
  | JNull | JBool _ | JInt _ => Raise TypeError
  | JStr _ | JDict _ => Ok tt
  | JList l =>
      if existsb (fun v => match v with JList _ | JDict _ => true | _ => false end) l
      then Raise TypeError else Ok tt
  end.

(** [current_tags + extra_tags] needs a list, read as a [List[str]]. *)
Definition list_of_tags (tags : json) : result (list string) :=
  match tags with
  | JList l =>
      match as_str_list l with
      | Some current_tags => Ok current_tags
      | None => Raise (IllTyped "tags")
      end
  | _ => Raise TypeError
  end.

(** [processor.get_category_info(show.get("name", ""))] for a stored name
  of any type: a pattern searches a [str] only. *)
Definition category_of_stored (processor : DataProcessor) (title : json)
    : result (string * list string) :=
  if truthy title then
    match title with
    | JStr title => Ok (get_category_info processor title)
    | _ =>
        match patterns processor with
        | [] => Ok (DEFAULT_CATEGORY, [])
        | _ => Raise TypeError
        end
    end
  else Ok (DEFAULT_CATEGORY, []).

(** [old_category != new_category] is false for the same [str] only. *)
Definition same_category (old_category : json) (new_category : string) : bool :=
  match old_category with
  | JStr c => String.eqb c new_category
  | _ => false
  end.

(** [sorted(list(set(current_tags)))]. *)
Definition sorted_unique (current_tags : list string) : list string :=
  sorted String.leb (elements (list_to_set current_tags : gset string)).

(** One turn of the loop of [perform_local_update]: the show after the
  turn and the new [updated_count]. *)
Definition update_show (processor : DataProcessor) (show : json) (updated_count : nat)
    : traced (json * nat) :=
  match show with
  | JDict show =>
      let old_category := dict_get_default "category" JNull show in
      _ ← lift (set_of_tags (dict_get_default "tags" (JList []) show));
      info ← lift (category_of_stored processor (dict_get_default "name" (JStr "") show));
      let '(new_category, extra_tags) := info in
      state ←
        (if same_category old_category new_category then mret (show, updated_count)
         else
           let show := dict_set "category" (JStr new_category) show in
           name ← lift (dict_item "name" show);
           _ ← emit (Log INFO (UpdatedCategory name new_category));
           mret (show, S updated_count));
      let '(show, updated_count) := state in
      current_tags ← lift (list_of_tags (dict_get_default "tags" (JList []) show));
      let new_tags := normalize_tags processor (current_tags ++ extra_tags) in
      if bool_decide (new_tags = sorted_unique current_tags)
      then mret (JDict show, updated_count)
      else
        let show := dict_set "tags" (JList (JStr <$> new_tags)) show in
        name ← lift (dict_item "name" show);
        _ ← emit (Log INFO (UpdatedTags name (length new_tags)));
        mret (JDict show, S updated_count)
  | _ => lift (Raise AttributeError)
  end.

(** The loop [for show in existing_data], which changes the shows in
  place. *)
Fixpoint update_shows (processor : DataProcessor) (existing_data : list json)
    (updated_count : nat) : traced (list json * nat) :=
  match existing_data with
  | [] => mret ([], updated_count)
  | show :: rest =>
      state ← update_show processor show updated_count;
      state' ← update_shows processor rest state.2;
      mret (state.1 :: state'.1, state'.2)
  end.

(** The end of both modes: [save_index] under [except IOError]. *)
Definition save_and_exit (fault : option io_fault) (data : list json) (file : file_state)
    : list event * run_end * file_state :=
  let '((events, r), file') := save_index fault data file in
  match r with
  | Ok _ => (events, Exit EXIT_SUCCESS, file')
  | Raise IOError => (events, Exit EXIT_IO_ERROR, file')
  | Raise e => (events, Uncaught e, file')
  end.

Definition prepend (events : list event) (run : list event * run_end * file_state)
    : list event * run_end * file_state :=
  let '(events', fin, file) := run in (events ++ events', fin, file).

(** [perform_local_update]. *)
Definition perform_local_update (processor : DataProcessor) (fault : option io_fault)
    (file : file_state) : list event * run_end * file_state :=
  let '(loading, existing_data) := load_existing_index file in
  prepend (Log INFO StartingLocalUpdate :: loading)
    match existing_data with
    | [] => ([Log WARNING NoExistingData], Exit EXIT_SUCCESS, file)
    | _ =>
        match update_shows processor existing_data O with
        | (events, Raise e) => (events, Uncaught e, file)
        | (events, Ok (existing_data, updated_count)) =>
            prepend events
              (if (0 <? updated_count)%nat then
                 prepend [Log INFO (UpdatedShows updated_count)]
                   (save_and_exit fault existing_data file)
               else ([Log INFO NoUpdatesNeeded], Exit EXIT_SUCCESS, file))
        end
    end.

(** [show["key"]] as an element of a [Set[str]]. *)
Definition existing_id (show : json) : result string :=
  match show with
  | JDict show =>
      key ← dict_item "key" show;
      match key with
      | JStr key => Ok key
      | JList _ | JDict _ => Raise TypeError
      | _ => Raise (IllTyped "key")
      end
  | _ => Raise TypeError
  end.

(** [{show["key"] for show in existing_data}]. *)
Definition existing_ids_of (existing_data : list json) : result (gset string) :=
  keys ← mapM existing_id existing_data;
  Ok (list_to_set keys).

(** The body of [for raw_show in fetcher.fetch_shows(...)] run along the
  events of the generator; an exception other than [ProcessingError]
  leaves the loop, and the generator is not resumed. *)
Fixpoint index_shows (processor : DataProcessor) (events : list event)
    (new_shows : list json) : traced (list json) :=
  match events with
  | [] => mret new_shows
  | Yield raw_show :: rest =>
      _ ← emit (Yield raw_show);
      new_shows ←
        match raw_show with
        | JDict raw_data =>
            match process_show processor raw_data with
            | Ok processed_show =>
                _ ← emit (Log INFO (Indexed (dict_get_default "name" JNull processed_show)));
                mret (new_shows ++ [JDict processed_show])
            | Raise (ProcessingError msg cause) =>
                _ ← emit (Log ERROR (ProcessFailed (ProcessingError msg cause)));
                mret new_shows
            | Raise e => lift (Raise e)
            end
        | _ => lift (Raise (IllTyped "raw_show"))
        end;
      index_shows processor rest new_shows
  | ev :: rest =>
      _ ← emit ev;
      index_shows processor rest new_shows
  end.

(** [perform_fetch_and_index]. *)
Definition perform_fetch_and_index (config_file : file_state) (api : remote)
    (limit : option Z) (fault : option io_fault) (fuel : nat) (file : file_state)
    : list event * run_end * file_state :=
  let '(loading, existing_data) := load_existing_index file in
  prepend (Log INFO StartingFetchAndIndex :: loading)
    match existing_ids_of existing_data with
    | Raise e => ([], Uncaught e, file)
    | Ok existing_ids =>
        match DataProcessor_init config_file with
        | Raise (ConfigError msg) =>
            ([Log ERROR (ConfigurationError (ConfigError msg))], Exit EXIT_CONFIG_ERROR, file)
        | Raise e => ([], Uncaught e, file)
        | Ok processor =>
            let fetcher := MixcloudFetcher_init in
            let '(fetching, fin) := fetch_shows fetcher api limit (Some existing_ids) fuel in
            match index_shows processor fetching [] with
            | (events, Raise e) => (events, Uncaught e, file)
            | (events, Ok new_shows) =>
                prepend events
                  match fin with
                  | GenRaise (FetchError msg) =>
                      ([Log ERROR (FetchFailed (FetchError msg))], Exit EXIT_FETCH_ERROR, file)
                  | GenRaise e => ([], Uncaught e, file)
                  | GenUnfinished => ([], Unfinished, file)
                  | GenReturn =>
                      match new_shows with
                      | [] => ([Log INFO NoNewShows], Exit EXIT_SUCCESS, file)
                      | _ =>
                          let all_shows := new_shows ++ existing_data in
                          prepend [Log INFO (FoundNewShows (length new_shows))]
                            (save_and_exit fault all_shows file)
                      end
                  end
            end
        end
    end.

(** The arguments [main] reads. *)
Record arguments : Type := {
  limit : option Z;
  local_update : bool;
}.

Definition is_indexer_error (e : exn) : bool :=
  match e with
  | ConfigError _ | FetchError _ | ProcessingError _ _ | ValidationError _ => true
  | _ => false
  end.

(** [main]: the two modes under the [except] clauses that turn an
  exception into an exit code ([IllTyped] is left as it is: the model
  does not say what Python does there). *)
Definition main (args : arguments) (config_file : file_state) (api : remote)
    (fault : option io_fault) (fuel : nat) (file : file_state)
    : list event * run_end * file_state :=
  let banner := [Log INFO (Banner "="); Log INFO (Banner "Mixcloud Show Indexer");
                 Log INFO (Banner "=")] in
  prepend banner
    match config_file with
    | Absent => ([Log ERROR ConfigNotFound], Exit EXIT_CONFIG_ERROR, file)
    | _ =>
        let '(events, fin, file') :=
          if local_update args then
            match DataProcessor_init config_file with
            | Ok processor => perform_local_update processor fault file
            | Raise e => ([], Uncaught e, file)
            end
          else perform_fetch_and_index config_file api (limit args) fault fuel file in
        match fin with
        | Uncaught (IllTyped _) | Exit _ | Unfinished => (events, fin, file')
        | Uncaught e =>
            (events ++ [Log ERROR (if is_indexer_error e then IndexerFailed e
                                   else UnexpectedError e)],
             Exit EXIT_PROCESSING_ERROR, file')
        end
    end.

End WithRe.
End Main.

(** ** Notions used to state the properties *)

(** An engine for patterns without metacharacters, where Python's
    [pattern.search] is a substring test, on lowercased text under
    [re.IGNORECASE].  It never fails to compile. *)
Fixpoint contains (needle hay : string) : bool :=
  String.prefix needle hay ||
  match hay with
  | EmptyString => false
  | String _ hay' => contains needle hay'
  end.

Definition LiteralRe : ReEngine := {|
    Pattern := string * bool;
    re_compile s flags :=
      Some (s, existsb (fun flag => match flag with IGNORECASE => true end) flags);
    re_search p s := if p.2 then contains (lower p.1) (lower s) else contains p.1 s;
  |}.

Module Catalog.
Import Fetcher.

(** The remote catalog in server order: the shows of the listing pages,
    from [url] on along the [next] links, as far as pages can be read
    (and as far as [fuel] pages). *)
Fixpoint catalog_from (api : remote) (fuel : nat) (url : string)
    (params : list (string * Z)) : list json :=
  match fuel with
  | O => []
  | S fuel' =>
      match listing api url params with
      | PageBody (JDict data) =>
          match dict_get_default "data" (JList []) data with
          | JList shows =>
              shows ++
              match dict_get_default "paging" (JDict []) data with
              | JDict paging =>
                  match dict_get_default "next" JNull paging with
                  | JStr next => if truthy (JStr next) then catalog_from api fuel' next [] else []
                  | _ => []
                  end
              | _ => []
              end
          | _ => []
          end
      | _ => []
      end
  end.

Definition catalog (self : MixcloudFetcher) (api : remote) (fuel : nat) : list json :=
  catalog_from api fuel (first_url self) first_params.

(** The key of a summary item, [None] when it has none. *)
Definition show_key (show : json) : json :=
  match show with
  | JDict fields => dict_get_default "key" JNull fields
  | _ => JNull
  end.

Definition detail_url (self : MixcloudFetcher) (show : json) : string :=
  base_url self +:+ format_key (show_key show).

(** What the consumer receives for a summary item: its detail record, or
    the item itself when the detail request fails. *)
Definition yielded_for (self : MixcloudFetcher) (api : remote) (show : json) : json :=
  match detail api (detail_url self show) with
  | DetailBody full_show => full_show
  | DetailFails _ => show
  end.

(** The item carries a key of the set. *)
Definition known (existing_ids : gset string) (show : json) : Prop :=
    ∃ k, show_key show = JStr k ∧ k ∈ existing_ids.
  (** The failure of the detail request of [show], if it fails, is logged in
    [events]. *)
Definition failure_logged (self : MixcloudFetcher) (api : remote)
    (events : list event) (show : json) : Prop :=
  forall e, detail api (detail_url self show) = DetailFails e ->
            Log ERROR (DetailFailed (show_key show) e) ∈ events.
End Catalog.

(** The alphanumeric-lowercased form of a text, in the words of the
    specification: letters and digits only, in lower case. *)
Definition alnum_lower (text : string) : string :=
  lower (filter_chars is_alnum text).

(** The creation timestamp of a record, in the words of the specification:
    the text of its field ["created_time"], and the empty string for a record
    that has no such field. *)
Definition timestamp_of (x : json) (t : string) : Prop :=
  exists fields, x = JDict fields /\
    (dict_get "created_time" fields = Some (JStr t) \/
     dict_get "created_time" fields = None /\ t = "").

(** A stored record whose timestamp, when present, is a [str]. *)
Definition timed (x : json) : Prop :=
  ∃ fields, x = JDict fields ∧
    (dict_get "created_time" fields = None ∨
     ∃ s, dict_get "created_time" fields = Some (JStr s)).

(** The HTTP requests. *)
Definition is_request (ev : event) : bool :=
  match ev with
  | Get _ _ => true
  | _ => false
  end.

(** The events that touch the index file. *)
Definition is_write (ev : event) : bool :=
  match ev with
  | Mkdir | OpenWrite | Dump _ => true
  | _ => false
  end.

Section Notions.
Context `{RE : ReEngine}.
Import Processor Main.

(** The record [process_show] builds before it looks at the description. *)
Definition base_record (self : DataProcessor) (raw_data : dict)
    (title : string) (slug : json) (picture_key : string) : dict :=
  [ ("name", JStr title);
    ("slug", slug);
    ("created_time", dict_get_default "created_time" (JStr "") raw_data);
    ("picture_key", JStr picture_key);
    ("tags", JList (JStr <$> normalize_tags self
         (existing_tag_names (dict_get_default "tags" (JList []) raw_data)
          ++ (get_category_info self title).2)));
    ("category", JStr (get_category_info self title).1);
    ("audio_length", dict_get_default "audio_length" (JInt 0) raw_data) ].

(** A stored record that [process_show] produced, under some configuration. *)
Definition produced (show : json) : Prop :=
  exists (processor : DataProcessor) (raw_data processed : dict),
    process_show processor raw_data = Ok processed /\ show = JDict processed.

(** A record of the index that comes from a raw record yielded in [trace]
    and processed without error. *)
Definition indexed_from (processor : DataProcessor) (trace : list event) (x : json) : Prop :=
  exists (raw_data processed : dict),
    Yield (JDict raw_data) ∈ trace /\
    process_show processor raw_data = Ok processed /\
    x = JDict processed.

(** A configured entry that is a rule: an object with a name and a pattern
    that are there and neither null nor empty. *)
Definition configured (show_config : json) : bool :=
  match show_config with
  | JDict fields =>
      truthy (dict_get_default "name" JNull fields)
      && truthy (dict_get_default "regex" JNull fields)
  | _ => false
  end.

(** What a configured rule must look like to be compiled into [rule]: the
    name is the configured one, the pattern is the configured text compiled
    with [re.IGNORECASE], and the extra tags are the configured list, or none
    when nothing or something other than a list is configured. *)
Definition compiled_from (show_config : json) (rule : CompiledPattern) : Prop :=
  exists fields regex_str,
    show_config = JDict fields /\
    dict_get "name" fields = Some (JStr (name rule)) /\
    dict_get "regex" fields = Some (JStr regex_str) /\
    re_compile regex_str [IGNORECASE] = Some (regex rule) /\
    match dict_get "extra_tags" fields with
    | Some (JList tags) => tags = JStr <$> extra_tags rule
    | _ => extra_tags rule = []
    end.

(** Local recategorization leaves a stored record as it is: the derived
    category is the stored one, and the normalized merge of the stored and
    the extra tags is the sorted deduplication of the stored tags. *)
Definition unchanged (processor : DataProcessor) (show : json) : Prop :=
  exists fields category extra_tags current_tags,
    show = JDict fields /\
    category_of_stored processor (dict_get_default "name" (JStr "") fields)
      = Ok (category, extra_tags) /\
    dict_get "category" fields = Some (JStr category) /\
    list_of_tags (dict_get_default "tags" (JList []) fields) = Ok current_tags /\
    normalize_tags processor (current_tags ++ extra_tags) = sorted_unique current_tags.

End Notions.

(** ** Sample data *)

Module Demo.
Import Fetcher.

(** A summary item of a listing page and the detail record of the same
    show. *)
Definition summary (key : string) : json :=
  JDict [("key", JStr key); ("name", JStr "Live Punk Session"); ("slug", JStr "live-punk");
         ("url", JStr "https://www.mixcloud.com/punkrockradio/live-punk/");
         ("created_time", JStr "2024-05-01T10:00:00Z")].

Definition full (key : string) : json :=
  JDict [("key", JStr key); ("name", JStr "Live Punk Session"); ("slug", JStr "live-punk");
         ("url", JStr "https://www.mixcloud.com/punkrockradio/live-punk/");
         ("created_time", JStr "2024-05-01T10:00:00Z");
         ("description", JStr "Recorded live in Montreal")].

Definition page2 : string := "https://api.mixcloud.com/punkrockradio/cloudcasts/?offset=2".

(** Scenario 3 of the specification: two listing pages, the first with the
    keys k3 and k2, the second with k1. *)
Definition two_pages (url : string) (params : list (string * Z)) : page_response :=
  if String.eqb url (first_url MixcloudFetcher_init) then
    PageBody (JDict [("data", JList [summary "/k3/"; summary "/k2/"]);
                     ("paging", JDict [("next", JStr page2)])])
  else if String.eqb url page2 then
    PageBody (JDict [("data", JList [summary "/k1/"]); ("paging", JDict [])])
  else PageHTTPError.

(** Every detail request answers. *)
Definition api : remote := {|
  listing := two_pages;
  detail url := DetailBody (full (String.substring 24 (String.length url - 24) url));
|}.

(** The detail request of k3 fails. *)
Definition api_k3_down : remote := {|
  listing := two_pages;
  detail url :=
    if String.eqb url "https://api.mixcloud.com/k3/" then DetailFails "503 Server Error"
    else detail api url;
|}.

(** The rule of scenario 1 and a processor that holds it. *)
Definition punk : @Processor.CompiledPattern LiteralRe :=
  @Processor.Build_CompiledPattern LiteralRe "Punk" ("punk", true) ["genre:punk"].

Definition processor : @Processor.DataProcessor LiteralRe :=
  @Processor.Build_DataProcessor LiteralRe [] [("hiphop", "Hip-Hop")] [punk].

(** A raw record as the API gives it, and the record stored for it. *)
Definition raw : dict :=
  [("key", JStr "/k3/"); ("name", JStr " Live Punk Session "); ("slug", JStr "live-punk");
   ("url", JStr "https://www.mixcloud.com/punkrockradio/live-punk/");
   ("created_time", JStr "2024-05-01T10:00:00Z");
   ("tags", JList [JDict [("name", JStr "HipHop")]]);
   ("description", JStr "Recorded live in Montreal")].

Definition stored : dict :=
  [("name", JStr "Live Punk Session"); ("slug", JStr "live-punk");
   ("created_time", JStr "2024-05-01T10:00:00Z"); ("picture_key", JStr "");
   ("tags", JList [JStr "Hip-Hop"; JStr "genre:punk"]); ("category", JStr "Punk");
   ("audio_length", JInt 0); ("description", JStr "Recorded live in Montreal")].

(** A configuration file with the rule of scenario 1. *)
Definition config_file : file_state :=
  Complete (JDict [("shows", JList [JDict [("name", JStr "Punk"); ("regex", JStr "punk");
                                           ("extra_tags", JList [JStr "genre:punk"])]]);
                   ("tag_mappings", JDict [("hiphop", JStr "Hip-Hop")])]).

(** A raw record without ["slug"]. *)
Definition no_slug : dict :=
  [("key", JStr "/k0/"); ("name", JStr "Untitled");
   ("url", JStr "https://www.mixcloud.com/punkrockradio/untitled/")].
End Demo.

(** ** Notions and sample data for the further properties *)

(** [sep] does not occur in [s ++ tail] at a place inside [s]: the first
    place where it can occur is the start of [tail]. *)
Fixpoint no_cut (sep s tail : string) : bool :=
  match s with
  | EmptyString => true
  | String c s' => negb (String.prefix sep (s +:+ tail)) && no_cut sep s' tail
  end.

(** A picture URL from which no key can be taken at the place of one size:
    nothing there, or an empty URL. *)
Definition no_url (pictures : dict) (key : string) : Prop :=
  dict_get key pictures = None \/ dict_get key pictures = Some (JStr "").

(** A raw record on which [process_show] succeeds: the four required fields,
    a name that is a [str], pictures absent or an object, a description
    absent, falsy or a [str]. *)
Definition well_formed (raw_data : dict) : Prop :=
  Forall (fun field => dict_has field raw_data = true) Processor.required_fields /\
  (exists s, dict_get "name" raw_data = Some (JStr s)) /\
  (dict_get "pictures" raw_data = None \/
   exists pictures, dict_get "pictures" raw_data = Some (JDict pictures)) /\
  (truthy (dict_get_default "description" (JStr "") raw_data) = false \/
   exists text, dict_get "description" raw_data = Some (JStr text)).

(** A text made of ASCII characters, on which the character classes of the
    model are those of Python. *)
Definition ascii_text (text : string) : Prop :=
  Forall (fun c => (nat_of_ascii c < 128)%nat) (list_ascii_of_string text).

Module Cases.
Import Fetcher.

(** The literal engine, refusing the pattern ["["] as Python does
    (an unterminated character set). *)
Definition BracketRe : ReEngine := {|
  Pattern := string * bool;
  re_compile s flags :=
    if String.eqb s "[" then None else re_compile (ReEngine := LiteralRe) s flags;
  re_search := re_search (ReEngine := LiteralRe);
|}.

(** The two pages of [Demo], the second of which cannot be read. *)
Definition page2_down (url : string) (params : list (string * Z)) : page_response :=
  if String.eqb url Demo.page2 then PageTimeout else Demo.two_pages url params.

Definition api_page2_down : remote := {|
  listing := page2_down;
  detail := detail Demo.api;
|}.

(** A configuration file whose second rule does not compile. *)
Definition bad_config : file_state :=
  Complete (JDict [("shows", JList [JDict [("name", JStr "Punk"); ("regex", JStr "punk")];
                                    JDict [("name", JStr "Ska"); ("regex", JStr "[")]])]).
End Cases.

(** * Properties *)

(** ** Sorting *)

Section SortedFacts.
Context {A : Type} (le : A -> A -> bool).

Lemma insert_sorted_Permutation (x : A) (l : list A) :
  insert_sorted le x l ≡ₚ x :: l.
Proof.
  induction l as [|y l IH]; simpl; [done|].
  destruct (le x y); [done|].
  rewrite IH. apply Permutation_swap.
Qed.

Lemma sorted_Permutation (l : list A) : sorted le l ≡ₚ l.
Proof.
  induction l as [|x l IH]; simpl; [done|].
  by rewrite insert_sorted_Permutation, IH.
Qed.

Hypothesis le_total : forall x y, le x y = true \/ le y x = true.
Hypothesis le_trans : forall x y z, le x y = true -> le y z = true -> le x z = true.

Lemma insert_sorted_StronglySorted (x : A) (l : list A) :
  StronglySorted (fun a b => le a b = true) l ->
  StronglySorted (fun a b => le a b = true) (insert_sorted le x l).
Proof.
  induction 1 as [|y l Hl IH Hy]; simpl.
  - repeat constructor.
  - destruct (le x y) eqn:Hxy.
    + constructor; [by constructor|].
      constructor; [done|].
      eapply Forall_impl; [exact Hy|]. intros z Hz. by eapply le_trans.
    + constructor; [done|].
      rewrite insert_sorted_Permutation. constructor; [|done].
      destruct (le_total x y); congruence.
Qed.

Lemma sorted_StronglySorted (l : list A) :
  StronglySorted (fun a b => le a b = true) (sorted le l).
Proof.
  induction l as [|x l IH]; simpl; [constructor|].
  by apply insert_sorted_StronglySorted.
Qed.

End SortedFacts.

Lemma leb_trans (x y z : string) :
  String.leb x y = true -> String.leb y z = true -> String.leb x z = true.
Proof.
  intros Hxy Hyz. apply Is_true_true.
  change (String.le x z). transitivity y; apply Is_true_true; assumption.
Qed.

Lemma leb_empty (s : string) : String.leb s "" = true -> s = "".
Proof. by destruct s. Qed.

(** ** Tag normalization *)

Section Tags.
Context `{RE : ReEngine}.
Import Processor.

Lemma normalized_set_fold (f : string -> string) (tags : list string) (acc : gset string) :
  foldl (fun acc tag => acc ∪ {[ f tag ]}) acc tags = acc ∪ list_to_set (f <$> tags).
Proof.
  revert acc. induction tags as [|tag tags IH]; intros acc; simpl.
  - set_solver.
  - rewrite IH. set_solver.
Qed.

Lemma normalize_tags_eq (self : DataProcessor) (tags : list string) :
  normalize_tags self tags
  = sorted String.leb (elements (list_to_set (normalize_tag self <$> tags) : gset string)).
Proof.
  unfold normalize_tags. rewrite normalized_set_fold.
  by rewrite (left_id_L ∅ (∪)).
Qed.

Lemma elem_of_normalize_tags (self : DataProcessor) (tags : list string) (x : string) :
  x ∈ normalize_tags self tags <-> exists tag, tag ∈ tags /\ x = normalize_tag self tag.
Proof.
  rewrite normalize_tags_eq, sorted_Permutation, elem_of_elements, elem_of_list_to_set.
  rewrite list_elem_of_fmap. naive_solver.
Qed.

(** The output of [normalize_tags] is sorted and free of duplicates. *)
Lemma normalize_tags_sorted (self : DataProcessor) (tags : list string) :
  StronglySorted (fun a b => String.leb a b = true) (normalize_tags self tags)
  /\ NoDup (normalize_tags self tags).
Proof.
  rewrite normalize_tags_eq. split.
  - apply sorted_StronglySorted; [apply String.leb_total|apply leb_trans].
  - rewrite sorted_Permutation. apply NoDup_elements.
Qed.

(** A tag is left as it is or replaced by a value of the table. *)
Lemma lookup_mapping_cases (tag_lower tag : string) (items : list (string * string)) :
  lookup_mapping tag_lower tag items = tag
  \/ exists key, (key, lookup_mapping tag_lower tag items) ∈ items.
Proof.
  induction items as [|[key value] items IH]; simpl; [by left|].
  destruct (String.eqb (lower key) tag_lower).
  - right. exists key. constructor.
  - destruct IH as [IH|[key' IH]]; [by left|].
    right. exists key'. by constructor.
Qed.

Lemma normalize_tag_cases (self : DataProcessor) (tag : string) :
  normalize_tag self tag = tag
  \/ exists key, (key, normalize_tag self tag) ∈ tag_mappings self.
Proof.
  unfold normalize_tag. destruct (String.eqb tag ""); [by left|].
  apply lookup_mapping_cases.
Qed.

Lemma normalize_tag_idempotent (self : DataProcessor) (tag : string) :
  (forall key value, (key, value) ∈ tag_mappings self -> normalize_tag self value = value) ->
  normalize_tag self (normalize_tag self tag) = normalize_tag self tag.
Proof.
  intros Hclosed. destruct (normalize_tag_cases self tag) as [Hsame|[key Hkey]].
  - by rewrite !Hsame.
  - exact (Hclosed _ _ Hkey).
Qed.

End Tags.

(** C8, as stated, fails: with the table [{"hiphop": "Hip-Hop", "hip-hop":
    "Rap"}] the tag ["hiphop"] is normalized to ["Hip-Hop"], and normalizing
    that output again gives ["Rap"]. *)
Lemma C8_counterexample :
  let self := @Processor.Build_DataProcessor LiteralRe []
                [("hiphop", "Hip-Hop"); ("hip-hop", "Rap")] [] in
  Processor.normalize_tags self (Processor.normalize_tags self ["hiphop"])
  <> Processor.normalize_tags self ["hiphop"].
Proof. vm_compute. discriminate. Qed.

(** C8 (amended): when [normalize_tag] leaves every canonical value of the
    alias table as it is (no canonical value is, up to case, an alias of
    another one), [normalize_tags] is idempotent: applied to its own output it
    returns that output. *)
Theorem C8_normalize_tags_idempotent `{RE : ReEngine}
    (self : Processor.DataProcessor) (tags : list string) :
  (forall key value, (key, value) ∈ Processor.tag_mappings self ->
     Processor.normalize_tag self value = value) ->
  Processor.normalize_tags self (Processor.normalize_tags self tags)
  = Processor.normalize_tags self tags.
Proof.
  intros Hclosed.
  rewrite (normalize_tags_eq self (Processor.normalize_tags self tags)).
  rewrite (normalize_tags_eq self tags) at 2.
  do 2 f_equal. apply set_eq. intros x.
  rewrite !elem_of_list_to_set, !list_elem_of_fmap. split.
  - intros (y & -> & Hy). apply elem_of_normalize_tags in Hy as (tag & Htag & ->).
    exists tag. split; [|done]. by apply normalize_tag_idempotent.
  - intros (tag & -> & Htag). exists (Processor.normalize_tag self tag). split.
    + symmetry. by apply normalize_tag_idempotent.
    + apply elem_of_normalize_tags. eauto.
Qed.

Lemma C8_witness :
  let self := @Processor.Build_DataProcessor LiteralRe [] [("hiphop", "Hip-Hop")] [] in
  (forall key value, (key, value) ∈ Processor.tag_mappings self ->
     Processor.normalize_tag self value = value) /\
  Processor.normalize_tags self (Processor.normalize_tags self ["HipHop"; "Jazz"; "hiphop"])
  = Processor.normalize_tags self ["HipHop"; "Jazz"; "hiphop"].
Proof.
  intros self.
  assert (H : forall key value,
             (key, value) ∈ Processor.tag_mappings self ->
             Processor.normalize_tag self value = value).
  { intros key value Hin. apply list_elem_of_singleton in Hin.
    injection Hin as _ ->. reflexivity. }
  split; [exact H|].
  exact (C8_normalize_tags_idempotent self _ H).
Defined.

(** ** Categories *)

Section Category.
Context `{RE : ReEngine}.
Import Processor.

Lemma as_str_list_fmap (tags : list string) : as_str_list (JStr <$> tags) = Some tags.
Proof.
  unfold as_str_list. apply mapM_Some, Forall2_fmap_l, Forall_Forall2_diag.
  by apply Forall_true.
Qed.

Lemma as_str_list_Some (l : list json) (tags : list string) :
  as_str_list l = Some tags -> l = JStr <$> tags.
Proof.
  unfold as_str_list. intros H%mapM_Some.
  induction H as [|v tag l tags Hv _ IH]; simpl; [done|].
  destruct v; try discriminate. injection Hv as ->. by rewrite IH.
Qed.

Lemma search_patterns_first_match (title : string)
    (before : list CompiledPattern) (rule : CompiledPattern) (after : list CompiledPattern) :
  Forall (fun r => re_search (regex r) title = false) before ->
  re_search (regex rule) title = true ->
  search_patterns title (before ++ rule :: after)
  = ((name rule, extra_tags rule), before ++ [rule]).
Proof.
  intros Hbefore Hrule. induction Hbefore as [|r before Hr _ IH]; simpl.
  - by rewrite Hrule.
  - by rewrite Hr, IH.
Qed.

Lemma search_patterns_no_match (title : string) (rules : list CompiledPattern) :
  Forall (fun r => re_search (regex r) title = false) rules ->
  search_patterns title rules = ((DEFAULT_CATEGORY, []), rules).
Proof.
  induction 1 as [|r rules Hr _ IH]; simpl; [done|].
  by rewrite Hr, IH.
Qed.

Lemma compile_show_config_Some (show_config : json) (rule : CompiledPattern) :
  compile_show_config show_config = Ok (Some rule) ->
  configured show_config = true /\ compiled_from show_config rule.
Proof.
  destruct show_config as [| | | |?|fields]; try discriminate.
  cbn [compile_show_config configured]. unfold dict_get_default.
  destruct (dict_get "name" fields) as [n|] eqn:Hn; [|discriminate].
  destruct (dict_get "regex" fields) as [r|] eqn:Hr;
    [|by rewrite orb_true_r].
  destruct (truthy n); [|discriminate]. destruct (truthy r); [|discriminate].
  cbn [negb orb andb].
  destruct r as [| | |regex_str| |]; try discriminate.
  destruct (re_compile regex_str [IGNORECASE]) as [compiled|] eqn:Hc;
    [|by destruct n].
  destruct (dict_get "extra_tags" fields) as [tags|] eqn:Htags.
  - destruct tags as [| | | |tags|].
    5: { destruct (as_str_list tags) as [strs|] eqn:Hstrs; [|discriminate].
         cbn [mbind result_bind]. destruct n; try discriminate. intros [= <-].
         split; [done|]. exists fields, regex_str. rewrite Htags. cbn.
         repeat split; try done. by apply as_str_list_Some. }
    all: cbn [mbind result_bind]; destruct n; try discriminate; intros [= <-].
    all: split; [done|]; exists fields, regex_str; rewrite Htags; by cbn.
  - cbn [as_str_list mapM mbind result_bind]. destruct n; try discriminate.
    intros [= <-]. split; [done|]. exists fields, regex_str. rewrite Htags. by cbn.
Qed.

Lemma compile_show_config_None (show_config : json) :
  compile_show_config show_config = Ok None -> configured show_config = false.
Proof.
  destruct show_config as [| | | |?|fields]; try done.
  cbn [compile_show_config configured].
  destruct (truthy (dict_get_default "name" JNull fields)); [|done].
  destruct (truthy (dict_get_default "regex" JNull fields)); [|done].
  cbn [negb orb andb].
  destruct (dict_get_default "regex" JNull fields) as [| | |regex_str| |];
    try discriminate.
  destruct (re_compile regex_str [IGNORECASE]) as [compiled|].
  - destruct (match dict_get_default "extra_tags" (JList []) fields with
              | JList l => _ | _ => _ end) as [tags|]; cbn [mbind result_bind];
      [|discriminate].
    by destruct (dict_get_default "name" JNull fields).
  - by destruct (dict_get_default "name" JNull fields).
Qed.

(** The rules compiled are those of the configured entries that are rules,
    all of them, in the configured order. *)
Lemma compile_show_configs_filter (shows : list json) (rules : list CompiledPattern) :
  compile_show_configs shows = Ok rules ->
  Forall2 compiled_from (filter (fun c => configured c = true) shows) rules.
Proof.
  revert rules. induction shows as [|show_config shows IH]; intros rules; simpl.
  - intros [= <-]. constructor.
  - destruct (compile_show_config show_config) as [compiled|] eqn:Hc; [|discriminate].
    simpl. destruct (compile_show_configs shows) as [rest|]; [|discriminate].
    simpl. intros [= <-]. specialize (IH _ eq_refl).
    destruct compiled as [rule|].
    + apply compile_show_config_Some in Hc as [Hrule Hfrom].
      rewrite filter_cons_True by done. by constructor.
    + apply compile_show_config_None in Hc.
      rewrite filter_cons_False by (by rewrite Hc). done.
Qed.

Lemma DataProcessor_init_Ok (config_file : file_state) (self : DataProcessor) :
  DataProcessor_init config_file = Ok self ->
  exists config shows,
    config_file = Complete (JDict config) /\
    dict_get "shows" config = Some (JList shows) /\
    _compile_patterns config = Ok (patterns self).
Proof.
  unfold DataProcessor_init.
  destruct (_load_config config_file) as [config|e] eqn:Hload; [|discriminate].
  cbn [mbind result_bind].
  destruct (read_tag_mappings config) as [aliases|e]; [|discriminate].
  cbn [mbind result_bind].
  destruct (_compile_patterns config) as [rules|e] eqn:Hrules; [|discriminate].
  intros [= <-]. cbn [patterns].
  destruct config_file as [| | |doc|doc]; try discriminate.
  destruct doc as [| | | | |config']; try discriminate.
  cbn [_load_config] in Hload.
  destruct (dict_get "shows" config') as [[| | | |shows|]|] eqn:Hshows; try discriminate.
  injection Hload as ->. by exists config, shows.
Qed.

End Category.

(** C3.  [get_category_info] answers with the name and the extra tags of the
    first rule, in the order of the rule list, whose pattern [search] finds in
    the title; an empty title gets the default category and no tags without
    any pattern being searched; a title no rule matches gets the default
    category and no tags.  The rule list of a processor is the configured
    list: one rule for each configured entry that has a name and a pattern,
    in the configured order, with the configured name, the configured pattern
    compiled with [re.IGNORECASE], and the configured extra tags. *)
Theorem C3_get_category_info `{RE : ReEngine}
    (self : Processor.DataProcessor) (title : string) :
  (title = "" ->
     Processor.get_category_info_traced self title = ((DEFAULT_CATEGORY, []), [])) /\
  (title <> "" ->
     (forall before rule after,
        Processor.patterns self = before ++ rule :: after ->
        Forall (fun r => re_search (Processor.regex r) title = false) before ->
        re_search (Processor.regex rule) title = true ->
        Processor.get_category_info_traced self title
        = ((Processor.name rule, Processor.extra_tags rule), before ++ [rule])) /\
     (Forall (fun r => re_search (Processor.regex r) title = false) (Processor.patterns self) ->
        Processor.get_category_info_traced self title
        = ((DEFAULT_CATEGORY, []), Processor.patterns self))) /\
  (forall config shows,
     dict_get "shows" config = Some (JList shows) ->
     Processor._compile_patterns config = Ok (Processor.patterns self) ->
     Forall2 compiled_from (filter (fun c => configured c = true) shows)
       (Processor.patterns self)) /\
  (forall config_file,
     Processor.DataProcessor_init config_file = Ok self ->
     exists config shows,
       config_file = Complete (JDict config) /\
       dict_get "shows" config = Some (JList shows) /\
       Forall2 compiled_from (filter (fun c => configured c = true) shows)
         (Processor.patterns self)).
Proof.
  assert (Hcompiled : forall config shows,
            dict_get "shows" config = Some (JList shows) ->
            Processor._compile_patterns config = Ok (Processor.patterns self) ->
            Forall2 compiled_from (filter (fun c => configured c = true) shows)
              (Processor.patterns self)).
  { intros config shows Hshows. unfold Processor._compile_patterns, dict_get_default.
    rewrite Hshows. apply compile_show_configs_filter. }
  split; [|split; [|split]].
  - intros ->. reflexivity.
  - intros Htitle. unfold Processor.get_category_info_traced.
    assert (String.eqb title "" = false) as -> by by apply String.eqb_neq.
    split.
    + intros before rule after -> Hbefore Hrule.
      by apply search_patterns_first_match.
    + apply search_patterns_no_match.
  - exact Hcompiled.
  - intros config_file (config & shows & -> & Hshows & Hrules)%DataProcessor_init_Ok.
    exists config, shows. split; [done|]. split; [done|]. by eapply Hcompiled.
Qed.

(** Scenario 1 of the specification, with the literal engine, from the
    configuration file to the answer: the processor built from the file holds
    the rule of the one configured entry, and its pattern ["punk"] is found
    inside "Live Punk Session" whatever the case. *)
Lemma C3_witness :
  let entry := JDict [("name", JStr "Punk"); ("regex", JStr "punk");
                      ("extra_tags", JList [JStr "genre:punk"])] in
  exists self : @Processor.DataProcessor LiteralRe,
    Processor.DataProcessor_init Demo.config_file = Ok self /\
    Forall2 compiled_from [entry] (Processor.patterns self) /\
    Processor.get_category_info self "Live Punk Session" = ("Punk", ["genre:punk"]).
Proof.
  intros entry.
  exists (@Processor.Build_DataProcessor LiteralRe
            [("shows", JList [entry]); ("tag_mappings", JDict [("hiphop", JStr "Hip-Hop")])]
            [("hiphop", "Hip-Hop")] [Demo.punk]).
  split; [reflexivity|].
  match goal with
  | |- Forall2 _ _ (Processor.patterns ?self) /\ _ =>
      destruct (C3_get_category_info self "Live Punk Session")
        as (_ & Hfirst & _ & Hinit)
  end.
  split.
  - destruct (Hinit Demo.config_file eq_refl) as (config & shows & Hfile & Hshows & Hall).
    injection Hfile as <-. injection Hshows as <-. exact Hall.
  - destruct Hfirst as [Hfirst _]; [discriminate|].
    unfold Processor.get_category_info.
    by rewrite (Hfirst [] Demo.punk [] eq_refl (Forall_nil_2 _) eq_refl).
Defined.

(** ** Processing one show *)

Section ProcessShow.
Context `{RE : ReEngine}.
Import Processor.

Lemma validate_missing (raw_data : dict) :
  Exists (fun field => dict_has field raw_data = false) required_fields ->
  exists msg, _validate_raw_show raw_data = Raise (ValidationError msg).
Proof.
  intros Hmissing. unfold _validate_raw_show.
  destruct (filter _ required_fields) as [|field missing] eqn:Hfilter; [|by eexists].
  apply Exists_exists in Hmissing as (field & Hin & Hfield).
  assert (Hel : field ∈ filter (fun field => dict_has field raw_data = false) required_fields)
    by (by apply list_elem_of_filter).
  rewrite Hfilter in Hel. by apply elem_of_nil in Hel.
Qed.

Lemma validate_present (raw_data : dict) :
  _validate_raw_show raw_data = Ok tt ->
  Forall (fun field => dict_has field raw_data = true) required_fields.
Proof.
  unfold _validate_raw_show.
  destruct (filter _ required_fields) as [|field missing] eqn:Hfilter; [|discriminate].
  intros _. apply Forall_forall. intros field Hin.
  destruct (dict_has field raw_data) eqn:Hhas; [done|].
  assert (Hel : field ∈ filter (fun field => dict_has field raw_data = false) required_fields)
    by (by apply list_elem_of_filter).
  rewrite Hfilter in Hel. by apply elem_of_nil in Hel.
Qed.

(** What a successful [process_show] returns. *)
Lemma process_show_Ok (self : DataProcessor) (raw_data processed : dict) :
  process_show self raw_data = Ok processed ->
  exists name_text slug picture_key,
    _validate_raw_show raw_data = Ok tt /\
    dict_get_default "name" (JStr "") raw_data = JStr name_text /\
    let title := strip name_text in
    let base := base_record self raw_data title slug picture_key in
    (processed = base \/
     exists text,
       dict_get_default "description" (JStr "") raw_data = JStr text /\
       text <> "" /\
       _normalize_text title <> _normalize_text text /\
       processed = base ++ [("description", JStr text)]).
Proof.
  unfold process_show, process_show_body.
  destruct (_validate_raw_show raw_data) as [[]|e] eqn:Hvalid; simpl;
    [|destruct e; discriminate].
  destruct (dict_get_default "name" (JStr "") raw_data) as [| | |name_text| |] eqn:Hname;
    simpl; try discriminate.
  destruct (get_category_info self (strip name_text)) as [category extra] eqn:Hinfo.
  destruct (dict_item "slug" raw_data) as [slug|e] eqn:Hslug; simpl;
    [|destruct e; discriminate].
  destruct (_extract_picture_key (dict_get_default "pictures" (JDict []) raw_data))
    as [picture_key|e] eqn:Hpicture; simpl; [|destruct e; discriminate].
  intros Hok. exists name_text, slug, picture_key. split; [done|]. split; [done|].
  simpl. unfold base_record. rewrite Hinfo. simpl.
  destruct (truthy (dict_get_default "description" (JStr "") raw_data)) eqn:Htruthy.
  - destruct (dict_get_default "description" (JStr "") raw_data) as [| | |text| |];
      try discriminate.
    destruct (String.eqb_spec (_normalize_text (strip name_text)) (_normalize_text text))
      as [Heq|Hne].
    + left. by injection Hok as <-.
    + right. exists text. split; [done|]. split; [by intros ->|].
      split; [done|]. by injection Hok as <-.
  - left. by injection Hok as <-.
Qed.

(** A processed show has no field ["key"]. *)
Lemma process_show_no_key (self : DataProcessor) (raw_data processed : dict) :
  process_show self raw_data = Ok processed -> dict_get "key" processed = None.
Proof.
  intros Hok. apply process_show_Ok in Hok as (n & slug & pk & _ & _ & Hshape).
  simpl in Hshape. destruct Hshape as [->|(text & _ & _ & _ & ->)]; reflexivity.
Qed.

(** A description that is kept differs from the title once both are
    normalized by [_normalize_text]. *)
Lemma process_show_description (self : DataProcessor) (raw_data processed : dict)
    (description : json) :
  process_show self raw_data = Ok processed ->
  dict_get "description" processed = Some description ->
  exists name_text text,
    dict_get_default "name" (JStr "") raw_data = JStr name_text /\
    description = JStr text /\
    dict_get "description" raw_data = Some (JStr text) /\
    _normalize_text (strip name_text) <> _normalize_text text.
Proof.
  intros Hok Hdesc.
  apply process_show_Ok in Hok as (n & slug & pk & _ & Hname & Hshape).
  simpl in Hshape.
  destruct Hshape as [->|(text & Htext & Hfull & Hne & ->)]; [discriminate|].
  injection Hdesc as <-. exists n, text. repeat split; try done.
  unfold dict_get_default in Htext.
  destruct (dict_get "description" raw_data) as [v|]; [by subst|].
  injection Htext as <-. by destruct Hfull.
Qed.

Lemma process_show_missing (self : DataProcessor) (raw_data : dict) :
  Exists (fun field => dict_has field raw_data = false) required_fields ->
  exists msg,
    process_show self raw_data
    = Raise (ProcessingError ("Failed to process show: " +:+ msg) (ValidationError msg)).
Proof.
  intros Hmissing. apply validate_missing in Hmissing as [msg Hmsg].
  exists msg. unfold process_show, process_show_body. by rewrite Hmsg.
Qed.

End ProcessShow.

(** ** The walk of the catalog *)

Section Walk.
Import Fetcher Catalog.
Variables (self : MixcloudFetcher) (limit : option Z) (existing_ids : gset string).

Lemma yields_app (events events' : list event) :
  yields (events ++ events') = yields events ++ yields events'.
Proof. apply omap_app. Qed.

Lemma yields_resolve_show (api : remote) (fields : dict) :
  yields (resolve_show self api (JDict fields) (dict_get_default "key" JNull fields))
  = [yielded_for self api (JDict fields)].
Proof.
  unfold resolve_show, yielded_for, detail_url. simpl.
  by destruct (detail api _).
Qed.


Lemma detail_failure_logged (api : remote) (fields : dict) (e : string) :
  detail api (detail_url self (JDict fields)) = DetailFails e ->
  Log ERROR (DetailFailed (show_key (JDict fields)) e)
    ∈ resolve_show self api (JDict fields) (dict_get_default "key" JNull fields).
Proof.
  unfold resolve_show, detail_url. simpl. intros ->.
  apply list_elem_of_further, list_elem_of_here.
Qed.

Lemma key_in_unknown (show_key : json) :
  key_in existing_ids show_key = Ok false ->
  forall k, show_key = JStr k -> k ∉ existing_ids.
Proof.
  intros Hkey k ->. simpl in Hkey. injection Hkey as Hkey.
  by apply bool_decide_eq_false in Hkey.
Qed.

Lemma fetch_page_shows_cons (api : remote) (show : json) (rest : list json) (count : Z) :
  fetch_page_shows self api limit existing_ids (show :: rest) count
  = if limit_reached limit count
    then ([Log INFO (ReachedLimit (default 0 limit))], PageReturn)
    else
      match show with
      | JDict fields =>
          let show_key := dict_get_default "key" JNull fields in
          match key_in existing_ids show_key with
          | Raise e => ([], PageRaise e)
          | Ok true => ([Log INFO (FoundExisting show_key)], PageReturn)
          | Ok false =>
              let run := fetch_page_shows self api limit existing_ids rest (count + 1) in
              (resolve_show self api show show_key ++ run.1, run.2)
          end
      | _ => ([], PageRaise AttributeError)
      end.
Proof.
  simpl. destruct (limit_reached limit count); [done|].
  destruct show; try done.
  destruct (key_in existing_ids _) as [[]|]; try done.
  by destruct (fetch_page_shows self api limit existing_ids rest (count + 1)).
Qed.

Lemma fetch_page_shows_prefix (api : remote) (shows : list json) (count : Z) :
  let run := fetch_page_shows self api limit existing_ids shows count in
  exists n,
    (n <= length shows)%nat /\
    yields run.1 = yielded_for self api <$> take n shows /\
    Forall (fun show => ~ known existing_ids show) (take n shows) /\
    Forall (failure_logged self api run.1) (take n shows) /\
    (forall count', run.2 = PageDone count' -> n = length shows).
Proof.
  cbv zeta. revert count. induction shows as [|show rest IH]; intros count.
  - exists O. repeat split; try done; constructor.
  - rewrite fetch_page_shows_cons.
    destruct (limit_reached limit count).
    { exists O. repeat split; try done; try constructor. simpl. lia. }
    destruct show as [| | | | |fields];
      try (exists O; repeat split; try done; try constructor; simpl; lia).
    cbv zeta.
    destruct (key_in existing_ids (dict_get_default "key" JNull fields)) as [[]|e] eqn:Hkey;
      try (exists O; repeat split; try done; try constructor; simpl; lia).
    destruct (IH (count + 1)) as (n & Hn & Hyields & Hunknown & Hlogged & Hdone).
    exists (S n). cbn [fst snd length take fmap list_fmap].
    split; [lia|]. split; [|split; [|split]].
    + by rewrite yields_app, yields_resolve_show, Hyields.
    + constructor; [|done]. intros (k & Hk & Hin).
      by eapply key_in_unknown.
    + constructor.
      * intros e He. apply (detail_failure_logged api fields e) in He.
        apply elem_of_app. by left.
      * eapply Forall_impl; [exact Hlogged|].
        intros show Hshow e He. specialize (Hshow e He).
        apply elem_of_app. by right.
    + intros count' Hfin. f_equal. by eapply Hdone.
Qed.

(** What the detail requests answer does not change how the loop over a
    page goes. *)
Lemma fetch_page_shows_detail (api api' : remote) (shows : list json) (count : Z) :
  let run := fetch_page_shows self api limit existing_ids shows count in
  let run' := fetch_page_shows self api' limit existing_ids shows count in
  run.2 = run'.2 /\ length (yields run.1) = length (yields run'.1).
Proof.
  cbv zeta. revert count. induction shows as [|show rest IH]; intros count; [done|].
  rewrite !fetch_page_shows_cons.
  destruct (limit_reached limit count); [done|].
  destruct show as [| | | | |fields]; try done.
  cbv zeta.
  destruct (key_in existing_ids (dict_get_default "key" JNull fields)) as [[]|e]; try done.
  destruct (IH (count + 1)) as [Hfin Hlen]. cbn [fst snd]. split; [done|].
  by rewrite !yields_app, !length_app, !yields_resolve_show, Hlen.
Qed.

Lemma failure_logged_mono (api : remote) (events events' : list event) (shows : list json) :
  events ⊆ events' ->
  Forall (failure_logged self api events) shows ->
  Forall (failure_logged self api events') shows.
Proof.
  intros Hsub Hall. eapply Forall_impl; [exact Hall|].
  intros show Hshow e He. apply Hsub. by apply Hshow.
Qed.

(** The items yielded are the answers for a prefix of the catalog, no item
    of which carries a known key; the failed detail requests of that prefix
    are logged. *)
Lemma fetch_pages_prefix (api : remote) (fuel : nat) (url : string)
    (params : list (string * Z)) (count : Z) (page_num : nat) :
  let run := fetch_pages self api limit existing_ids fuel url params count page_num in
  let items := catalog_from api fuel url params in
  exists n,
    yields run.1 = yielded_for self api <$> take n items /\
    Forall (fun show => ~ known existing_ids show) (take n items) /\
    Forall (failure_logged self api run.1) (take n items).
Proof.
  cbv zeta. revert url params count page_num.
  induction fuel as [|fuel IH]; intros url params count page_num.
  { exists O. repeat split; constructor. }
  simpl.
  destruct (listing api url params) as [| | | |data];
    try (exists O; repeat split; constructor).
  destruct data as [| | | | |data]; try (exists O; repeat split; constructor).
  destruct (dict_get_default "data" (JList []) data) as [| | | |shows|];
    try (exists O; repeat split; constructor).
  destruct (fetch_page_shows_prefix api shows count)
    as (n & Hn & Hyields & Hunknown & Hlogged & Hdone).
  destruct (fetch_page_shows self api limit existing_ids shows count) as [events fin].
  cbn [fst snd] in *.
  assert (Hstop : forall (events' : list event) (later : list json),
            yields events' = [] ->
            exists n,
              yields (Get url params ::
                      Log INFO (PageRetrieved (S page_num) (length shows)) :: events ++ events')
              = yielded_for self api <$> take n (shows ++ later) /\
              Forall (fun show => ~ known existing_ids show) (take n (shows ++ later)) /\
              Forall (failure_logged self api
                        (Get url params ::
                         Log INFO (PageRetrieved (S page_num) (length shows)) :: events ++ events'))
                (take n (shows ++ later))).
  { intros events' later Hnone. exists n. rewrite take_app_le by done.
    split; [|split; [done|]].
    - cbn. change (omap _ ?l) with (yields l). by rewrite yields_app, Hnone, app_nil_r.
    - eapply failure_logged_mono; [|exact Hlogged]. set_solver. }
  destruct fin as [count'| |e]; [|cbn [fst snd]; by eapply (Hstop [])..].
  specialize (Hdone _ eq_refl). subst n.
  destruct (dict_get_default "paging" (JDict []) data) as [| | | | |paging];
    try (cbn [fst snd]; by eapply (Hstop [])).
  destruct (dict_get_default "next" JNull paging) as [|b|z|next|l|d];
    try (destruct (truthy _); cbn [fst snd]; by eapply Hstop).
  change (truthy (JStr next)) with (negb (String.eqb next "")).
  destruct (negb (String.eqb next "")); [|cbn [fst snd]; by eapply Hstop].
  destruct (IH next [] count' (S page_num)) as (m & Hyields' & Hunknown' & Hlogged').
  destruct (fetch_pages self api limit existing_ids fuel next [] count' (S page_num))
    as [events' fin'].
  cbn [fst snd] in *.
  exists (length shows + m)%nat. rewrite take_app_add.
  rewrite take_ge in Hyields, Hunknown, Hlogged by done.
  split; [|split].
  - cbn. change (omap _ ?l) with (yields l).
    rewrite yields_app. cbn. change (omap _ ?l) with (yields l).
    by rewrite Hyields, Hyields', fmap_app.
  - apply Forall_app. by split.
  - apply Forall_app. split.
    + eapply failure_logged_mono; [|exact Hlogged]. set_solver.
    + eapply failure_logged_mono; [|exact Hlogged']. set_solver.
Qed.

End Walk.

Section WalkEnd.
Import Fetcher Catalog.
Variables (self : MixcloudFetcher) (limit : option Z) (existing_ids : gset string).

Lemma fetch_pages_detail (api api' : remote) :
  listing api' = listing api ->
  forall fuel url params count page_num,
    let run := fetch_pages self api limit existing_ids fuel url params count page_num in
    let run' := fetch_pages self api' limit existing_ids fuel url params count page_num in
    run.2 = run'.2 /\ length (yields run.1) = length (yields run'.1).
Proof.
  intros Hlisting. cbv zeta. induction fuel as [|fuel IH]; intros url params count page_num.
  { done. }
  simpl. rewrite Hlisting.
  destruct (listing api url params) as [| | | |data]; try done.
  destruct data as [| | | | |data]; try done.
  destruct (dict_get_default "data" (JList []) data) as [| | | |shows|]; try done.
  destruct (fetch_page_shows_detail self limit existing_ids api api' shows count)
    as [Hfin Hlen].
  destruct (fetch_page_shows self api limit existing_ids shows count) as [events fin].
  destruct (fetch_page_shows self api' limit existing_ids shows count) as [events' fin'].
  cbn [fst snd] in *. subst fin'.
  assert (Hsame : forall (tail : list event),
            length (yields (Get url params ::
                     Log INFO (PageRetrieved (S page_num) (length shows)) :: events ++ tail))
            = length (yields (Get url params ::
                     Log INFO (PageRetrieved (S page_num) (length shows)) :: events' ++ tail))).
  { intros tail. cbn. change (omap _ ?l) with (yields l).
    by rewrite !yields_app, !length_app, Hlen. }
  destruct fin as [count'| |e]; [|by cbn [fst snd]..].
  destruct (dict_get_default "paging" (JDict []) data) as [| | | | |paging];
    try by cbn [fst snd].
  destruct (dict_get_default "next" JNull paging) as [|b|z|next|l|d];
    try (destruct (truthy _); by cbn [fst snd]).
  destruct (truthy (JStr next)); [|by cbn [fst snd]].
  destruct (IH next [] count' (S page_num)) as [Hfin' Hlen'].
  destruct (fetch_pages self api limit existing_ids fuel next [] count' (S page_num))
    as [later fin].
  destruct (fetch_pages self api' limit existing_ids fuel next [] count' (S page_num))
    as [later' fin'].
  cbn [fst snd] in *. split; [done|].
  cbn. change (omap _ ?l) with (yields l).
  rewrite !yields_app, !length_app. cbn. change (omap _ ?l) with (yields l).
  by rewrite Hlen, Hlen'.
Qed.

End WalkEnd.

(** C2.  Whatever the pages, the limit and the set of known keys: if the
    catalog is [before ++ show :: after] and [show] carries a known key, the
    items yielded are the answers for a prefix of [before].  Nothing is
    yielded for [show] or for an item after it, on this page or a later one. *)
Theorem C2_stops_before_known_key (self : Fetcher.MixcloudFetcher) (api : Fetcher.remote)
    (limit : option Z) (existing_ids : gset string) (fuel : nat)
    (before : list json) (show : json) (after : list json) :
  Catalog.catalog self api fuel = before ++ show :: after ->
  Catalog.known existing_ids show ->
  exists n,
    (n <= length before)%nat /\
    Fetcher.yields (Fetcher.fetch_shows self api limit (Some existing_ids) fuel).1
    = Catalog.yielded_for self api <$> take n before.
Proof.
  intros Hcatalog Hknown. unfold Fetcher.fetch_shows.
  change (default ∅ (Some existing_ids)) with existing_ids.
  destruct (fetch_pages_prefix self limit existing_ids api fuel
              (Fetcher.first_url self) Fetcher.first_params 0 O)
    as (n & Hyields & Hunknown & _).
  destruct (Fetcher.fetch_pages self api limit existing_ids fuel _ _ 0 O) as [events fin].
  cbn [fst snd] in *. fold (Catalog.catalog self api fuel) in Hyields, Hunknown.
  rewrite Hcatalog in Hyields, Hunknown.
  assert (Hn : (n <= length before)%nat).
  { destruct (decide (n <= length before)%nat) as [|Hgt]; [done|].
    exfalso. eapply (Forall_lookup_1 _ _ (length before) show) in Hunknown; [done|].
    assert (length before < n)%nat by lia.
    rewrite lookup_take_lt by done. by apply list_lookup_middle. }
  exists n. split; [done|]. rewrite take_app_le in Hyields by done. exact Hyields.
Qed.

Lemma C2_witness :
  let existing_ids : gset string := {["/k2/"]} in
  let run := Fetcher.fetch_shows Fetcher.MixcloudFetcher_init Demo.api None
               (Some existing_ids) 5 in
  Catalog.catalog Fetcher.MixcloudFetcher_init Demo.api 5
  = [Demo.summary "/k3/"] ++ Demo.summary "/k2/" :: [Demo.summary "/k1/"] /\
  Catalog.known existing_ids (Demo.summary "/k2/") /\
  exists n, (n <= 1)%nat /\
    Fetcher.yields run.1
    = Catalog.yielded_for Fetcher.MixcloudFetcher_init Demo.api <$> take n [Demo.summary "/k3/"].
Proof.
  intros existing_ids run.
  assert (Hcatalog : Catalog.catalog Fetcher.MixcloudFetcher_init Demo.api 5
            = [Demo.summary "/k3/"] ++ Demo.summary "/k2/" :: [Demo.summary "/k1/"])
    by reflexivity.
  assert (Hknown : Catalog.known existing_ids (Demo.summary "/k2/")).
  { exists "/k2/". split; [reflexivity|]. by apply elem_of_singleton. }
  split; [exact Hcatalog|]. split; [exact Hknown|].
  exact (C2_stops_before_known_key _ _ None existing_ids 5 _ _ _ Hcatalog Hknown).
Defined.

(** C5.  Take the item at place [i] of the catalog and suppose the walk gets
    to it when the detail requests answer as [api'] does.  If the detail
    request of that item fails under [api], the generator still yields for
    place [i], and what it yields is the summary item as it came, after
    logging the failure; nothing is dropped and the walk ends as it does
    under [api']. *)
Theorem C5_detail_failure_yields_summary (self : Fetcher.MixcloudFetcher)
    (api api' : Fetcher.remote) (limit : option Z) (existing_ids : option (gset string))
    (fuel : nat) (i : nat) (show : json) (e : string) :
  Fetcher.listing api' = Fetcher.listing api ->
  Catalog.catalog self api fuel !! i = Some show ->
  (i < length (Fetcher.yields (Fetcher.fetch_shows self api' limit existing_ids fuel).1))%nat ->
  Fetcher.detail api (Catalog.detail_url self show) = Fetcher.DetailFails e ->
  let run := Fetcher.fetch_shows self api limit existing_ids fuel in
  let run' := Fetcher.fetch_shows self api' limit existing_ids fuel in
  Fetcher.yields run.1 !! i = Some show /\
  Log ERROR (DetailFailed (Catalog.show_key show) e) ∈ run.1 /\
  run.2 = run'.2 /\
  length (Fetcher.yields run.1) = length (Fetcher.yields run'.1).
Proof.
  intros Hlisting Hshow Hreached Hfails. cbv zeta.
  unfold Fetcher.fetch_shows in *.
  set (ids := default ∅ existing_ids) in *.
  destruct (fetch_pages_detail self limit ids api api' Hlisting fuel
              (Fetcher.first_url self) Fetcher.first_params 0 O) as [Hfin Hlen].
  destruct (fetch_pages_prefix self limit ids api fuel
              (Fetcher.first_url self) Fetcher.first_params 0 O)
    as (n & Hyields & _ & Hlogged).
  fold (Catalog.catalog self api fuel) in Hyields, Hlogged.
  destruct (Fetcher.fetch_pages self api limit ids fuel _ _ 0 O) as [events fin].
  destruct (Fetcher.fetch_pages self api' limit ids fuel _ _ 0 O) as [events' fin'].
  cbn [fst snd] in *.
  change (Fetcher.yields (Log INFO (StartingFetch limit) :: events))
    with (Fetcher.yields events).
  change (Fetcher.yields (Log INFO (StartingFetch limit) :: events'))
    with (Fetcher.yields events') in *.
  assert (Hi : (i < n)%nat).
  { rewrite <- Hlen, Hyields, length_fmap, length_take in Hreached. lia. }
  assert (Hplace : take n (Catalog.catalog self api fuel) !! i = Some show)
    by by rewrite lookup_take_lt.
  split; [|split; [|done]].
  - rewrite Hyields, list_lookup_fmap, Hplace. simpl.
    unfold Catalog.yielded_for. by rewrite Hfails.
  - apply list_elem_of_further.
    by eapply (Forall_lookup_1 _ _ i show) in Hlogged; [apply Hlogged|].
Qed.

Lemma C5_witness :
  let self := Fetcher.MixcloudFetcher_init in
  let run := Fetcher.fetch_shows self Demo.api_k3_down None None 5 in
  Fetcher.yields run.1 !! O = Some (Demo.summary "/k3/") /\
  Log ERROR (DetailFailed (JStr "/k3/") "503 Server Error") ∈ run.1 /\
  run.2 = Fetcher.GenReturn /\
  length (Fetcher.yields run.1) = 3%nat.
Proof.
  intros self run.
  assert (Hreached :
    (0 < length (Fetcher.yields (Fetcher.fetch_shows self Demo.api None None 5).1))%nat).
  { vm_compute. lia. }
  exact (C5_detail_failure_yields_summary self Demo.api_k3_down Demo.api None None 5
           O (Demo.summary "/k3/") "503 Server Error" eq_refl eq_refl Hreached eq_refl).
Defined.

(** ** Writing the index *)

Section SaveIndex.
Import Processor Main.

Lemma timed_keys (data : list json) :
  Forall timed data ->
  exists keys : list string, mapM created_time_key data = Ok (JStr <$> keys).
Proof.
  induction 1 as [|x data (fields & -> & Hx) _ (keys & IH)].
  - by exists [].
  - cbn [mapM]. rewrite IH. simpl. unfold dict_get_default.
    destruct Hx as [->|[s ->]]; [by exists ("" :: keys)|by exists (s :: keys)].
Qed.

Lemma sort_by_created_time_timed (data : list json) :
  Forall timed data -> sort_by_created_time data = Ok (sorted newer_first data).
Proof.
  intros (keys & Hkeys)%timed_keys. unfold sort_by_created_time.
  rewrite Hkeys. simpl. by rewrite as_str_list_fmap.
Qed.

Lemma sort_by_created_time_Permutation (data sorted_data : list json) :
  sort_by_created_time data = Ok sorted_data -> sorted_data ≡ₚ data.
Proof.
  unfold sort_by_created_time.
  destruct (mapM created_time_key data) as [keys|]; simpl; [|discriminate].
  destruct (as_str_list keys).
  - intros [= <-]. apply sorted_Permutation.
  - destruct data as [|x [|y data]];
      try (destruct (existsb never_compared keys); discriminate).
    by intros [= <-].
Qed.

Lemma newer_first_total (x y : json) : newer_first x y = true \/ newer_first y x = true.
Proof. unfold newer_first. apply String.leb_total. Qed.

Lemma newer_first_trans (x y z : json) :
  newer_first x y = true -> newer_first y z = true -> newer_first x z = true.
Proof. unfold newer_first. intros Hxy Hyz. by eapply leb_trans. Qed.

Lemma StronglySorted_lookup_lt {A} (R : A -> A -> Prop) (l : list A) (i j : nat) (x y : A) :
  StronglySorted R l -> (i < j)%nat -> l !! i = Some x -> l !! j = Some y -> R x y.
Proof.
  intros Hl. revert i j. induction Hl as [|z l _ IH Hz]; intros i j Hij Hi Hj; [done|].
  destruct j as [|j]; [lia|]. destruct i as [|i]; simpl in *.
  - injection Hi as <-. eapply Forall_forall in Hz; [done|].
    by eapply list_elem_of_lookup_2.
  - eapply (IH i j); [lia|done..].
Qed.

Lemma timestamp_of_created_time (x : json) (t : string) :
  timestamp_of x t -> created_time x = t.
Proof.
  intros (fields & -> & [Ht|[Ht ->]]);
    unfold created_time, created_time_key, dict_get_default; by rewrite Ht.
Qed.

End SaveIndex.

(** C6, as stated, fails: [process_show] stores the timestamp of the raw
    record as it is, a JSON null too; a list of two records one of which has
    such a timestamp makes the sort of [save_index] compare [None] with a
    [str], which raises [TypeError] before anything is written. *)
Lemma C6_counterexample :
  let raw_data := [("key", JStr "/k0/"); ("name", JStr "Untitled");
                   ("slug", JStr "untitled");
                   ("url", JStr "https://www.mixcloud.com/punkrockradio/untitled/");
                   ("created_time", JNull)] in
  exists undated,
    Processor.process_show Demo.processor raw_data = Ok undated /\
    dict_get "created_time" undated = Some JNull /\
    Main.save_index None [JDict undated; JDict Demo.stored] Absent
    = (([], Raise TypeError), Absent).
Proof.
  intros raw_data. eexists. split; [vm_compute; reflexivity|].
  split; vm_compute; reflexivity.
Qed.

(** C6 (amended).  For records whose timestamp, when present, is a [str]:
    [save_index] writes a permutation of the records in which a record never
    comes before one with a greater timestamp, the timestamp of a record being
    the text of its field ["created_time"], or the empty string when it has
    none; and a record without a timestamp comes after every record that has
    a non-empty one. *)
Theorem C6_save_index_sorted (data : list json) (file : file_state) :
  Forall timed data ->
  exists sorted_data,
    Main.save_index None data file
    = (([Mkdir; OpenWrite; Dump (JList sorted_data);
         Log INFO (SavedShows (length sorted_data))], Ok tt),
       Complete (JList sorted_data)) /\
    sorted_data ≡ₚ data /\
    (forall i j x y tx ty,
       (i < j)%nat ->
       sorted_data !! i = Some x -> sorted_data !! j = Some y ->
       timestamp_of x tx -> timestamp_of y ty ->
       String.leb ty tx = true) /\
    (forall i j x y ty,
       sorted_data !! i = Some x -> sorted_data !! j = Some y ->
       timestamp_of x "" -> timestamp_of y ty -> ty <> "" -> (j < i)%nat).
Proof.
  intros Htimed. exists (sorted Main.newer_first data).
  assert (Hsorted : StronglySorted
            (fun x y => String.leb (Main.created_time y) (Main.created_time x) = true)
            (sorted Main.newer_first data))
    by (apply (sorted_StronglySorted Main.newer_first);
        [apply newer_first_total|apply newer_first_trans]).
  split; [|split; [apply sorted_Permutation|split]].
  - unfold Main.save_index. by rewrite sort_by_created_time_timed.
  - intros i j x y tx ty Hij Hi Hj Hx%timestamp_of_created_time
      Hy%timestamp_of_created_time.
    pose proof (StronglySorted_lookup_lt _ _ i j x y Hsorted Hij Hi Hj) as Hle.
    simpl in Hle. by rewrite Hx, Hy in Hle.
  - intros i j x y ty Hi Hj Hx%timestamp_of_created_time Hy%timestamp_of_created_time Hty.
    destruct (decide (j < i)%nat) as [|Hge]; [done|]. exfalso.
    destruct (decide (i = j)) as [->|Hne]; [congruence|].
    pose proof (StronglySorted_lookup_lt _ _ i j x y Hsorted ltac:(lia) Hi Hj) as Hle.
    simpl in Hle. rewrite Hx, Hy in Hle. by apply leb_empty in Hle.
Qed.

Lemma C6_witness :
  let old := JDict [("name", JStr "a"); ("created_time", JStr "2023-01-01T00:00:00Z")] in
  let undated := JDict [("name", JStr "b")] in
  let new := JDict [("name", JStr "c"); ("created_time", JStr "2024-06-01T00:00:00Z")] in
  exists sorted_data,
    Main.save_index None [old; undated; new] Absent
    = (([Mkdir; OpenWrite; Dump (JList sorted_data);
         Log INFO (SavedShows (length sorted_data))], Ok tt),
       Complete (JList sorted_data)) /\
    sorted_data ≡ₚ [old; undated; new] /\
    (forall i j x y tx ty,
       (i < j)%nat ->
       sorted_data !! i = Some x -> sorted_data !! j = Some y ->
       timestamp_of x tx -> timestamp_of y ty ->
       String.leb ty tx = true) /\
    (forall i j x y ty,
       sorted_data !! i = Some x -> sorted_data !! j = Some y ->
       timestamp_of x "" -> timestamp_of y ty -> ty <> "" -> (j < i)%nat).
Proof.
  intros old undated new. apply C6_save_index_sorted.
  repeat constructor; eexists; (split; [reflexivity|]); simpl; eauto.
Defined.

(** C4, as stated, fails: a local update that changes one record and whose
    [json.dump] is stopped by an I/O error ends with the I/O exit code, and
    the index file no longer holds the index it held: it holds a prefix of
    the new text. *)
Lemma C4_counterexample :
  let stored := JList [JDict [("name", JStr "Live Punk Session"); ("category", JStr "Old");
                              ("tags", JList [JStr "genre:punk"])]] in
  let run := Main.perform_local_update Demo.processor (Some Main.FailDump) (Complete stored) in
  run.1.2 = Main.Exit EXIT_IO_ERROR /\ run.2 <> Complete stored.
Proof. vm_compute. split; [reflexivity|discriminate]. Qed.

(** ** Local recategorization *)

Section LocalUpdate.
Context `{RE : ReEngine}.
Import Processor Main.

Lemma set_of_tags_strs (tags : list string) : set_of_tags (JList (JStr <$> tags)) = Ok tt.
Proof.
  simpl. assert (existsb (fun v => match v with JList _ | JDict _ => true | _ => false end)
                   (JStr <$> tags) = false) as ->; [|done].
  by induction tags.
Qed.

Lemma list_of_tags_Ok (tags : json) (current_tags : list string) :
  list_of_tags tags = Ok current_tags -> tags = JList (JStr <$> current_tags).
Proof.
  destruct tags as [| | | |l|]; try discriminate. simpl.
  destruct (as_str_list l) as [tags|] eqn:Hl; [|discriminate].
  intros [= <-]. by rewrite (as_str_list_Some _ _ Hl).
Qed.

Lemma update_show_unchanged (processor : DataProcessor) (show : json) (updated_count : nat) :
  unchanged processor show ->
  update_show processor show updated_count = ([], Ok (show, updated_count)).
Proof.
  intros (fields & category & extra & current & -> & Hinfo & Hcategory & Htags & Hsame).
  unfold update_show. pose proof (list_of_tags_Ok _ _ Htags) as Hlist.
  cbv zeta. rewrite Hlist at 1. rewrite set_of_tags_strs, Hinfo.
  assert (same_category (dict_get_default "category" JNull fields) category = true) as Hcat.
  { unfold dict_get_default. rewrite Hcategory. apply String.eqb_refl. }
  cbn [lift mbind traced_bind mret traced_ret fst snd app].
  rewrite Hcat. cbn [lift mbind traced_bind mret traced_ret fst snd app].
  rewrite Htags. cbn [lift mbind traced_bind mret traced_ret fst snd app].
  by rewrite bool_decide_eq_true_2.
Qed.

Lemma update_shows_unchanged (processor : DataProcessor) (existing_data : list json)
    (updated_count : nat) :
  Forall (unchanged processor) existing_data ->
  update_shows processor existing_data updated_count = ([], Ok (existing_data, updated_count)).
Proof.
  induction 1 as [|show rest Hshow _ IH]; simpl; [done|].
  rewrite (update_show_unchanged _ _ _ Hshow).
  cbn [mbind traced_bind fst snd app]. by rewrite IH.
Qed.

Lemma load_existing_index_no_write (file : file_state) :
  Forall (fun ev => is_write ev = false) (load_existing_index file).1.
Proof.
  destruct file as [| | |doc|doc]; simpl; try by repeat constructor.
  destruct doc; by repeat constructor.
Qed.

End LocalUpdate.

(** C7.  In local-recategorize mode, when every stored record is [unchanged]
    (its derived category is the stored one and its normalized merged tag
    list is the sorted deduplication of its stored tags), the run ends with
    the success code, its trace holds no write to the index file, and the
    file is as it was. *)
Theorem C7_local_update_no_write `{RE : ReEngine} (processor : Processor.DataProcessor)
    (fault : option Main.io_fault) (file : file_state) :
  Forall (unchanged processor) (Main.load_existing_index file).2 ->
  let run := Main.perform_local_update processor fault file in
  run.2 = file /\
  run.1.2 = Main.Exit EXIT_SUCCESS /\
  Forall (fun ev => is_write ev = false) run.1.1.
Proof.
  intros Hunchanged. cbv zeta. unfold Main.perform_local_update.
  pose proof (load_existing_index_no_write file) as Hload.
  destruct (Main.load_existing_index file) as [loading existing_data].
  cbn [fst snd] in *.
  destruct existing_data as [|show rest].
  - simpl. repeat split; try done. constructor; [done|].
    apply Forall_app. split; [done|by repeat constructor].
  - rewrite (update_shows_unchanged _ _ _ Hunchanged). simpl.
    repeat split; try done. constructor; [done|].
    apply Forall_app. split; [done|by repeat constructor].
Qed.

Lemma C7_witness :
  let stored := JList [JDict [("name", JStr "Live Punk Session"); ("category", JStr "Punk");
                              ("tags", JList [JStr "Hip-Hop"; JStr "genre:punk"])]] in
  let run := Main.perform_local_update Demo.processor (Some Main.FailDump) (Complete stored) in
  run.2 = Complete stored /\
  run.1.2 = Main.Exit EXIT_SUCCESS /\
  Forall (fun ev => is_write ev = false) run.1.1.
Proof.
  intros stored. apply (C7_local_update_no_write Demo.processor).
  constructor; [|constructor].
  eexists _, "Punk", ["genre:punk"], ["Hip-Hop"; "genre:punk"].
  split; [reflexivity|]. repeat split; vm_compute; reflexivity.
Defined.

(** ** Fetch mode *)

Section FetchMode.
Context `{RE : ReEngine}.
Import Processor Fetcher Main.

Lemma existing_ids_of_produced (show : json) (rest : list json) :
  produced show -> existing_ids_of (show :: rest) = Raise (KeyError "key").
Proof.
  intros (processor & raw_data & processed & Hok & ->).
  apply process_show_no_key in Hok.
  unfold existing_ids_of. cbn [mapM existing_id]. unfold dict_item.
  by rewrite Hok.
Qed.

Lemma index_shows_other (processor : DataProcessor) (ev : event) (rest : list event)
    (new_shows : list json) :
  (forall item, ev <> Yield item) ->
  index_shows processor (ev :: rest) new_shows
  = (ev :: (index_shows processor rest new_shows).1,
     (index_shows processor rest new_shows).2).
Proof. intros Hev. destruct ev; try done. by destruct (Hev item). Qed.

Lemma index_shows_indexed (processor : DataProcessor) (raw_data processed : dict)
    (rest : list event) (new_shows : list json) :
  process_show processor raw_data = Ok processed ->
  let later := index_shows processor rest (new_shows ++ [JDict processed]) in
  index_shows processor (Yield (JDict raw_data) :: rest) new_shows
  = (Yield (JDict raw_data)
       :: Log INFO (Indexed (dict_get_default "name" JNull processed)) :: later.1,
     later.2).
Proof. intros Hok. simpl. rewrite Hok. simpl. unfold traced_bind. by simpl. Qed.

Lemma index_shows_skipped (processor : DataProcessor) (raw_data : dict)
    (msg : string) (cause : exn) (rest : list event) (new_shows : list json) :
  process_show processor raw_data = Raise (ProcessingError msg cause) ->
  let later := index_shows processor rest new_shows in
  index_shows processor (Yield (JDict raw_data) :: rest) new_shows
  = (Yield (JDict raw_data)
       :: Log ERROR (ProcessFailed (ProcessingError msg cause)) :: later.1,
     later.2).
Proof. intros Hok. simpl. rewrite Hok. simpl. unfold traced_bind. by simpl. Qed.

(** When the loop runs to its end, the new shows are the processed forms of
    yielded records, and the trace keeps every event of the generator. *)
Lemma index_shows_Ok (processor : DataProcessor) (events : list event)
    (new_shows : list json) (trace : list event) (out : list json) :
  index_shows processor events new_shows = (trace, Ok out) ->
  events ⊆ trace /\
  exists added, out = new_shows ++ added /\ Forall (indexed_from processor events) added.
Proof.
  revert new_shows trace out.
  induction events as [|ev events IH]; intros new_shows trace out.
  - intros [= <- <-]. split; [done|]. exists []. by rewrite app_nil_r.
  - assert (Hweaken : forall added,
              Forall (indexed_from processor events) added ->
              Forall (indexed_from processor (ev :: events)) added).
    { intros added Hadded. eapply Forall_impl; [exact Hadded|].
      intros x (raw_data & p & Hin & Hp & ->).
      exists raw_data, p. split; [by right|done]. }
    destruct ev as [lvl r|url params| |item| | |doc];
      try (rewrite index_shows_other by done;
           destruct (index_shows processor events new_shows) as [later r'] eqn:Hlater;
           intros [= <- ->]; destruct (IH _ _ _ Hlater) as (Hsub & added & -> & Hadded);
           split; [set_solver|]; exists added; split; [done|by apply Hweaken]).
    destruct item as [| | | | |raw_data]; try (simpl; discriminate).
    destruct (process_show processor raw_data) as [processed|e] eqn:Hp.
    + rewrite (index_shows_indexed _ _ _ _ _ Hp). cbv zeta.
      destruct (index_shows processor events (new_shows ++ [JDict processed]))
        as [later r'] eqn:Hlater.
      intros [= <- ->]. destruct (IH _ _ _ Hlater) as (Hsub & added & -> & Hadded).
      split; [set_solver|]. exists (JDict processed :: added).
      split; [by rewrite <- app_assoc|].
      constructor; [|by apply Hweaken].
      exists raw_data, processed. split; [by left|done].
    + destruct e as [| | | | |msg cause| | | |]; try (simpl; rewrite Hp; simpl; discriminate).
      rewrite (index_shows_skipped _ _ _ _ _ _ Hp). cbv zeta.
      destruct (index_shows processor events new_shows) as [later r'] eqn:Hlater.
      intros [= <- ->]. destruct (IH _ _ _ Hlater) as (Hsub & added & -> & Hadded).
      split; [set_solver|]. exists added. split; [done|by apply Hweaken].
Qed.

End FetchMode.

Section FetchRun.
Context `{RE : ReEngine}.
Import Processor Fetcher Main.

Lemma indexed_from_mono (processor : DataProcessor) (trace trace' : list event)
    (shows : list json) :
  trace ⊆ trace' ->
  Forall (indexed_from processor trace) shows ->
  Forall (indexed_from processor trace') shows.
Proof.
  intros Hsub Hall. eapply Forall_impl; [exact Hall|].
  intros x (raw_data & p & Hin & Hp & ->). exists raw_data, p. split; [by apply Hsub|done].
Qed.

(** A run of fetch mode leaves the index file as it was, or writes (all of
    it, or a prefix) the sorted list of the new shows and the old ones. *)
Lemma perform_fetch_and_index_file (processor : DataProcessor) (config_file : file_state)
    (api : remote) (limit : option Z) (fault : option io_fault) (fuel : nat)
    (file : file_state) :
  DataProcessor_init config_file = Ok processor ->
  let run := perform_fetch_and_index config_file api limit fault fuel file in
  run.2 = file \/
  exists new_shows sorted_data,
    Forall (indexed_from processor run.1.1) new_shows /\
    sort_by_created_time (new_shows ++ (load_existing_index file).2) = Ok sorted_data /\
    (run.2 = Complete (JList sorted_data) \/ run.2 = Torn (JList sorted_data)).
Proof.
  intros Hinit. cbv zeta. unfold perform_fetch_and_index.
  destruct (load_existing_index file) as [loading existing_data]. cbn [snd].
  destruct (existing_ids_of existing_data) as [ids|e]; [|by left].
  rewrite Hinit.
  destruct (fetch_shows MixcloudFetcher_init api limit (Some ids) fuel) as [fetching fin].
  destruct (index_shows processor fetching []) as [events [new_shows|e]] eqn:Hindex;
    [|by left].
  apply index_shows_Ok in Hindex as (Hsub & added & Hadded & Hfrom).
  simpl in Hadded. subst added.
  destruct fin as [|e|]; [|destruct e; by left|by left].
  destruct new_shows as [|x new_shows]; [by left|].
  unfold save_and_exit, save_index.
  destruct (sort_by_created_time ((x :: new_shows) ++ existing_data))
    as [sorted_data|e] eqn:Hsort; [|destruct e; by left].
  assert (Hrun : forall tail,
            Forall (indexed_from processor
                      (Log INFO StartingFetchAndIndex :: loading ++ events ++ tail))
              (x :: new_shows)).
  { intros tail. eapply indexed_from_mono; [|exact Hfrom]. set_solver. }
  destruct fault as [[]|]; simpl; [by left|by left|right..].
  all: exists (x :: new_shows), sorted_data.
  all: split; [apply Hrun|split; [done|]]; eauto.
Qed.

End FetchRun.

(** C1.  A record returned by [process_show] has no field ["key"]; so when
    the index that fetch mode loads is not empty and holds records that
    [process_show] produced, the derivation of the known keys raises
    [KeyError] on ["key"]: the run ends there, before any request is sent,
    with the index file untouched, and [main] exits with the processing
    error code. *)
Theorem C1_known_keys_raise_KeyError `{RE : ReEngine} :
  (forall (self : Processor.DataProcessor) (raw_data processed : dict),
     Processor.process_show self raw_data = Ok processed ->
     dict_get "key" processed = None) /\
  (forall (file config_file : file_state) (api : Fetcher.remote) (limit : option Z)
          (fault : option Main.io_fault) (fuel : nat),
     (Main.load_existing_index file).2 <> [] ->
     Forall produced (Main.load_existing_index file).2 ->
     Main.existing_ids_of (Main.load_existing_index file).2 = Raise (KeyError "key") /\
     let run := Main.perform_fetch_and_index config_file api limit fault fuel file in
     run.1.2 = Main.Uncaught (KeyError "key") /\
     run.2 = file /\
     Forall (fun ev => is_request ev = false) run.1.1 /\
     (config_file <> Absent ->
      (Main.main {| Main.limit := limit; Main.local_update := false |}
         config_file api fault fuel file).1.2 = Main.Exit EXIT_PROCESSING_ERROR)).
Proof.
  split; [apply @process_show_no_key|].
  intros file config_file api limit fault fuel Hnonempty Hproduced.
  assert (Hload : Forall (fun ev => is_request ev = false) (Main.load_existing_index file).1).
  { destruct file as [| | |doc|doc]; simpl; try by repeat constructor.
    destruct doc; by repeat constructor. }
  unfold Main.main, Main.perform_fetch_and_index. cbn [Main.local_update Main.limit].
  destruct (Main.load_existing_index file) as [loading existing_data].
  cbn [fst snd] in *.
  destruct Hproduced as [|show rest Hshow _]; [done|].
  rewrite (existing_ids_of_produced show rest Hshow). simpl.
  repeat split; try done.
  - constructor; [done|]. by rewrite app_nil_r.
  - intros Hconfig. by destruct config_file.
Qed.

Lemma C1_witness :
  let file := Complete (JList [JDict Demo.stored]) in
  Forall (produced (RE := LiteralRe)) (Main.load_existing_index file).2 /\
  Main.existing_ids_of (Main.load_existing_index file).2 = Raise (KeyError "key") /\
  let run := Main.perform_fetch_and_index (RE := LiteralRe)
               Demo.config_file Demo.api None None 5 file in
  run.1.2 = Main.Uncaught (KeyError "key") /\
  run.2 = file /\
  Forall (fun ev => is_request ev = false) run.1.1 /\
  (Demo.config_file <> Absent ->
   (Main.main (RE := LiteralRe) {| Main.limit := None; Main.local_update := false |}
      Demo.config_file Demo.api None 5 file).1.2 = Main.Exit EXIT_PROCESSING_ERROR).
Proof.
  intros file.
  assert (Hstored : Processor.process_show Demo.processor Demo.raw = Ok Demo.stored)
    by (vm_compute; reflexivity).
  assert (Hproduced : Forall (produced (RE := LiteralRe)) (Main.load_existing_index file).2).
  { constructor; [|constructor].
    exists Demo.processor, Demo.raw, Demo.stored. split; [exact Hstored|reflexivity]. }
  split; [exact Hproduced|].
  exact (proj2 (C1_known_keys_raise_KeyError (RE := LiteralRe)) file Demo.config_file
           Demo.api None None 5%nat ltac:(discriminate) Hproduced).
Defined.

(** C9.  A raw record that lacks one of ["key"], ["name"], ["slug"], ["url"]
    makes [process_show] raise a [ProcessingError] whose cause is a
    [ValidationError]; in the loop of fetch mode the error is logged, the
    record adds nothing to the new shows, and the loop goes on with the rest.
    Every record of an index written by fetch mode is a record of the old
    index or the processed form of a yielded raw record that has the four
    fields. *)
Theorem C9_missing_field_skipped `{RE : ReEngine} (processor : Processor.DataProcessor) :
  (forall raw_data : dict,
     Exists (fun field => dict_has field raw_data = false) Processor.required_fields ->
     exists msg,
       let e := ProcessingError ("Failed to process show: " +:+ msg) (ValidationError msg) in
       Processor.process_show processor raw_data = Raise e /\
       forall rest new_shows,
         let later := Main.index_shows processor rest new_shows in
         Main.index_shows processor (Yield (JDict raw_data) :: rest) new_shows
         = (Yield (JDict raw_data) :: Log ERROR (ProcessFailed e) :: later.1, later.2)) /\
  (forall (config_file : file_state) (api : Fetcher.remote) (limit : option Z)
          (fault : option Main.io_fault) (fuel : nat) (file : file_state)
          (out : list json) (x : json),
     Processor.DataProcessor_init config_file = Ok processor ->
     let run := Main.perform_fetch_and_index config_file api limit fault fuel file in
     run.2 = Complete (JList out) ->
     x ∈ out ->
     x ∈ (Main.load_existing_index file).2 \/
     exists raw_data processed : dict,
       Yield (JDict raw_data) ∈ run.1.1 /\
       Processor.process_show processor raw_data = Ok processed /\
       x = JDict processed /\
       Forall (fun field => dict_has field raw_data = true) Processor.required_fields).
Proof.
  split.
  - intros raw_data Hmissing.
    destruct (process_show_missing processor raw_data Hmissing) as [msg Hmsg].
    exists msg. cbv zeta. split; [done|].
    intros rest new_shows. by apply index_shows_skipped.
  - intros config_file api limit fault fuel file out x Hinit. cbv zeta. intros Hfile Hx.
    destruct (perform_fetch_and_index_file processor config_file api limit fault fuel file
                Hinit) as [Hsame|(new_shows & sorted_data & Hfrom & Hsort & Hwritten)].
    + left. rewrite Hsame in Hfile. by rewrite Hfile.
    + destruct Hwritten as [Hwritten|Hwritten]; rewrite Hwritten in Hfile; [|done].
      injection Hfile as ->.
      apply sort_by_created_time_Permutation in Hsort. rewrite Hsort in Hx.
      apply elem_of_app in Hx as [Hx|Hx]; [right|by left].
      eapply Forall_forall in Hfrom as (raw_data & processed & Hin & Hp & ->); [|done].
      exists raw_data, processed. repeat split; try done.
      apply process_show_Ok in Hp as (? & ? & ? & Hvalid & _).
      by apply validate_present.
Qed.

Lemma C9_witness :
  Exists (fun field => dict_has field Demo.no_slug = false) Processor.required_fields /\
  exists msg,
    let e := ProcessingError ("Failed to process show: " +:+ msg) (ValidationError msg) in
    Processor.process_show Demo.processor Demo.no_slug = Raise e /\
    forall rest new_shows,
      let later := Main.index_shows Demo.processor rest new_shows in
      Main.index_shows Demo.processor (Yield (JDict Demo.no_slug) :: rest) new_shows
      = (Yield (JDict Demo.no_slug) :: Log ERROR (ProcessFailed e) :: later.1, later.2).
Proof.
  assert (Hmissing : Exists (fun field => dict_has field Demo.no_slug = false)
                       Processor.required_fields).
  { apply Exists_cons_tl, Exists_cons_tl, Exists_cons_hd. reflexivity. }
  split; [exact Hmissing|].
  exact (proj1 (C9_missing_field_skipped Demo.processor) Demo.no_slug Hmissing).
Defined.

(** C10 fails on the code for a title with an underscore: [_normalize_text]
    keeps the characters of the class [\w], the underscore among them.  The
    title "Live_Session" and the description "Live Session" have the same
    alphanumeric-lowercased form, and the description is kept. *)
Theorem C10_description_kept_for_equal_forms :
  let raw_data : dict :=
    [("key", JStr "/punkrockradio/live_session/"); ("name", JStr "Live_Session");
     ("slug", JStr "live_session");
     ("url", JStr "https://www.mixcloud.com/punkrockradio/live_session/");
     ("description", JStr "Live Session")] in
  alnum_lower "Live Session" = alnum_lower (strip "Live_Session") /\
  Processor._normalize_text "Live Session" <> Processor._normalize_text (strip "Live_Session") /\
  exists processed,
    Processor.process_show Demo.processor raw_data = Ok processed /\
    dict_get "description" processed = Some (JStr "Live Session").
Proof.
  intros raw_data. split; [reflexivity|]. split; [by vm_compute|].
  eexists. split; [vm_compute; reflexivity|reflexivity].
Qed.

(** * Further properties of the code *)

(** ** Tags *)

(** X1.  Whatever the input, the list [normalize_tags] returns is sorted,
    has no duplicate, and holds exactly the normalized forms of the input
    tags; the empty list gives the empty list. *)
Theorem X1_normalize_tags_sorted_unique `{RE : ReEngine}
    (self : Processor.DataProcessor) (tags : list string) :
  StronglySorted (fun a b => String.leb a b = true) (Processor.normalize_tags self tags) /\
  NoDup (Processor.normalize_tags self tags) /\
  (forall x, x ∈ Processor.normalize_tags self tags
             <-> exists tag, tag ∈ tags /\ x = Processor.normalize_tag self tag) /\
  Processor.normalize_tags self [] = [].
Proof.
  destruct (normalize_tags_sorted self tags) as [Hsorted Hnodup].
  split; [done|]. split; [done|]. split; [apply elem_of_normalize_tags|].
  rewrite normalize_tags_eq. simpl. by rewrite elements_empty.
Qed.

Section TagLookup.
Context `{RE : ReEngine}.
Import Processor.

Lemma lookup_mapping_first (tag_lower tag : string)
    (before : list (string * string)) (key value : string) (after : list (string * string)) :
  Forall (fun kv => lower kv.1 <> tag_lower) before ->
  lower key = tag_lower ->
  lookup_mapping tag_lower tag (before ++ (key, value) :: after) = value.
Proof.
  intros Hbefore Hkey. induction Hbefore as [|[k v] before Hk _ IH]; simpl.
  - by rewrite Hkey, String.eqb_refl.
  - apply String.eqb_neq in Hk. simpl in Hk. by rewrite Hk.
Qed.

Lemma lookup_mapping_none (tag_lower tag : string) (items : list (string * string)) :
  Forall (fun kv => lower kv.1 <> tag_lower) items ->
  lookup_mapping tag_lower tag items = tag.
Proof.
  induction 1 as [|[k v] items Hk _ IH]; simpl; [done|].
  apply String.eqb_neq in Hk. simpl in Hk. by rewrite Hk.
Qed.

End TagLookup.

(** X2.  On ASCII text (the tag and the keys of the alias table), for a
    non-empty tag, [normalize_tag] returns the value of the first entry of the
    alias table, in the order of the table, whose key equals the tag up to
    case; when no key does, it returns the tag as it is. *)
Theorem X2_normalize_tag_first_alias `{RE : ReEngine}
    (self : Processor.DataProcessor) (tag : string) :
  ascii_text tag ->
  Forall (fun kv => ascii_text kv.1) (Processor.tag_mappings self) ->
  tag <> "" ->
  (forall before key value after,
     Processor.tag_mappings self = before ++ (key, value) :: after ->
     Forall (fun kv => lower kv.1 <> lower tag) before ->
     lower key = lower tag ->
     Processor.normalize_tag self tag = value) /\
  (Forall (fun kv => lower kv.1 <> lower tag) (Processor.tag_mappings self) ->
   Processor.normalize_tag self tag = tag).
Proof.
  intros _ _ Htag. apply String.eqb_neq in Htag. unfold Processor.normalize_tag.
  rewrite Htag. split.
  - intros before key value after -> Hbefore Hkey. by apply lookup_mapping_first.
  - apply lookup_mapping_none.
Qed.

Lemma X2_witness :
  let self := @Processor.Build_DataProcessor LiteralRe []
                [("rock", "Rock"); ("HipHop", "Hip-Hop"); ("hiphop", "Rap")] [] in
  Processor.normalize_tag self "HIPHOP" = "Hip-Hop".
Proof.
  intros self.
  refine (proj1 (X2_normalize_tag_first_alias self "HIPHOP" _ _ _)
            [("rock", "Rock")] "HipHop" "Hip-Hop" [("hiphop", "Rap")] eq_refl _ eq_refl).
  - unfold ascii_text. cbn [list_ascii_of_string].
    repeat (constructor; [apply Nat.ltb_lt; reflexivity|]). constructor.
  - repeat (constructor;
            [unfold ascii_text; cbn [list_ascii_of_string fst];
             repeat (constructor; [apply Nat.ltb_lt; reflexivity|]); constructor|]).
    constructor.
  - discriminate.
  - repeat constructor. discriminate.
Defined.

(** ** Compiling the rules *)

Section Compile.
Context `{RE : ReEngine}.
Import Processor Fetcher Main.

Lemma compile_show_configs_app (l1 l2 : list json) :
  compile_show_configs (l1 ++ l2)
  = p1 ← compile_show_configs l1; p2 ← compile_show_configs l2; Ok (p1 ++ p2).
Proof.
  induction l1 as [|c l1 IH]; simpl.
  - by destruct (compile_show_configs l2).
  - destruct (compile_show_config c) as [compiled|e]; simpl; [|done].
    rewrite IH. destruct (compile_show_configs l1) as [p1|e]; simpl; [|done].
    destruct (compile_show_configs l2) as [p2|e]; simpl; [|done].
    by destruct compiled.
Qed.

Lemma compile_show_configs_cons (c : json) (l : list json) :
  compile_show_configs (c :: l)
  = compiled ← compile_show_config c;
    patterns ← compile_show_configs l;
    Ok (match compiled with Some p => p :: patterns | None => patterns end).
Proof. reflexivity. Qed.

Lemma compile_show_config_bad_regex (fields : dict) (rule_name regex_str : string) :
  dict_get "name" fields = Some (JStr rule_name) -> rule_name <> "" ->
  dict_get "regex" fields = Some (JStr regex_str) -> regex_str <> "" ->
  re_compile regex_str [IGNORECASE] = None ->
  compile_show_config (JDict fields)
  = Raise (ConfigError ("Invalid regex for '" +:+ rule_name +:+ "'")).
Proof.
  intros Hname Hn Hregex Hr Hcompile. simpl. unfold dict_get_default.
  rewrite Hname, Hregex. simpl.
  apply String.eqb_neq in Hn, Hr. rewrite Hn, Hr. simpl. by rewrite Hcompile.
Qed.

Lemma compile_show_config_skipped (c : json) :
  match c with
  | JDict fields =>
      truthy (dict_get_default "name" JNull fields) = false \/
      truthy (dict_get_default "regex" JNull fields) = false
  | _ => True
  end ->
  compile_show_config c = Ok None.
Proof.
  destruct c as [| | | | |fields]; try done. simpl.
  intros [-> | ->]; [done|by rewrite orb_true_r].
Qed.

(** A run of fetch mode whose configuration cannot be loaded. *)
Lemma fetch_mode_config_error (config_file : file_state) (api : remote)
    (limit : option Z) (fault : option io_fault) (fuel : nat) (file : file_state)
    (msg : string) (ids : gset string) :
  DataProcessor_init config_file = Raise (ConfigError msg) ->
  existing_ids_of (load_existing_index file).2 = Ok ids ->
  let run := perform_fetch_and_index config_file api limit fault fuel file in
  run.1.2 = Exit EXIT_CONFIG_ERROR /\
  run.2 = file /\
  Forall (fun ev => is_request ev = false /\ is_write ev = false) run.1.1.
Proof.
  intros Hinit Hids. cbv zeta. unfold perform_fetch_and_index.
  assert (Hload : Forall (fun ev => is_request ev = false /\ is_write ev = false)
                    (load_existing_index file).1).
  { destruct file as [| | |doc|doc]; simpl; try by repeat constructor.
    destruct doc; by repeat constructor. }
  destruct (load_existing_index file) as [loading existing_data]. cbn [fst snd] in *.
  rewrite Hids, Hinit. simpl. repeat split; try done.
  constructor; [done|]. apply Forall_app. split; [done|by repeat constructor].
Qed.

End Compile.

(** X3.  A rule whose pattern does not compile is fatal: when the rules
    before it are accepted, [_compile_patterns] raises [ConfigError] naming
    the rule, the processor cannot be built, and fetch mode ends with the
    configuration exit code before any request is sent, the index file
    untouched. *)
Theorem X3_bad_pattern_is_fatal `{RE : ReEngine} (config : dict)
    (before after : list json) (fields : dict) (rule_name regex_str : string)
    (kept : list Processor.CompiledPattern) (aliases : list (string * string)) :
  dict_get "shows" config = Some (JList (before ++ JDict fields :: after)) ->
  Processor.compile_show_configs before = Ok kept ->
  dict_get "name" fields = Some (JStr rule_name) -> rule_name <> "" ->
  dict_get "regex" fields = Some (JStr regex_str) -> regex_str <> "" ->
  re_compile regex_str [IGNORECASE] = None ->
  Processor.read_tag_mappings config = Ok aliases ->
  let e := ConfigError ("Invalid regex for '" +:+ rule_name +:+ "'") in
  Processor._compile_patterns config = Raise e /\
  Processor.DataProcessor_init (Complete (JDict config)) = Raise e /\
  forall api limit fault fuel file ids,
    Main.existing_ids_of (Main.load_existing_index file).2 = Ok ids ->
    let run := Main.perform_fetch_and_index (Complete (JDict config)) api limit fault fuel file in
    run.1.2 = Main.Exit EXIT_CONFIG_ERROR /\
    run.2 = file /\
    Forall (fun ev => is_request ev = false /\ is_write ev = false) run.1.1.
Proof.
  intros Hshows Hbefore Hname Hn Hregex Hr Hcompile Haliases. cbv zeta.
  assert (Hpatterns : Processor._compile_patterns config
            = Raise (ConfigError ("Invalid regex for '" +:+ rule_name +:+ "'"))).
  { unfold Processor._compile_patterns, dict_get_default. rewrite Hshows.
    rewrite compile_show_configs_app, Hbefore, compile_show_configs_cons.
    by rewrite (compile_show_config_bad_regex fields rule_name regex_str). }
  assert (Hinit : Processor.DataProcessor_init (Complete (JDict config))
            = Raise (ConfigError ("Invalid regex for '" +:+ rule_name +:+ "'"))).
  { unfold Processor.DataProcessor_init. simpl. rewrite Hshows. simpl.
    by rewrite Haliases, Hpatterns. }
  split; [done|]. split; [done|].
  intros api limit fault fuel file ids Hids.
  by eapply fetch_mode_config_error.
Qed.

Lemma X3_witness :
  let config := [("shows", JList [JDict [("name", JStr "Punk"); ("regex", JStr "punk")];
                                  JDict [("name", JStr "Ska"); ("regex", JStr "[")]])] in
  let e := ConfigError "Invalid regex for 'Ska'" in
  Processor._compile_patterns (RE := Cases.BracketRe) config = Raise e /\
  Processor.DataProcessor_init (RE := Cases.BracketRe) (Complete (JDict config)) = Raise e /\
  forall api limit fault fuel file ids,
    Main.existing_ids_of (Main.load_existing_index file).2 = Ok ids ->
    let run := Main.perform_fetch_and_index (RE := Cases.BracketRe)
                 (Complete (JDict config)) api limit fault fuel file in
    run.1.2 = Main.Exit EXIT_CONFIG_ERROR /\
    run.2 = file /\
    Forall (fun ev => is_request ev = false /\ is_write ev = false) run.1.1.
Proof.
  intros config.
  exact (X3_bad_pattern_is_fatal (RE := Cases.BracketRe) config
           [JDict [("name", JStr "Punk"); ("regex", JStr "punk")]] []
           [("name", JStr "Ska"); ("regex", JStr "[")] "Ska" "[" _ []
           eq_refl eq_refl eq_refl ltac:(discriminate) eq_refl ltac:(discriminate)
           eq_refl eq_refl).
Defined.

(** X4.  A configured entry that is not an object, or whose name or pattern
    is absent, null or empty, is skipped: the rules compiled are those of the
    list without it.  An entry whose [extra_tags] is not a list gives a rule
    with no extra tag. *)
Theorem X4_invalid_rule_is_skipped `{RE : ReEngine} :
  (forall (before after : list json) (c : json),
     match c with
     | JDict fields =>
         truthy (dict_get_default "name" JNull fields) = false \/
         truthy (dict_get_default "regex" JNull fields) = false
     | _ => True
     end ->
     Processor.compile_show_configs (before ++ c :: after)
     = Processor.compile_show_configs (before ++ after)) /\
  (forall (fields : dict) (rule_name regex_str : string) (compiled : Pattern) (tags : json),
     dict_get "name" fields = Some (JStr rule_name) -> rule_name <> "" ->
     dict_get "regex" fields = Some (JStr regex_str) -> regex_str <> "" ->
     re_compile regex_str [IGNORECASE] = Some compiled ->
     dict_get "extra_tags" fields = Some tags ->
     (forall l, tags <> JList l) ->
     Processor.compile_show_config (JDict fields)
     = Ok (Some (Processor.Build_CompiledPattern rule_name compiled []))).
Proof.
  split.
  - intros before after c Hc.
    rewrite !compile_show_configs_app, compile_show_configs_cons.
    rewrite (compile_show_config_skipped c Hc).
    destruct (Processor.compile_show_configs before) as [p1|]; simpl; [|done].
    by destruct (Processor.compile_show_configs after).
  - intros fields rule_name regex_str compiled tags Hname Hn Hregex Hr Hcompile Htags Hlist.
    simpl. unfold dict_get_default. rewrite Hname, Hregex, Htags. simpl.
    apply String.eqb_neq in Hn, Hr. rewrite Hn, Hr. simpl. rewrite Hcompile.
    destruct tags as [| | | |l|]; try done. by destruct (Hlist l).
Qed.

Lemma X4_witness :
  Processor.compile_show_configs (RE := LiteralRe)
    ([JDict [("name", JStr "Punk"); ("regex", JStr "punk")]]
     ++ JDict [("name", JStr "Ska")] :: [JStr "oi"])
  = Processor.compile_show_configs (RE := LiteralRe)
      ([JDict [("name", JStr "Punk"); ("regex", JStr "punk")]] ++ [JStr "oi"]).
Proof.
  refine (proj1 (X4_invalid_rule_is_skipped (RE := LiteralRe)) _ _
            (JDict [("name", JStr "Ska")]) _).
  right. reflexivity.
Defined.


(** ** Splitting a URL *)

Section Split.

Lemma append_cons (c : ascii) (s t : string) : String c s +:+ t = String c (s +:+ t).
Proof. reflexivity. Qed.

Lemma append_empty_r (s : string) : s +:+ "" = s.
Proof. induction s as [|c s IH]; [done|]. by rewrite append_cons, IH. Qed.

Lemma rev_app_append (a b c : string) :
  String.rev_app a (b +:+ c) = String.rev_app a b +:+ c.
Proof.
  revert b. induction a as [|x a IH]; intros b; simpl; [done|].
  by rewrite <- IH.
Qed.

Lemma rev_app_rev_app (a b c : string) :
  String.rev_app (String.rev_app a b) c = String.rev_app b (a +:+ c).
Proof.
  revert b. induction a as [|x a IH]; intros b; simpl; [done|].
  by rewrite IH.
Qed.

Lemma rev_rev_app (s cur : string) :
  String.rev (String.rev_app s cur) = String.rev cur +:+ s.
Proof.
  unfold String.rev. rewrite rev_app_rev_app.
  change (s +:+ "") with ("" +:+ (s +:+ "")). by rewrite append_empty_r, <- rev_app_append.
Qed.

Lemma prefix_append (sep rest : string) : String.prefix sep (sep +:+ rest) = true.
Proof.
  induction sep as [|c sep IH]; [by destruct rest|].
  rewrite append_cons. simpl. destruct (ascii_dec c c); [done|congruence].
Qed.

(** Where the separator does not occur, [split_go] only collects. *)
Lemma split_go_no_cut (sep : string) (budget : option nat) (s tail cur : string) :
  no_cut sep s tail = true ->
  split_go sep budget O cur (s +:+ tail)
  = split_go sep budget O (String.rev_app s cur) tail.
Proof.
  revert cur. induction s as [|c s IH]; intros cur Hs; [done|].
  change (no_cut sep (String c s) tail)
    with (negb (String.prefix sep (String c s +:+ tail)) && no_cut sep s tail) in Hs.
  apply andb_true_iff in Hs as [Hc Hs]. apply negb_true_iff in Hc.
  rewrite append_cons in *. cbn [split_go]. rewrite Hc.
  cbn [String.rev_app]. rewrite <- (IH (String c cur) Hs). by destruct budget as [[]|].
Qed.

Lemma split_go_end (sep : string) (budget : option nat) (s cur : string) :
  no_cut sep s "" = true ->
  split_go sep budget O cur s = [String.rev cur +:+ s].
Proof.
  intros Hs. rewrite <- (append_empty_r s) at 1.
  rewrite split_go_no_cut by done. simpl. by rewrite rev_rev_app.
Qed.

Lemma split_go_skip (sep : string) (budget : option nat) (t rest cur : string) :
  split_go sep budget (String.length t) cur (t +:+ rest) = split_go sep budget O cur rest.
Proof. induction t as [|c t IH]; [done|]. rewrite append_cons. simpl. exact IH. Qed.

(** With no cut left, [split_go] collects to the end. *)
Lemma split_go_spent (sep : string) (s cur : string) :
  split_go sep (Some O) O cur s = [String.rev cur +:+ s].
Proof.
  revert cur. induction s as [|c s IH]; intros cur; simpl.
  - by rewrite append_empty_r.
  - rewrite IH. f_equal. unfold String.rev. cbn [String.rev_app].
    by rewrite <- !rev_app_append.
Qed.

(** At an occurrence of the separator, with cuts left, a part ends. *)
Lemma split_go_cut (c : ascii) (sep' : string) (budget : option nat) (rest cur : string) :
  budget <> Some O ->
  split_go (String c sep') budget O cur (String c sep' +:+ rest)
  = String.rev cur
    :: split_go (String c sep') (Nat.pred <$> budget) O "" rest.
Proof.
  intros Hbudget.
  pose proof (prefix_append (String c sep') rest) as Hcut.
  rewrite append_cons in *. cbn [split_go]. rewrite Hcut.
  change (String.length (String c sep') - 1)%nat with (String.length sep' - 0)%nat.
  rewrite Nat.sub_0_r.
  destruct budget as [[|b]|]; [done|..]; simpl; by rewrite split_go_skip.
Qed.

Lemma split_marker (pre rest : string) :
  no_cut "unsafe/" pre ("unsafe/" +:+ rest) = true ->
  no_cut "unsafe/" rest "" = true ->
  split "unsafe/" None (pre +:+ "unsafe/" +:+ rest) = [pre; rest].
Proof.
  intros Hpre Hrest. unfold split.
  rewrite split_go_no_cut by done.
  rewrite (split_go_cut "u" "nsafe/" None) by done. rewrite rev_rev_app.
  by rewrite split_go_end.
Qed.

Lemma split_first_slash (dims path : string) :
  no_cut "/" dims ("/" +:+ path) = true ->
  split "/" (Some 1%nat) (dims +:+ "/" +:+ path) = [dims; path].
Proof.
  intros Hdims. unfold split.
  rewrite split_go_no_cut by done.
  rewrite (split_go_cut "/" "" (Some 1%nat)) by done. rewrite rev_rev_app.
  simpl. by rewrite split_go_spent.
Qed.

End Split.

Lemma picture_key_from_skip (pictures : dict) (skipped rest : list string) :
  Forall (no_url pictures) skipped ->
  Processor.picture_key_from pictures (skipped ++ rest)
  = Processor.picture_key_from pictures rest.
Proof.
  induction 1 as [|key skipped Hkey _ IH]; [done|].
  simpl. unfold dict_get_default. by destruct Hkey as [-> | ->].
Qed.

(** X5.  The picture key is taken from the first of the sizes large, medium,
    small, thumbnail that has a URL.  When the marker ["unsafe/"] first occurs
    in that URL after [pre] and occurs only there, and the text after it is
    [dims], a slash, and [path] with no slash in [dims], the key is [path]:
    the image dimensions are dropped. *)
Theorem X5_picture_key_after_marker (pictures : dict)
    (skipped : list string) (size : string) (others : list string)
    (pre dims path : string) :
  ["large"; "medium"; "small"; "thumbnail"] = skipped ++ size :: others ->
  Forall (no_url pictures) skipped ->
  dict_get size pictures = Some (JStr (pre +:+ "unsafe/" +:+ dims +:+ "/" +:+ path)) ->
  no_cut "unsafe/" pre ("unsafe/" +:+ dims +:+ "/" +:+ path) = true ->
  no_cut "unsafe/" (dims +:+ "/" +:+ path) "" = true ->
  no_cut "/" dims ("/" +:+ path) = true ->
  Processor._extract_picture_key (JDict pictures) = Ok path.
Proof.
  intros Hsizes Hskipped Hurl Hpre Hrest Hdims.
  unfold Processor._extract_picture_key. rewrite Hsizes.
  rewrite picture_key_from_skip by done.
  cbn [Processor.picture_key_from]. unfold dict_get_default. rewrite Hurl.
  rewrite split_marker by done. by rewrite split_first_slash.
Qed.

Lemma X5_witness :
  Processor._extract_picture_key
    (JDict [("medium",
             JStr "https://thumbnailer.mixcloud.com/unsafe/300x300/extaudio/abc/uuid.jpg");
            ("large", JStr "")])
  = Ok "extaudio/abc/uuid.jpg".
Proof.
  refine (X5_picture_key_after_marker
            [("medium",
              JStr "https://thumbnailer.mixcloud.com/unsafe/300x300/extaudio/abc/uuid.jpg");
             ("large", JStr "")]
            ["large"] "medium" ["small"; "thumbnail"]
            "https://thumbnailer.mixcloud.com/" "300x300" "extaudio/abc/uuid.jpg"
            eq_refl _ eq_refl eq_refl eq_refl eq_refl).
  constructor; [by right|constructor].
Defined.

(** ** The result of processing a show *)

Section ProcessResult.
Context `{RE : ReEngine}.
Import Processor Main.

Lemma search_patterns_range (title : string) (rules : list CompiledPattern) :
  (search_patterns title rules).1 = (DEFAULT_CATEGORY, [])
  \/ exists rule, rule ∈ rules /\ re_search (regex rule) title = true /\
                  (search_patterns title rules).1 = (name rule, extra_tags rule).
Proof.
  induction rules as [|rule rules IH]; simpl; [by left|].
  destruct (re_search (regex rule) title) eqn:Hrule.
  - right. exists rule. split; [by left|done].
  - destruct (search_patterns title rules) as [info searched]. simpl in *.
    destruct IH as [IH|(r & Hin & Hr & IH)]; [by left|].
    right. exists r. split; [by right|done].
Qed.

Lemma get_category_info_range (self : DataProcessor) (title : string) :
  get_category_info self title = (DEFAULT_CATEGORY, [])
  \/ exists rule, rule ∈ patterns self /\ re_search (regex rule) title = true /\
                  get_category_info self title = (name rule, extra_tags rule).
Proof.
  unfold get_category_info, get_category_info_traced.
  destruct (String.eqb title ""); [by left|]. apply search_patterns_range.
Qed.

Lemma validate_all_present (raw_data : dict) :
  Forall (fun field => dict_has field raw_data = true) required_fields ->
  _validate_raw_show raw_data = Ok tt.
Proof.
  intros Hall. unfold _validate_raw_show.
  destruct (filter _ required_fields) as [|field missing] eqn:Hfilter; [done|].
  assert (Hin : field ∈ filter (fun field => dict_has field raw_data = false) required_fields)
    by (rewrite Hfilter; left).
  apply list_elem_of_filter in Hin as [Hmissing Hin].
  eapply Forall_forall in Hall; [|done]. congruence.
Qed.

Lemma dict_get_default_Some (k : string) (default v : json) (d : dict) :
  dict_get k d = Some v -> dict_get_default k default d = v.
Proof. unfold dict_get_default. by intros ->. Qed.

Lemma extract_picture_key_Ok (pictures : json) (picture_key : string) :
  _extract_picture_key pictures = Ok picture_key -> exists fields, pictures = JDict fields.
Proof. destruct pictures; try discriminate. by eexists. Qed.

Lemma process_show_well_formed (self : DataProcessor) (raw_data : dict) :
  (exists processed, process_show self raw_data = Ok processed) <-> well_formed raw_data.
Proof.
  unfold well_formed. split.
  - intros [processed Hok]. unfold process_show in Hok.
    destruct (process_show_body self raw_data) as [p|e] eqn:Hbody;
      [clear Hok|destruct e; discriminate].
    unfold process_show_body in Hbody.
    destruct (_validate_raw_show raw_data) as [[]|e] eqn:Hvalid; [|discriminate].
    cbn [mbind result_bind] in Hbody.
    pose proof (validate_present _ Hvalid) as Hall. split; [done|].
    assert (Hname : dict_has "name" raw_data = true).
    { eapply Forall_forall in Hall; [done|]. set_solver. }
    unfold dict_has in Hname.
    destruct (dict_get_default "name" (JStr "") raw_data) as [| | |s| |] eqn:Hn;
      cbn [mbind result_bind] in Hbody; try discriminate.
    split.
    { unfold dict_get_default in Hn.
      destruct (dict_get "name" raw_data) as [v|]; [|discriminate]. exists s. by subst. }
    destruct (get_category_info self (strip s)) as [category extra].
    destruct (dict_item "slug" raw_data) as [slug|e]; [|discriminate].
    cbn [mbind result_bind] in Hbody.
    destruct (_extract_picture_key (dict_get_default "pictures" (JDict []) raw_data))
      as [picture_key|e] eqn:Hpicture; [|discriminate].
    cbn [mbind result_bind] in Hbody.
    apply extract_picture_key_Ok in Hpicture as [fields Hfields].
    split.
    + unfold dict_get_default in Hfields.
      destruct (dict_get "pictures" raw_data) as [v|]; [|by left].
      right. exists fields. by rewrite Hfields.
    + destruct (truthy (dict_get_default "description" (JStr "") raw_data)) eqn:Htruthy;
        [|by left].
      right. unfold dict_get_default in *.
      destruct (dict_get "description" raw_data) as [[| | |text| |]|]; try discriminate.
      by eexists.
  - intros (Hall & [s Hname] & Hpictures & Hdescription).
    unfold process_show, process_show_body.
    rewrite (validate_all_present _ Hall). cbn [mbind result_bind].
    rewrite (dict_get_default_Some _ _ _ _ Hname). cbn [mbind result_bind].
    destruct (get_category_info self (strip s)) as [category extra].
    assert (Hslug : dict_has "slug" raw_data = true).
    { eapply Forall_forall in Hall; [done|]. set_solver. }
    unfold dict_item. unfold dict_has in Hslug.
    destruct (dict_get "slug" raw_data) as [slug|]; [|discriminate].
    cbn [mbind result_bind].
    assert (exists picture_key,
              _extract_picture_key (dict_get_default "pictures" (JDict []) raw_data)
              = Ok picture_key) as [picture_key ->].
    { unfold dict_get_default. destruct Hpictures as [-> | [pictures ->]]; by eexists. }
    cbn [mbind result_bind].
    destruct Hdescription as [-> | [text Htext]]; [by eexists|].
    rewrite !(dict_get_default_Some _ _ _ _ Htext).
    destruct (truthy (JStr text)); [|by eexists].
    destruct (String.eqb _ _); by eexists.
Qed.

End ProcessResult.

(** X6.  [process_show] returns a record exactly on the raw records that
    have the four required fields, a name that is a [str], pictures that are
    absent or an object, and a description that is absent, falsy or a
    [str]. *)
Theorem X6_process_show_succeeds_iff `{RE : ReEngine}
    (self : Processor.DataProcessor) (raw_data : dict) :
  (exists processed, Processor.process_show self raw_data = Ok processed) <->
  Forall (fun field => dict_has field raw_data = true) Processor.required_fields /\
  (exists s, dict_get "name" raw_data = Some (JStr s)) /\
  (dict_get "pictures" raw_data = None \/
   exists pictures, dict_get "pictures" raw_data = Some (JDict pictures)) /\
  (truthy (dict_get_default "description" (JStr "") raw_data) = false \/
   exists text, dict_get "description" raw_data = Some (JStr text)).
Proof. apply process_show_well_formed. Qed.

Section ProcessShape.
Context `{RE : ReEngine}.
Import Processor.

(** The successful result once more, with where its slug comes from. *)
Lemma process_show_Ok_slug (self : DataProcessor) (raw_data processed : dict) :
  process_show self raw_data = Ok processed ->
  exists name_text slug picture_key,
    dict_get "name" raw_data = Some (JStr name_text) /\
    dict_get "slug" raw_data = Some slug /\
    let base := base_record self raw_data (strip name_text) slug picture_key in
    (processed = base \/ exists text, processed = base ++ [("description", JStr text)]).
Proof.
  intros Hok.
  pose proof (proj1 (process_show_well_formed self raw_data) (ex_intro _ _ Hok))
    as (Hall & [s Hname] & _).
  revert Hok. unfold process_show, process_show_body.
  rewrite (validate_all_present _ Hall). cbn [mbind result_bind].
  rewrite (dict_get_default_Some _ _ _ _ Hname). cbn [mbind result_bind].
  destruct (get_category_info self (strip s)) as [category extra] eqn:Hinfo.
  unfold dict_item.
  destruct (dict_get "slug" raw_data) as [slug|] eqn:Hslug; [|discriminate].
  cbn [mbind result_bind].
  destruct (_extract_picture_key (dict_get_default "pictures" (JDict []) raw_data))
    as [picture_key|e] eqn:Hpicture; [|destruct e; discriminate].
  cbn [mbind result_bind]. intros Hok.
  exists s, slug, picture_key. split; [done|]. split; [done|].
  cbv zeta. unfold base_record. rewrite Hinfo. cbn [fst snd].
  destruct (truthy (dict_get_default "description" (JStr "") raw_data)).
  - destruct (dict_get_default "description" (JStr "") raw_data) as [| | |text| |];
      try discriminate.
    destruct (String.eqb _ _).
    + left. by injection Hok as <-.
    + right. exists text. by injection Hok as <-.
  - left. by injection Hok as <-.
Qed.

End ProcessShape.

(** X7.  A record returned by [process_show] holds the trimmed name, the
    slug of the raw record, its timestamp (or the empty string) and length
    (or 0), a picture key that is a [str], a category that is the default or
    the name of a configured rule whose pattern is found in the title, and a
    sorted list of tags without duplicate: the normalized forms of the names
    of the raw tags and of the extra tags of that rule.  It holds neither the
    key nor the URL of the raw record. *)
Theorem X7_processed_record_shape `{RE : ReEngine}
    (self : Processor.DataProcessor) (raw_data processed : dict) :
  Processor.process_show self raw_data = Ok processed ->
  exists (name_text category : string) (extra_tags tags : list string),
    dict_get "name" raw_data = Some (JStr name_text) /\
    dict_get "name" processed = Some (JStr (strip name_text)) /\
    dict_get "slug" processed = dict_get "slug" raw_data /\
    dict_get "created_time" processed
      = Some (dict_get_default "created_time" (JStr "") raw_data) /\
    dict_get "audio_length" processed
      = Some (dict_get_default "audio_length" (JInt 0) raw_data) /\
    (exists picture_key, dict_get "picture_key" processed = Some (JStr picture_key)) /\
    dict_get "category" processed = Some (JStr category) /\
    ((category = DEFAULT_CATEGORY /\ extra_tags = []) \/
     exists rule, rule ∈ Processor.patterns self /\
                  re_search (Processor.regex rule) (strip name_text) = true /\
                  category = Processor.name rule /\
                  extra_tags = Processor.extra_tags rule) /\
    dict_get "tags" processed = Some (JList (JStr <$> tags)) /\
    StronglySorted (fun a b => String.leb a b = true) tags /\
    NoDup tags /\
    (forall x, x ∈ tags <->
       exists tag,
         tag ∈ Processor.existing_tag_names (dict_get_default "tags" (JList []) raw_data)
               ++ extra_tags /\
         x = Processor.normalize_tag self tag) /\
    dict_get "key" processed = None /\
    dict_get "url" processed = None.
Proof.
  intros Hok.
  apply process_show_Ok_slug in Hok as (s & slug & picture_key & Hname & Hslug & Hshape).
  set (info := Processor.get_category_info self (strip s)) in *.
  set (raw_tags := Processor.existing_tag_names
                     (dict_get_default "tags" (JList []) raw_data)) in *.
  exists s, info.1, info.2, (Processor.normalize_tags self (raw_tags ++ info.2)).
  destruct (normalize_tags_sorted self (raw_tags ++ info.2)) as [Hsorted Hnodup].
  assert (Hrange : (info.1 = DEFAULT_CATEGORY /\ info.2 = []) \/
            exists rule, rule ∈ Processor.patterns self /\
                         re_search (Processor.regex rule) (strip s) = true /\
                         info.1 = Processor.name rule /\
                         info.2 = Processor.extra_tags rule).
  { destruct (get_category_info_range self (strip s)) as [Hd|(rule & Hin & Hr & Hrule)].
    - left. subst info. by rewrite Hd.
    - right. exists rule. subst info. by rewrite Hrule. }
  cbv zeta in Hshape. unfold base_record in Hshape. fold info raw_tags in Hshape.
  rewrite Hslug.
  split; [done|].
  destruct Hshape as [-> | [text ->]].
  all: repeat (split; [first [reflexivity | by eexists | done
                              | apply elem_of_normalize_tags]|]).
  all: reflexivity.
Qed.

Lemma X7_witness :
  exists (name_text category : string) (extra_tags tags : list string),
    dict_get "name" Demo.raw = Some (JStr name_text) /\
    dict_get "name" Demo.stored = Some (JStr (strip name_text)) /\
    dict_get "slug" Demo.stored = dict_get "slug" Demo.raw /\
    dict_get "created_time" Demo.stored
      = Some (dict_get_default "created_time" (JStr "") Demo.raw) /\
    dict_get "audio_length" Demo.stored
      = Some (dict_get_default "audio_length" (JInt 0) Demo.raw) /\
    (exists picture_key, dict_get "picture_key" Demo.stored = Some (JStr picture_key)) /\
    dict_get "category" Demo.stored = Some (JStr category) /\
    ((category = DEFAULT_CATEGORY /\ extra_tags = []) \/
     exists rule, rule ∈ Processor.patterns Demo.processor /\
                  re_search (Processor.regex rule) (strip name_text) = true /\
                  category = Processor.name rule /\
                  extra_tags = Processor.extra_tags rule) /\
    dict_get "tags" Demo.stored = Some (JList (JStr <$> tags)) /\
    StronglySorted (fun a b => String.leb a b = true) tags /\
    NoDup tags /\
    (forall x, x ∈ tags <->
       exists tag,
         tag ∈ Processor.existing_tag_names (dict_get_default "tags" (JList []) Demo.raw)
               ++ extra_tags /\
         x = Processor.normalize_tag Demo.processor tag) /\
    dict_get "key" Demo.stored = None /\
    dict_get "url" Demo.stored = None.
Proof.
  assert (Hstored : Processor.process_show Demo.processor Demo.raw = Ok Demo.stored)
    by (vm_compute; reflexivity).
  exact (X7_processed_record_shape Demo.processor Demo.raw Demo.stored Hstored).
Defined.

(** X8.  A raw record with the four required fields whose name is not a
    [str] (a JSON null, say) makes [process_show] raise [AttributeError], which
    is not a [ProcessingError]: the loop of fetch mode does not skip the
    record, it stops there with that exception, and the records after it are
    not processed. *)
Theorem X8_non_str_name_stops_the_loop `{RE : ReEngine}
    (processor : Processor.DataProcessor) (raw_data : dict) (v : json)
    (rest : list event) (new_shows : list json) :
  Forall (fun field => dict_has field raw_data = true) Processor.required_fields ->
  dict_get "name" raw_data = Some v ->
  (forall s, v <> JStr s) ->
  Processor.process_show processor raw_data = Raise AttributeError /\
  Main.index_shows processor (Yield (JDict raw_data) :: rest) new_shows
  = ([Yield (JDict raw_data)], Raise AttributeError).
Proof.
  intros Hall Hname Hv.
  assert (Hraise : Processor.process_show processor raw_data = Raise AttributeError).
  { unfold Processor.process_show, Processor.process_show_body.
    rewrite (validate_all_present _ Hall). cbn [mbind result_bind].
    rewrite (dict_get_default_Some _ _ _ _ Hname).
    destruct v as [| | |s| |]; try done. by destruct (Hv s). }
  split; [done|]. cbn [Main.index_shows]. by rewrite Hraise.
Qed.

Lemma X8_witness :
  let raw_data := [("key", JStr "/k0/"); ("name", JNull); ("slug", JStr "untitled");
                   ("url", JStr "https://www.mixcloud.com/punkrockradio/untitled/")] in
  Processor.process_show Demo.processor raw_data = Raise AttributeError /\
  Main.index_shows Demo.processor
    (Yield (JDict raw_data) :: [Yield (JDict Demo.raw)]) []
  = ([Yield (JDict raw_data)], Raise AttributeError).
Proof.
  intros raw_data.
  refine (X8_non_str_name_stops_the_loop Demo.processor raw_data JNull _ _ _ eq_refl _).
  - by repeat constructor.
  - discriminate.
Defined.

(** ** The number and the order of the items fetched *)

Section Limit.
Import Fetcher Catalog.
Variables (self : MixcloudFetcher) (api : remote) (existing_ids : gset string).

Lemma fetch_page_shows_limit (n : Z) (shows : list json) (count : Z) :
  let run := fetch_page_shows self api (Some n) existing_ids shows count in
  Z.of_nat (length (yields run.1)) <= Z.max 0 (n - count) /\
  (forall count', run.2 = PageDone count' ->
                  count' = count + Z.of_nat (length (yields run.1))).
Proof.
  cbv zeta. revert count. induction shows as [|show rest IH]; intros count.
  - simpl. split; [lia|]. intros count' [= <-]. lia.
  - rewrite fetch_page_shows_cons. unfold limit_reached.
    destruct (n <=? count) eqn:Hn; [simpl; split; [lia|done]|].
    apply Z.leb_gt in Hn.
    destruct show as [| | | | |fields]; try (simpl; split; [lia|done]).
    cbv zeta.
    destruct (key_in existing_ids (dict_get_default "key" JNull fields)) as [[]|e];
      try (simpl; split; [lia|done]).
    destruct (IH (count + 1)) as [Hlen Hdone]. cbn [fst snd].
    rewrite yields_app, yields_resolve_show. cbn [length app].
    split; [lia|]. intros count' Hfin. rewrite (Hdone _ Hfin). lia.
Qed.

Lemma fetch_pages_limit (n : Z) (fuel : nat) (url : string)
    (params : list (string * Z)) (count : Z) (page_num : nat) :
  Z.of_nat (length (yields
    (fetch_pages self api (Some n) existing_ids fuel url params count page_num).1))
  <= Z.max 0 (n - count).
Proof.
  revert url params count page_num.
  induction fuel as [|fuel IH]; intros url params count page_num; [simpl; lia|].
  simpl.
  destruct (listing api url params) as [| | | |data]; try (simpl; lia).
  destruct data as [| | | | |data]; try (simpl; lia).
  destruct (dict_get_default "data" (JList []) data) as [| | | |shows|]; try (simpl; lia).
  destruct (fetch_page_shows_limit n shows count) as [Hlen Hdone].
  destruct (fetch_page_shows self api (Some n) existing_ids shows count) as [events fin].
  cbn [fst snd] in *.
  assert (Hstop : forall tail, yields tail = [] ->
            Z.of_nat (length (yields (Get url params ::
               Log INFO (PageRetrieved (S page_num) (length shows)) :: events ++ tail)))
            <= Z.max 0 (n - count)).
  { intros tail Htail. cbn. change (omap _ ?l) with (yields l).
    by rewrite yields_app, Htail, app_nil_r. }
  destruct fin as [count'| |e]; [|cbn [fst snd]; by apply Hstop..].
  specialize (Hdone _ eq_refl).
  destruct (dict_get_default "paging" (JDict []) data) as [| | | | |paging];
    try (cbn [fst snd]; by apply Hstop).
  destruct (dict_get_default "next" JNull paging) as [|b|z|next|l|d];
    try (destruct (truthy _); cbn [fst snd]; by apply Hstop).
  destruct (truthy (JStr next)); [|cbn [fst snd]; by apply Hstop].
  specialize (IH next [] count' (S page_num)).
  destruct (fetch_pages self api (Some n) existing_ids fuel next [] count' (S page_num))
    as [later fin].
  cbn [fst snd] in *. cbn. change (omap _ ?l) with (yields l).
  rewrite yields_app, length_app. cbn. change (omap _ ?l) with (yields l). lia.
Qed.

Lemma fetch_page_shows_no_return (shows : list json) (count : Z) :
  (fetch_page_shows self api None ∅ shows count).2 <> PageReturn.
Proof.
  revert count. induction shows as [|show rest IH]; intros count; [done|].
  rewrite fetch_page_shows_cons. simpl.
  destruct show as [| | | | |fields]; try done.
  destruct (dict_get_default "key" JNull fields); simpl; try done; apply IH.
Qed.

(** Without a limit and without known keys, a walk that returns has yielded
    for the whole catalog. *)
Lemma fetch_pages_complete (fuel : nat) (url : string) (params : list (string * Z))
    (count : Z) (page_num : nat) :
  let run := fetch_pages self api None ∅ fuel url params count page_num in
  run.2 = GenReturn ->
  yields run.1 = yielded_for self api <$> catalog_from api fuel url params.
Proof.
  cbv zeta. revert url params count page_num.
  induction fuel as [|fuel IH]; intros url params count page_num; [done|].
  simpl.
  destruct (listing api url params) as [| | | |data]; try done.
  destruct data as [| | | | |data]; try done.
  destruct (dict_get_default "data" (JList []) data) as [| | | |shows|]; try done.
  destruct (fetch_page_shows_prefix self None ∅ api shows count)
    as (n & Hn & Hyields & _ & _ & Hdone).
  pose proof (fetch_page_shows_no_return shows count) as Hreturn.
  destruct (fetch_page_shows self api None ∅ shows count) as [events fin].
  cbn [fst snd] in *.
  destruct fin as [count'| |e]; [|done..].
  rewrite (Hdone _ eq_refl), take_ge in Hyields by done.
  destruct (dict_get_default "paging" (JDict []) data) as [| | | | |paging]; try done.
  destruct (dict_get_default "next" JNull paging) as [|b|z|next|l|d].
  all: try (destruct (truthy _); [done|]; cbn; intros _;
            change (omap _ ?l) with (yields l);
            rewrite yields_app, Hyields; cbn; by rewrite !app_nil_r).
  change (truthy (JStr next)) with (negb (String.eqb next "")).
  destruct (negb (String.eqb next "")).
  - specialize (IH next [] count' (S page_num)).
    destruct (fetch_pages self api None ∅ fuel next [] count' (S page_num))
      as [later fin].
    cbn [fst snd] in *. intros Hfin. cbn. change (omap _ ?l) with (yields l).
    rewrite yields_app, Hyields. cbn. change (omap _ ?l) with (yields l).
    by rewrite (IH Hfin), fmap_app.
  - cbn. intros _. change (omap _ ?l) with (yields l).
    rewrite yields_app, Hyields. cbn. by rewrite !app_nil_r.
Qed.

End Limit.

(** X9.  With a limit [n], [fetch_shows] yields at most [n] items (none when
    [n] is zero or negative), whatever the remote catalog holds. *)
Theorem X9_limit_bounds_the_yields (self : Fetcher.MixcloudFetcher) (api : Fetcher.remote)
    (n : Z) (existing_ids : option (gset string)) (fuel : nat) :
  (length (Fetcher.yields (Fetcher.fetch_shows self api (Some n) existing_ids fuel).1)
   <= Z.to_nat n)%nat.
Proof.
  unfold Fetcher.fetch_shows.
  pose proof (fetch_pages_limit self api (default ∅ existing_ids) n fuel
                (Fetcher.first_url self) Fetcher.first_params 0 O) as Hlen.
  destruct (Fetcher.fetch_pages self api (Some n) (default ∅ existing_ids) fuel _ _ 0 O)
    as [events fin].
  cbn [fst snd] in *.
  change (Fetcher.yields (Log INFO (StartingFetch (Some n)) :: events))
    with (Fetcher.yields events).
  lia.
Qed.

(** X10.  [fetch_shows] yields in the order of the remote catalog, one item
    for each catalog item of a prefix of it: the detail record of the item,
    or the item itself when its detail request fails.  Nothing is reordered,
    repeated or left out inside that prefix. *)
Theorem X10_yields_follow_the_catalog (self : Fetcher.MixcloudFetcher)
    (api : Fetcher.remote) (limit : option Z) (existing_ids : option (gset string))
    (fuel : nat) :
  exists n,
    Fetcher.yields (Fetcher.fetch_shows self api limit existing_ids fuel).1
    = Catalog.yielded_for self api <$> take n (Catalog.catalog self api fuel).
Proof.
  unfold Fetcher.fetch_shows.
  destruct (fetch_pages_prefix self limit (default ∅ existing_ids) api fuel
              (Fetcher.first_url self) Fetcher.first_params 0 O) as (n & Hyields & _).
  destruct (Fetcher.fetch_pages self api limit (default ∅ existing_ids) fuel _ _ 0 O)
    as [events fin].
  exists n. exact Hyields.
Qed.

(** X11.  Without a limit and without known keys, when the generator returns
    (no page failed, the last page had no next link), it has yielded for
    every item of the catalog. *)
Theorem X11_full_walk_yields_everything (self : Fetcher.MixcloudFetcher)
    (api : Fetcher.remote) (fuel : nat) :
  (Fetcher.fetch_shows self api None None fuel).2 = Fetcher.GenReturn ->
  Fetcher.yields (Fetcher.fetch_shows self api None None fuel).1
  = Catalog.yielded_for self api <$> Catalog.catalog self api fuel.
Proof.
  unfold Fetcher.fetch_shows. change (default ∅ None) with (∅ : gset string).
  pose proof (fetch_pages_complete self api fuel (Fetcher.first_url self)
                Fetcher.first_params 0 O) as Hcomplete.
  destruct (Fetcher.fetch_pages self api None ∅ fuel _ _ 0 O) as [events fin].
  exact Hcomplete.
Qed.

Lemma X11_witness :
  Fetcher.yields (Fetcher.fetch_shows Fetcher.MixcloudFetcher_init Demo.api None None 5).1
  = Catalog.yielded_for Fetcher.MixcloudFetcher_init Demo.api
      <$> Catalog.catalog Fetcher.MixcloudFetcher_init Demo.api 5.
Proof.
  exact (X11_full_walk_yields_everything Fetcher.MixcloudFetcher_init Demo.api 5 eq_refl).
Defined.

(** ** Local recategorization, record by record *)

Section Dict.

Lemma dict_get_set_eq (k : string) (v : json) (d : dict) :
  dict_get k (dict_set k v d) = Some v.
Proof.
  induction d as [|[k' v'] d IH]; simpl.
  - by rewrite String.eqb_refl.
  - destruct (String.eqb k' k) eqn:Hk; simpl; by rewrite Hk.
Qed.

Lemma dict_get_set_ne (k k' : string) (v : json) (d : dict) :
  k <> k' -> dict_get k' (dict_set k v d) = dict_get k' d.
Proof.
  intros Hne. induction d as [|[k0 v0] d IH]; simpl.
  - by apply String.eqb_neq in Hne as ->.
  - destruct (String.eqb k0 k) eqn:Hk; simpl; [|by rewrite IH].
    apply String.eqb_eq in Hk as ->. by apply String.eqb_neq in Hne as ->.
Qed.

Lemma dict_get_default_set_ne (k k' : string) (v default : json) (d : dict) :
  k <> k' -> dict_get_default k' default (dict_set k v d) = dict_get_default k' default d.
Proof. intros Hne. unfold dict_get_default. by rewrite dict_get_set_ne. Qed.

End Dict.

Section UpdateShow.
Context `{RE : ReEngine}.
Import Processor Main.

Lemma traced_bind_Forall {A B} (P : event -> Prop) (m : traced A) (k : A -> traced B) :
  Forall P m.1 -> (forall a, Forall P (k a).1) -> Forall P (m ≫= k).1.
Proof.
  intros Hm Hk. destruct m as [t [a|e]]; unfold mbind, traced_bind; simpl; [|done].
  apply Forall_app. split; [done|apply Hk].
Qed.

(** The loop of local update only logs. *)
Lemma update_show_no_write (processor : DataProcessor) (show : json) (updated_count : nat) :
  Forall (fun ev => is_write ev = false) (update_show processor show updated_count).1.
Proof.
  unfold update_show. destruct show as [| | | | |show]; try by constructor.
  cbv zeta.
  apply traced_bind_Forall; [by constructor|intros _].
  apply traced_bind_Forall; [by constructor|intros [new_category extra_tags]].
  apply traced_bind_Forall.
  - destruct (same_category _ _); [by constructor|].
    apply traced_bind_Forall; [by constructor|intros name].
    apply traced_bind_Forall; [by repeat constructor|intros _]. by constructor.
  - intros [show' count].
    apply traced_bind_Forall; [by constructor|intros current_tags].
    destruct (bool_decide _); [by constructor|].
    apply traced_bind_Forall; [by constructor|intros name].
    apply traced_bind_Forall; [by repeat constructor|intros _]. by constructor.
Qed.

Lemma update_shows_no_write (processor : DataProcessor) (existing_data : list json)
    (updated_count : nat) :
  Forall (fun ev => is_write ev = false)
    (update_shows processor existing_data updated_count).1.
Proof.
  revert updated_count. induction existing_data as [|show rest IH]; intros updated_count.
  - by constructor.
  - cbn [update_shows].
    apply traced_bind_Forall; [apply update_show_no_write|intros state].
    apply traced_bind_Forall; [apply IH|intros state']. by constructor.
Qed.

(** What one turn of the loop does when it does not raise. *)
Lemma update_show_Ok (processor : DataProcessor) (fields : dict) (updated_count : nat)
    (trace : list event) (show' : json) (count' : nat) :
  update_show processor (JDict fields) updated_count = (trace, Ok (show', count')) ->
  exists category extra_tags current_tags fields1 count1,
    category_of_stored processor (dict_get_default "name" (JStr "") fields)
      = Ok (category, extra_tags) /\
    list_of_tags (dict_get_default "tags" (JList []) fields1) = Ok current_tags /\
    (same_category (dict_get_default "category" JNull fields) category = true /\
       fields1 = fields /\ count1 = updated_count
     \/ same_category (dict_get_default "category" JNull fields) category = false /\
       fields1 = dict_set "category" (JStr category) fields /\ count1 = S updated_count) /\
    (normalize_tags processor (current_tags ++ extra_tags) = sorted_unique current_tags /\
       show' = JDict fields1 /\ count' = count1
     \/ normalize_tags processor (current_tags ++ extra_tags) <> sorted_unique current_tags /\
       show' = JDict (dict_set "tags"
                        (JList (JStr <$> normalize_tags processor (current_tags ++ extra_tags)))
                        fields1) /\
       count' = S count1) /\
    length trace = (count' - updated_count)%nat.
Proof.
  unfold update_show. cbv zeta.
  destruct (set_of_tags _) as [[]|e]; [|discriminate].
  destruct (category_of_stored _ _) as [[category extra_tags]|e]; [|discriminate].
  cbn [lift mbind traced_bind mret traced_ret fst snd app].
  destruct (same_category _ _) eqn:Hsame.
  - cbn [lift mbind traced_bind mret traced_ret fst snd app].
    destruct (list_of_tags _) as [current_tags|e] eqn:Htags; [|discriminate].
    cbn [lift mbind traced_bind mret traced_ret fst snd app].
    destruct (bool_decide _) eqn:Hdec.
    + intros [= <- <- <-]. apply bool_decide_eq_true_1 in Hdec.
      exists category, extra_tags, current_tags, fields, updated_count.
      repeat split; try done; [by left|by left|simpl; lia].
    + destruct (dict_item _ _) as [name|e]; [|discriminate].
      cbn [lift emit mbind traced_bind mret traced_ret fst snd app].
      intros [= <- <- <-]. apply bool_decide_eq_false_1 in Hdec.
      exists category, extra_tags, current_tags, fields, updated_count.
      repeat split; try done; [by left|by right|simpl; lia].
  - destruct (dict_item _ _) as [name|e]; [|discriminate].
    cbn [lift emit mbind traced_bind mret traced_ret fst snd app].
    destruct (list_of_tags _) as [current_tags|e] eqn:Htags; [|discriminate].
    cbn [lift mbind traced_bind mret traced_ret fst snd app].
    destruct (bool_decide _) eqn:Hdec.
    + intros [= <- <- <-]. apply bool_decide_eq_true_1 in Hdec.
      exists category, extra_tags, current_tags,
        (dict_set "category" (JStr category) fields), (S updated_count).
      repeat split; try done; [by right|by left|simpl; lia].
    + destruct (dict_item _ _) as [name'|e]; [|discriminate].
      cbn [lift emit mbind traced_bind mret traced_ret fst snd app].
      intros [= <- <- <-]. apply bool_decide_eq_false_1 in Hdec.
      exists category, extra_tags, current_tags,
        (dict_set "category" (JStr category) fields), (S updated_count).
      repeat split; try done; [by right|by right|simpl; lia].
Qed.

End UpdateShow.

Section UpdateRun.
Context `{RE : ReEngine}.
Import Processor Main.

Lemma same_category_true (fields : dict) (category : string) :
  same_category (dict_get_default "category" JNull fields) category = true ->
  dict_get "category" fields = Some (JStr category).
Proof.
  unfold dict_get_default, same_category.
  destruct (dict_get "category" fields) as [[| | |c| |]|]; try discriminate.
  by intros ->%String.eqb_eq.
Qed.

(** After one turn of the loop the category is the derived one, and the
    fields other than the category and the tags are as they were. *)
Lemma update_show_frame (processor : DataProcessor) (fields : dict) (updated_count : nat)
    (trace : list event) (show' : json) (count' : nat) :
  update_show processor (JDict fields) updated_count = (trace, Ok (show', count')) ->
  exists fields' category extra_tags current_tags,
    show' = JDict fields' /\
    category_of_stored processor (dict_get_default "name" (JStr "") fields)
      = Ok (category, extra_tags) /\
    list_of_tags (dict_get_default "tags" (JList []) fields) = Ok current_tags /\
    dict_get "category" fields' = Some (JStr category) /\
    (forall k, k <> "category" -> k <> "tags" -> dict_get k fields' = dict_get k fields) /\
    (normalize_tags processor (current_tags ++ extra_tags) = sorted_unique current_tags /\
       dict_get "tags" fields' = dict_get "tags" fields
     \/ normalize_tags processor (current_tags ++ extra_tags) <> sorted_unique current_tags /\
       dict_get "tags" fields'
       = Some (JList (JStr <$> normalize_tags processor (current_tags ++ extra_tags)))) /\
    (updated_count <= count' <= updated_count + 2)%nat /\
    length trace = (count' - updated_count)%nat /\
    (count' = updated_count -> show' = JDict fields).
Proof.
  intros (category & extra_tags & current_tags & fields1 & count1
          & Hinfo & Htags & Hcategory & Hnew & Htrace)%update_show_Ok.
  assert (Hfields1 : dict_get "category" fields1 = Some (JStr category) /\
                     (forall k, k <> "category" -> dict_get k fields1 = dict_get k fields) /\
                     (updated_count <= count1 <= updated_count + 1)%nat /\
                     (count1 = updated_count -> fields1 = fields)).
  { destruct Hcategory as [(Hsame & -> & ->)|(Hsame & -> & ->)].
    - split; [by apply same_category_true|]. split; [done|]. split; [lia|done].
    - split; [apply dict_get_set_eq|]. split; [|split; [lia|lia]].
      intros k Hk. by apply dict_get_set_ne. }
  destruct Hfields1 as (Hcat1 & Hframe1 & Hcount1 & Hsame1).
  assert (Htags1 : dict_get_default "tags" (JList []) fields1
                   = dict_get_default "tags" (JList []) fields).
  { unfold dict_get_default. by rewrite Hframe1. }
  rewrite Htags1 in Htags.
  destruct Hnew as [(Heq & -> & ->)|(Hne & -> & ->)].
  - exists fields1, category, extra_tags, current_tags.
    split; [done|]. split; [done|]. split; [done|]. split; [done|].
    split; [intros k Hk _; by apply Hframe1|].
    split; [left; split; [done|by apply Hframe1]|].
    split; [lia|]. split; [done|]. intros Hcount. by rewrite Hsame1.
  - eexists _, category, extra_tags, current_tags.
    split; [done|]. split; [done|]. split; [done|].
    split; [by rewrite dict_get_set_ne|].
    split; [intros k Hk Hk'; rewrite dict_get_set_ne by done; by apply Hframe1|].
    split; [right; split; [done|apply dict_get_set_eq]|].
    split; [lia|]. split; [done|]. lia.
Qed.

(** With an alias table that leaves its canonical values alone, a record
    that went through one turn of the loop is left as it is by another. *)
Lemma update_show_Ok_unchanged (processor : DataProcessor) (show : json)
    (updated_count : nat) (trace : list event) (show' : json) (count' : nat) :
  (forall key value, (key, value) ∈ tag_mappings processor ->
     normalize_tag processor value = value) ->
  update_show processor show updated_count = (trace, Ok (show', count')) ->
  unchanged processor show'.
Proof.
  intros Hclosed Hrun. destruct show as [| | | | |fields]; try discriminate.
  apply update_show_frame in Hrun
    as (fields' & category & extra_tags & current_tags & -> & Hinfo & Htags & Hcategory
        & Hframe & Hnew & _).
  assert (Hname : dict_get_default "name" (JStr "") fields'
                  = dict_get_default "name" (JStr "") fields).
  { unfold dict_get_default. by rewrite Hframe. }
  destruct Hnew as [[Heq Hsame]|[Hne Hset]].
  - exists fields', category, extra_tags, current_tags.
    split; [done|]. split; [by rewrite Hname|]. split; [done|].
    split; [|done]. unfold dict_get_default. rewrite Hsame. exact Htags.
  - set (new_tags := normalize_tags processor (current_tags ++ extra_tags)) in *.
    exists fields', category, extra_tags, new_tags.
    split; [done|]. split; [by rewrite Hname|]. split; [done|].
    split.
    { unfold dict_get_default. rewrite Hset. simpl. by rewrite as_str_list_fmap. }
    rewrite normalize_tags_eq. unfold sorted_unique. do 2 f_equal.
    apply set_eq. intros x.
    rewrite !elem_of_list_to_set, list_elem_of_fmap. split.
    + intros (tag & -> & [Htag|Htag]%elem_of_app).
      * apply elem_of_normalize_tags in Htag as (tag0 & Htag0 & ->).
        rewrite normalize_tag_idempotent by done.
        apply elem_of_normalize_tags. eauto.
      * apply elem_of_normalize_tags. exists tag. split; [|done].
        apply elem_of_app. by right.
    + intros Hx. exists x. split; [|apply elem_of_app; by left].
      apply elem_of_normalize_tags in Hx as (tag0 & Htag0 & ->).
      by rewrite normalize_tag_idempotent.
Qed.

Lemma update_shows_Ok_unchanged (processor : DataProcessor) (existing_data : list json)
    (updated_count : nat) (trace : list event) (data' : list json) (count' : nat) :
  (forall key value, (key, value) ∈ tag_mappings processor ->
     normalize_tag processor value = value) ->
  update_shows processor existing_data updated_count = (trace, Ok (data', count')) ->
  Forall (unchanged processor) data'.
Proof.
  intros Hclosed. revert updated_count trace data' count'.
  induction existing_data as [|show rest IH]; intros updated_count trace data' count'.
  - intros [= <- <- <-]. constructor.
  - cbn [update_shows].
    destruct (update_show processor show updated_count) as [t1 [[show1 count1]|e]] eqn:H1;
      [|discriminate].
    cbn [mbind traced_bind fst snd].
    destruct (update_shows processor rest count1) as [t2 [[data2 count2]|e]] eqn:H2;
      [|discriminate].
    cbn [mbind traced_bind mret traced_ret fst snd]. intros [= <- <- <-].
    constructor; [by eapply update_show_Ok_unchanged|by eapply IH].
Qed.

(** A local update that finds nothing to change ends with the success code
    and the index file as it was. *)
Lemma perform_local_update_quiet (processor : DataProcessor) (fault : option io_fault)
    (file : file_state) :
  (load_existing_index file).2 = [] \/
  (exists trace data,
     update_shows processor (load_existing_index file).2 O = (trace, Ok (data, O))) ->
  let run := perform_local_update processor fault file in
  run.2 = file /\ run.1.2 = Exit EXIT_SUCCESS /\
  Forall (fun ev => is_write ev = false) run.1.1.
Proof.
  intros Hquiet. cbv zeta. unfold perform_local_update.
  pose proof (load_existing_index_no_write file) as Hload.
  destruct (load_existing_index file) as [loading existing_data].
  cbn [fst snd] in *.
  destruct existing_data as [|show rest].
  - simpl. repeat split; try done. constructor; [done|].
    apply Forall_app. split; [done|by repeat constructor].
  - destruct Hquiet as [|(trace & data & Hrun)]; [done|].
    pose proof (update_shows_no_write processor (show :: rest) O) as Htrace.
    rewrite Hrun in *. simpl. repeat split; try done. constructor; [done|].
    apply Forall_app. split; [done|].
    apply Forall_app. split; [done|by repeat constructor].
Qed.

(** A turn that raises after turns that change nothing ends the loop. *)
Lemma update_shows_raise (processor : DataProcessor) (before after : list json)
    (show : json) (updated_count : nat) (trace : list event) (e : exn) :
  Forall (unchanged processor) before ->
  update_show processor show updated_count = (trace, Raise e) ->
  update_shows processor (before ++ show :: after) updated_count = (trace, Raise e).
Proof.
  intros Hbefore Hshow. induction Hbefore as [|x before Hx _ IH]; cbn [app update_shows].
  - by rewrite Hshow.
  - rewrite (update_show_unchanged _ _ _ Hx). cbn [mbind traced_bind fst snd app].
    by rewrite IH.
Qed.

Lemma perform_local_update_raise (processor : DataProcessor) (fault : option io_fault)
    (file : file_state) (trace : list event) (e : exn) :
  update_shows processor (load_existing_index file).2 O = (trace, Raise e) ->
  let run := perform_local_update processor fault file in
  run.1.2 = Uncaught e /\ run.2 = file /\
  Forall (fun ev => is_write ev = false) run.1.1.
Proof.
  intros Hrun. cbv zeta. unfold perform_local_update.
  pose proof (load_existing_index_no_write file) as Hload.
  destruct (load_existing_index file) as [loading existing_data].
  cbn [fst snd] in *.
  pose proof (update_shows_no_write processor existing_data O) as Htrace.
  destruct existing_data as [|show rest]; [discriminate|].
  rewrite Hrun in *. simpl. repeat split; try done. constructor; [done|].
  apply Forall_app. by split.
Qed.

End UpdateRun.

(** X12.  One turn of the loop of local update that does not raise sets the
    category of the record to the one derived from its name, sets its tags to
    the normalized merge of the stored and the extra tags when that differs
    from the sorted deduplication of the stored ones, and leaves every other
    field as it was.  The counter goes up by one for each of the two changes
    made (so by at most two for one record), one line is logged for each, and
    a counter that did not move means a record that did not change. *)
Theorem X12_update_show_changes_category_and_tags `{RE : ReEngine}
    (processor : Processor.DataProcessor) (show : json) (updated_count : nat)
    (trace : list event) (show' : json) (count' : nat) :
  Main.update_show processor show updated_count = (trace, Ok (show', count')) ->
  exists fields fields' category extra_tags current_tags,
    show = JDict fields /\ show' = JDict fields' /\
    Main.category_of_stored processor (dict_get_default "name" (JStr "") fields)
      = Ok (category, extra_tags) /\
    Main.list_of_tags (dict_get_default "tags" (JList []) fields) = Ok current_tags /\
    dict_get "category" fields' = Some (JStr category) /\
    (forall k, k <> "category" -> k <> "tags" -> dict_get k fields' = dict_get k fields) /\
    (Processor.normalize_tags processor (current_tags ++ extra_tags)
       = Main.sorted_unique current_tags /\
       dict_get "tags" fields' = dict_get "tags" fields
     \/ Processor.normalize_tags processor (current_tags ++ extra_tags)
        <> Main.sorted_unique current_tags /\
       dict_get "tags" fields'
       = Some (JList (JStr <$> Processor.normalize_tags processor
                                 (current_tags ++ extra_tags)))) /\
    (updated_count <= count' <= updated_count + 2)%nat /\
    length trace = (count' - updated_count)%nat /\
    (count' = updated_count -> show' = show).
Proof.
  intros Hrun. destruct show as [| | | | |fields]; try discriminate.
  apply update_show_frame in Hrun
    as (fields' & category & extra_tags & current_tags & H).
  exists fields, fields', category, extra_tags, current_tags.
  split; [done|exact H].
Qed.

Lemma X12_witness :
  let show := JDict [("name", JStr "Live Punk Session"); ("category", JStr "Old");
                     ("tags", JList [JStr "hiphop"]); ("slug", JStr "live-punk")] in
  let show' := JDict [("name", JStr "Live Punk Session"); ("category", JStr "Punk");
                      ("tags", JList [JStr "Hip-Hop"; JStr "genre:punk"]);
                      ("slug", JStr "live-punk")] in
  exists fields fields' category extra_tags current_tags,
    show = JDict fields /\ show' = JDict fields' /\
    Main.category_of_stored Demo.processor (dict_get_default "name" (JStr "") fields)
      = Ok (category, extra_tags) /\
    Main.list_of_tags (dict_get_default "tags" (JList []) fields) = Ok current_tags /\
    dict_get "category" fields' = Some (JStr category) /\
    (forall k, k <> "category" -> k <> "tags" -> dict_get k fields' = dict_get k fields) /\
    (Processor.normalize_tags Demo.processor (current_tags ++ extra_tags)
       = Main.sorted_unique current_tags /\
       dict_get "tags" fields' = dict_get "tags" fields
     \/ Processor.normalize_tags Demo.processor (current_tags ++ extra_tags)
        <> Main.sorted_unique current_tags /\
       dict_get "tags" fields'
       = Some (JList (JStr <$> Processor.normalize_tags Demo.processor
                                 (current_tags ++ extra_tags)))) /\
    (0 <= 2 <= 0 + 2)%nat /\
    length [Log INFO (UpdatedCategory (JStr "Live Punk Session") "Punk");
            Log INFO (UpdatedTags (JStr "Live Punk Session") 2)] = (2 - 0)%nat /\
    (2%nat = 0%nat -> show' = show).
Proof.
  intros show show'.
  refine (X12_update_show_changes_category_and_tags Demo.processor show 0 _ show' 2 _).
  vm_compute. reflexivity.
Defined.

(** X13.  Local update reaches a fixed point in one run, when the alias
    table leaves its canonical values alone: after a run that ended with the
    success code, a second run over the index file it left finds nothing to
    change, writes nothing and leaves the file as it is. *)
Theorem X13_second_local_update_changes_nothing `{RE : ReEngine}
    (processor : Processor.DataProcessor) (fault fault' : option Main.io_fault)
    (file : file_state) :
  (forall key value, (key, value) ∈ Processor.tag_mappings processor ->
     Processor.normalize_tag processor value = value) ->
  (Main.perform_local_update processor fault file).1.2 = Main.Exit EXIT_SUCCESS ->
  (Main.perform_local_update processor fault'
     (Main.perform_local_update processor fault file).2).2
  = (Main.perform_local_update processor fault file).2 /\
  (Main.perform_local_update processor fault'
     (Main.perform_local_update processor fault file).2).1.2 = Main.Exit EXIT_SUCCESS /\
  Forall (fun ev => is_write ev = false)
    (Main.perform_local_update processor fault'
       (Main.perform_local_update processor fault file).2).1.1.
Proof.
  intros Hclosed.
  destruct (Main.perform_local_update processor fault file) as [[trace fin] file'] eqn:Hrun.
  cbn [fst snd]. intros ->.
  apply (perform_local_update_quiet processor fault' file').
  unfold Main.perform_local_update in Hrun.
  destruct (Main.load_existing_index file) as [loading existing_data] eqn:Hload.
  destruct existing_data as [|show rest].
  { simpl in Hrun. injection Hrun as _ <-. left. by rewrite Hload. }
  destruct (Main.update_shows processor (show :: rest) O)
    as [updating [[data count]|e]] eqn:Hupdate; [|discriminate].
  destruct count as [|count].
  { simpl in Hrun. injection Hrun as _ <-. right. rewrite Hload. eauto. }
  pose proof (update_shows_Ok_unchanged _ _ _ _ _ _ Hclosed Hupdate) as Hdata.
  cbn [Nat.ltb Nat.leb] in Hrun.
  unfold Main.save_and_exit, Main.save_index in Hrun.
  destruct (Main.sort_by_created_time data) as [sorted_data|e] eqn:Hsort.
  - apply sort_by_created_time_Permutation in Hsort.
    destruct fault as [[]|]; simpl in Hrun; try discriminate.
    injection Hrun as _ <-. cbn [Main.load_existing_index snd].
    right. exists [], sorted_data. apply update_shows_unchanged. by rewrite Hsort.
  - destruct e; simpl in Hrun; discriminate.
Qed.

Lemma X13_witness :
  let processor := Demo.processor in
  let file := Complete (JList [JDict [("name", JStr "Live Punk Session");
                                      ("category", JStr "Old");
                                      ("tags", JList [JStr "hiphop"])]]) in
  (forall key value, (key, value) ∈ Processor.tag_mappings processor ->
     Processor.normalize_tag processor value = value) /\
  (Main.perform_local_update processor None file).1.2 = Main.Exit EXIT_SUCCESS /\
  (Main.perform_local_update processor None file).2 <> file /\
  (Main.perform_local_update processor (Some Main.FailDump)
     (Main.perform_local_update processor None file).2).2
  = (Main.perform_local_update processor None file).2 /\
  (Main.perform_local_update processor (Some Main.FailDump)
     (Main.perform_local_update processor None file).2).1.2 = Main.Exit EXIT_SUCCESS /\
  Forall (fun ev => is_write ev = false)
    (Main.perform_local_update processor (Some Main.FailDump)
       (Main.perform_local_update processor None file).2).1.1.
Proof.
  intros processor file.
  assert (Hclosed : forall key value,
             (key, value) ∈ Processor.tag_mappings processor ->
             Processor.normalize_tag processor value = value).
  { intros key value Hin. apply list_elem_of_singleton in Hin.
    injection Hin as _ ->. reflexivity. }
  assert (Hexit : (Main.perform_local_update processor None file).1.2
                  = Main.Exit EXIT_SUCCESS) by (vm_compute; reflexivity).
  split; [exact Hclosed|]. split; [exact Hexit|].
  split; [vm_compute; discriminate|].
  exact (X13_second_local_update_changes_nothing processor None (Some Main.FailDump) file
           Hclosed Hexit).
Defined.

(** X14.  A stored record without a name whose category is not the default
    one stops a local update: the category is set, then the log line reads
    [show['name']] and raises [KeyError].  The run ends with that exception,
    nothing is written, and the index file is as it was. *)
Theorem X14_nameless_record_stops_local_update `{RE : ReEngine}
    (processor : Processor.DataProcessor) (fault : option Main.io_fault)
    (file : file_state) (before after : list json) (fields : dict) :
  (Main.load_existing_index file).2 = before ++ JDict fields :: after ->
  Forall (unchanged processor) before ->
  dict_get "name" fields = None ->
  dict_get "category" fields <> Some (JStr DEFAULT_CATEGORY) ->
  Main.set_of_tags (dict_get_default "tags" (JList []) fields) = Ok tt ->
  (Main.perform_local_update processor fault file).1.2 = Main.Uncaught (KeyError "name") /\
  (Main.perform_local_update processor fault file).2 = file /\
  Forall (fun ev => is_write ev = false)
    (Main.perform_local_update processor fault file).1.1.
Proof.
  intros Hload Hbefore Hname Hcategory Htags.
  apply (perform_local_update_raise processor fault file []).
  rewrite Hload. apply update_shows_raise; [done|].
  unfold Main.update_show. cbv zeta. rewrite Htags.
  assert (dict_get_default "name" (JStr "") fields = JStr "") as ->
    by (unfold dict_get_default; by rewrite Hname).
  cbn [Main.category_of_stored truthy String.eqb negb].
  cbn [lift mbind traced_bind mret traced_ret fst snd app].
  assert (Main.same_category (dict_get_default "category" JNull fields) DEFAULT_CATEGORY
          = false) as ->.
  { unfold dict_get_default, Main.same_category.
    destruct (dict_get "category" fields) as [[| | |c| |]|]; try done.
    apply String.eqb_neq. by intros ->. }
  unfold dict_item. rewrite dict_get_set_ne, Hname by done. done.
Qed.

Lemma X14_witness :
  let file := Complete (JList [JDict [("slug", JStr "untitled"); ("category", JStr "Punk")]]) in
  (Main.perform_local_update Demo.processor None file).1.2 = Main.Uncaught (KeyError "name") /\
  (Main.perform_local_update Demo.processor None file).2 = file /\
  Forall (fun ev => is_write ev = false)
    (Main.perform_local_update Demo.processor None file).1.1.
Proof.
  intros file.
  refine (X14_nameless_record_stops_local_update Demo.processor None file [] []
            [("slug", JStr "untitled"); ("category", JStr "Punk")] eq_refl _ eq_refl _ eq_refl).
  - constructor.
  - vm_compute. discriminate.
Defined.

(** ** What a run writes *)

Section Writes.
Context `{RE : ReEngine}.
Import Processor Fetcher Main.

Lemma fetch_page_shows_no_write (self : MixcloudFetcher) (api : remote) (limit : option Z)
    (existing_ids : gset string) (shows : list json) (count : Z) :
  Forall (fun ev => is_write ev = false)
    (fetch_page_shows self api limit existing_ids shows count).1.
Proof.
  revert count. induction shows as [|show rest IH]; intros count; [by constructor|].
  rewrite fetch_page_shows_cons.
  destruct (limit_reached limit count); [by repeat constructor|].
  destruct show as [| | | | |fields]; try by constructor.
  cbv zeta. destruct (key_in _ _) as [[]|e]; try by repeat constructor.
  cbn [fst]. apply Forall_app. split; [|apply IH].
  unfold resolve_show. destruct (detail api _); by repeat constructor.
Qed.

Lemma fetch_pages_no_write (self : MixcloudFetcher) (api : remote) (limit : option Z)
    (existing_ids : gset string) (fuel : nat) (url : string) (params : list (string * Z))
    (count : Z) (page_num : nat) :
  Forall (fun ev => is_write ev = false)
    (fetch_pages self api limit existing_ids fuel url params count page_num).1.
Proof.
  revert url params count page_num.
  induction fuel as [|fuel IH]; intros url params count page_num; [by constructor|].
  simpl.
  destruct (listing api url params) as [| | | |data]; try by repeat constructor.
  destruct data as [| | | | |data]; try by repeat constructor.
  destruct (dict_get_default "data" (JList []) data) as [| | | |shows|];
    try by repeat constructor.
  pose proof (fetch_page_shows_no_write self api limit existing_ids shows count) as Hpage.
  destruct (fetch_page_shows self api limit existing_ids shows count) as [events fin].
  cbn [fst] in Hpage.
  assert (Hstop : forall tail,
            Forall (fun ev => is_write ev = false) tail ->
            Forall (fun ev => is_write ev = false)
              (Get url params :: Log INFO (PageRetrieved (S page_num) (length shows))
                 :: events ++ tail)).
  { intros tail Htail. do 2 (constructor; [done|]). apply Forall_app. by split. }
  destruct fin as [count'| |e]; try (cbn [fst snd]; apply Hstop; by constructor).
  destruct (dict_get_default "paging" (JDict []) data) as [| | | | |paging];
    try (cbn [fst snd]; apply Hstop; by constructor).
  destruct (dict_get_default "next" JNull paging) as [|b|z|next|l|d];
    try (destruct (truthy _); cbn [fst snd]; apply Hstop; by repeat constructor).
  destruct (truthy (JStr next)); [|cbn [fst snd]; apply Hstop; by repeat constructor].
  specialize (IH next [] count' (S page_num)).
  destruct (fetch_pages self api limit existing_ids fuel next [] count' (S page_num))
    as [later fin].
  cbn [fst snd] in *. apply Hstop. by constructor.
Qed.

Lemma fetch_shows_no_write (self : MixcloudFetcher) (api : remote) (limit : option Z)
    (existing_ids : option (gset string)) (fuel : nat) :
  Forall (fun ev => is_write ev = false) (fetch_shows self api limit existing_ids fuel).1.
Proof.
  unfold fetch_shows.
  pose proof (fetch_pages_no_write self api limit (default ∅ existing_ids) fuel
                (first_url self) first_params 0 O) as Hpages.
  destruct (fetch_pages self api limit (default ∅ existing_ids) fuel _ _ 0 O)
    as [events fin].
  by constructor.
Qed.

Lemma index_shows_no_write (processor : DataProcessor) (events : list event)
    (new_shows : list json) :
  Forall (fun ev => is_write ev = false) events ->
  Forall (fun ev => is_write ev = false) (index_shows processor events new_shows).1.
Proof.
  intros Hevents. revert new_shows.
  induction Hevents as [|ev events Hev _ IH]; intros new_shows; [by constructor|].
  destruct ev as [lvl r|url params| |item| | |doc]; try discriminate.
  1-3: rewrite index_shows_other by done; constructor; [done|apply IH].
  cbn [index_shows].
  apply traced_bind_Forall; [by repeat constructor|intros _].
  apply traced_bind_Forall; [|intros new_shows'; apply IH].
  destruct item as [| | | | |raw_data]; try by constructor.
  destruct (process_show processor raw_data) as [processed|e].
  - apply traced_bind_Forall; [by repeat constructor|intros _]. by constructor.
  - destruct e; by constructor.
Qed.

Lemma main_present (args : arguments) (config_file : file_state) (api : remote)
    (fault : option io_fault) (fuel : nat) (file : file_state) :
  config_file <> Absent ->
  main args config_file api fault fuel file
  = prepend [Log INFO (Banner "="); Log INFO (Banner "Mixcloud Show Indexer");
             Log INFO (Banner "=")]
      (let '(events, fin, file') :=
         if local_update args then
           match DataProcessor_init config_file with
           | Ok processor => perform_local_update processor fault file
           | Raise e => ([], Uncaught e, file)
           end
         else perform_fetch_and_index config_file api (limit args) fault fuel file in
       match fin with
       | Uncaught (IllTyped _) | Exit _ | Unfinished => (events, fin, file')
       | Uncaught e =>
           (events ++ [Log ERROR (if is_indexer_error e then IndexerFailed e
                                  else UnexpectedError e)],
            Exit EXIT_PROCESSING_ERROR, file')
       end).
Proof. intros Hne. unfold main. by destruct config_file. Qed.

(** [save_index] under [except IOError], fault by fault, when the sort
    succeeds. *)
Lemma save_and_exit_Ok (fault : option io_fault) (data sorted_data : list json)
    (file : file_state) :
  sort_by_created_time data = Ok sorted_data ->
  save_and_exit fault data file
  = match fault with
    | None =>
        ([Mkdir; OpenWrite; Dump (JList sorted_data);
          Log INFO (SavedShows (length sorted_data))],
         Exit EXIT_SUCCESS, Complete (JList sorted_data))
    | Some FailMkdir => ([Mkdir], Exit EXIT_IO_ERROR, file)
    | Some FailOpen => ([Mkdir; OpenWrite; Log ERROR WriteFailed], Exit EXIT_IO_ERROR, file)
    | Some FailDump =>
        ([Mkdir; OpenWrite; Log ERROR WriteFailed], Exit EXIT_IO_ERROR,
         Torn (JList sorted_data))
    | Some FailClose =>
        ([Mkdir; OpenWrite; Dump (JList sorted_data); Log ERROR WriteFailed],
         Exit EXIT_IO_ERROR, Torn (JList sorted_data))
    | Some FailEncode =>
        ([Mkdir; OpenWrite], Uncaught UnicodeEncodeError, Torn (JList sorted_data))
    end.
Proof.
  intros Hsort. unfold save_and_exit, save_index. rewrite Hsort.
  by destruct fault as [[]|].
Qed.

(** When the sort raises, nothing is attempted. *)
Lemma save_and_exit_Raise (fault : option io_fault) (data : list json) (e : exn)
    (file : file_state) :
  sort_by_created_time data = Raise e ->
  (save_and_exit fault data file).1.1 = [] /\ (save_and_exit fault data file).2 = file.
Proof.
  intros Hsort. unfold save_and_exit, save_index. rewrite Hsort. by destruct e.
Qed.

(** A run of a mode either reaches [save_index], with data and after events
    that do not depend on what the write will do, or never attempts a write. *)
Lemma perform_local_update_shape (processor : DataProcessor) (file : file_state) :
  (exists pre data,
     Forall (fun ev => is_write ev = false) pre /\
     forall fault,
       perform_local_update processor fault file
       = prepend pre (save_and_exit fault data file))
  \/ Forall (fun ev => is_write ev = false) (perform_local_update processor None file).1.1 /\
     (perform_local_update processor None file).2 = file /\
     forall fault,
       perform_local_update processor fault file = perform_local_update processor None file.
Proof.
  unfold perform_local_update.
  pose proof (load_existing_index_no_write file) as Hload.
  destruct (load_existing_index file) as [loading existing_data]. cbn [fst] in Hload.
  destruct existing_data as [|show rest].
  { right. cbn [prepend fst snd]. split; [|done]. constructor; [done|].
    apply Forall_app. split; [done|by repeat constructor]. }
  pose proof (update_shows_no_write processor (show :: rest) O) as Htrace.
  destruct (update_shows processor (show :: rest) O) as [events [[data count]|e]].
  - destruct count as [|count].
    + right. cbn [Nat.ltb Nat.leb prepend fst snd] in *. split; [|done].
      constructor; [done|]. rewrite !Forall_app. repeat split; try done.
      by repeat constructor.
    + left. cbn [Nat.ltb Nat.leb fst] in *.
      exists (Log INFO StartingLocalUpdate
                :: loading ++ events ++ [Log INFO (UpdatedShows (S count))]), data.
      split.
      { constructor; [done|]. rewrite !Forall_app. repeat split; try done.
        by repeat constructor. }
      intros fault. destruct (save_and_exit fault data file) as [[saving fin] file'].
      cbn [prepend app]. by rewrite <- !app_assoc.
  - right. cbn [prepend fst snd] in *. split; [|done].
    constructor; [done|]. by rewrite !Forall_app.
Qed.

Lemma perform_fetch_and_index_shape (config_file : file_state) (api : remote)
    (limit : option Z) (fuel : nat) (file : file_state) :
  (exists pre data,
     Forall (fun ev => is_write ev = false) pre /\
     forall fault,
       perform_fetch_and_index config_file api limit fault fuel file
       = prepend pre (save_and_exit fault data file))
  \/ Forall (fun ev => is_write ev = false)
       (perform_fetch_and_index config_file api limit None fuel file).1.1 /\
     (perform_fetch_and_index config_file api limit None fuel file).2 = file /\
     forall fault,
       perform_fetch_and_index config_file api limit fault fuel file
       = perform_fetch_and_index config_file api limit None fuel file.
Proof.
  unfold perform_fetch_and_index.
  pose proof (load_existing_index_no_write file) as Hload.
  destruct (load_existing_index file) as [loading existing_data]. cbn [fst] in Hload.
  assert (Hstop : forall tail (fin : run_end),
            Forall (fun ev => is_write ev = false) tail ->
            Forall (fun ev => is_write ev = false)
              (prepend (Log INFO StartingFetchAndIndex :: loading) (tail, fin, file)).1.1 /\
            (prepend (Log INFO StartingFetchAndIndex :: loading) (tail, fin, file)).2 = file).
  { intros tail fin Htail. cbn [prepend fst snd]. split; [|done].
    constructor; [done|]. by rewrite Forall_app. }
  destruct (existing_ids_of existing_data) as [ids|e].
  2: { right. split; [by apply Hstop|]. split; [by apply Hstop|done]. }
  destruct (DataProcessor_init config_file) as [processor|e].
  2: { right. destruct e.
       all: split; [apply Hstop; by repeat constructor|].
       all: split; [apply Hstop; by repeat constructor|done]. }
  pose proof (fetch_shows_no_write MixcloudFetcher_init api limit (Some ids) fuel) as Hfetch.
  destruct (fetch_shows MixcloudFetcher_init api limit (Some ids) fuel) as [fetching fin].
  cbn [fst] in Hfetch.
  pose proof (index_shows_no_write processor fetching [] Hfetch) as Hindex.
  destruct (index_shows processor fetching []) as [events [new_shows|e]].
  2: { right. split; [by apply Hstop|]. split; [by apply Hstop|done]. }
  cbn [fst] in Hindex.
  assert (Hquiet : forall tail (fin : run_end),
            Forall (fun ev => is_write ev = false) tail ->
            Forall (fun ev => is_write ev = false)
              (prepend (Log INFO StartingFetchAndIndex :: loading)
                 (prepend events (tail, fin, file))).1.1 /\
            (prepend (Log INFO StartingFetchAndIndex :: loading)
               (prepend events (tail, fin, file))).2 = file).
  { intros tail fin' Htail. cbn [prepend]. apply Hstop. by rewrite Forall_app. }
  destruct fin as [|e|].
  - destruct new_shows as [|x new_shows].
    + right. split; [apply Hquiet; by repeat constructor|].
      split; [apply Hquiet; by repeat constructor|done].
    + left.
      exists (Log INFO StartingFetchAndIndex
                :: loading ++ events ++ [Log INFO (FoundNewShows (length (x :: new_shows)))]),
        ((x :: new_shows) ++ existing_data).
      split.
      { constructor; [done|]. rewrite !Forall_app. repeat split; try done.
        by repeat constructor. }
      intros fault.
      destruct (save_and_exit fault ((x :: new_shows) ++ existing_data) file)
        as [[saving fin] file'].
      cbn [prepend app]. by rewrite <- !app_assoc.
  - right. destruct e.
    all: split; [apply Hquiet; by repeat constructor|].
    all: split; [apply Hquiet; by repeat constructor|done].
  - right. split; [apply Hquiet; by repeat constructor|].
    split; [apply Hquiet; by repeat constructor|done].
Qed.

(** The same for [main], which turns an exception that leaves a mode into
    the processing code. *)
Lemma main_shape (args : arguments) (config_file : file_state) (api : remote)
    (fuel : nat) (file : file_state) :
  (exists pre data,
     Forall (fun ev => is_write ev = false) pre /\
     forall fault,
       (main args config_file api fault fuel file).2 = (save_and_exit fault data file).2 /\
       (main args config_file api fault fuel file).1.2
       = match (save_and_exit fault data file).1.2 with
         | Uncaught (IllTyped what) => Uncaught (IllTyped what)
         | Uncaught _ => Exit EXIT_PROCESSING_ERROR
         | fin => fin
         end /\
       exists post,
         (main args config_file api fault fuel file).1.1
         = pre ++ (save_and_exit fault data file).1.1 ++ post /\
         Forall (fun ev => is_write ev = false) post)
  \/ Forall (fun ev => is_write ev = false) (main args config_file api None fuel file).1.1 /\
     (main args config_file api None fuel file).2 = file /\
     forall fault,
       main args config_file api fault fuel file = main args config_file api None fuel file.
Proof.
  assert (config_file = Absent \/ config_file <> Absent) as [->|Hne]
    by (destruct config_file; auto).
  { right. simpl. split; [by repeat constructor|done]. }
  pose (inner := fun fault =>
          if local_update args then
            match DataProcessor_init config_file with
            | Ok processor => perform_local_update processor fault file
            | Raise e => ([], Uncaught e, file)
            end
          else perform_fetch_and_index config_file api (limit args) fault fuel file).
  assert (Hmain : forall fault,
            main args config_file api fault fuel file
            = prepend [Log INFO (Banner "="); Log INFO (Banner "Mixcloud Show Indexer");
                       Log INFO (Banner "=")]
                (let '(events, fin, file') := inner fault in
                 match fin with
                 | Uncaught (IllTyped _) | Exit _ | Unfinished => (events, fin, file')
                 | Uncaught e =>
                     (events ++ [Log ERROR (if is_indexer_error e then IndexerFailed e
                                            else UnexpectedError e)],
                      Exit EXIT_PROCESSING_ERROR, file')
                 end))
    by (intros fault; by apply main_present).
  assert (Hinner :
    (exists pre data,
       Forall (fun ev => is_write ev = false) pre /\
       forall fault, inner fault = prepend pre (save_and_exit fault data file))
    \/ Forall (fun ev => is_write ev = false) (inner None).1.1 /\
       (inner None).2 = file /\
       forall fault, inner fault = inner None).
  { subst inner. cbv beta. destruct (local_update args).
    - destruct (DataProcessor_init config_file) as [processor|e].
      + apply perform_local_update_shape.
      + right. by repeat split.
    - apply perform_fetch_and_index_shape. }
  clearbody inner.
  destruct Hinner as [(pre & data & Hpre & Hrun)|(Hquiet & Hfile & Hsame)].
  - left. exists ([Log INFO (Banner "="); Log INFO (Banner "Mixcloud Show Indexer");
                   Log INFO (Banner "=")] ++ pre), data.
    split; [apply Forall_app; split; [by repeat constructor|done]|].
    intros fault. rewrite Hmain, Hrun.
    destruct (save_and_exit fault data file) as [[saving fin] file'].
    cbn [prepend fst snd].
    destruct fin as [code|e|]; [|destruct e|]; cbn [prepend fst snd app].
    all: split; [done|split; [done|]].
    all: first [ by exists []; rewrite app_nil_r
               | eexists; split; [by rewrite <- app_assoc|by repeat constructor] ].
  - right. split; [|split].
    + rewrite Hmain. destruct (inner None) as [[events fin] file'].
      cbn [fst snd] in Hquiet.
      destruct fin as [code|e|]; [|destruct e|]; cbn [prepend fst snd app].
      all: repeat (constructor; [done|]); try done.
      all: apply Forall_app; split; [done|by repeat constructor].
    + rewrite Hmain. destruct (inner None) as [[events fin] file'].
      cbn [fst snd] in Hfile. subst file'.
      by destruct fin as [code|e|]; [|destruct e|].
    + intros fault. by rewrite !Hmain, Hsame.
Qed.

End Writes.

(** C4 (amended).  Take a run of [main], in either mode, that writes the
    index when nothing fails, and let an I/O error (an [OSError]) stop that
    write.  The run ends with the I/O exit code.  When the error is met while
    the parent directory is created or while the destination is opened, the
    index file is left as it was.  When it is met once the destination is
    open, during [json.dump] or at the flush that closes the file, the
    destination has been truncated and holds a proper prefix of the new text:
    the write is not all or nothing, and the index that was there is lost. *)
Theorem C4_write_failure `{RE : ReEngine} (fault : Main.io_fault) (args : Main.arguments)
    (config_file : file_state) (api : Fetcher.remote) (fuel : nat) (file : file_state)
    (doc : json) :
  Main.write_error fault = IOError ->
  Dump doc ∈ (Main.main args config_file api None fuel file).1.1 ->
  (Main.main args config_file api None fuel file).1.2 = Main.Exit EXIT_SUCCESS /\
  (Main.main args config_file api None fuel file).2 = Complete doc /\
  (Main.main args config_file api (Some fault) fuel file).1.2 = Main.Exit EXIT_IO_ERROR /\
  (fault = Main.FailMkdir \/ fault = Main.FailOpen ->
   (Main.main args config_file api (Some fault) fuel file).2 = file) /\
  (fault = Main.FailDump \/ fault = Main.FailClose ->
   (Main.main args config_file api (Some fault) fuel file).2 = Torn doc).
Proof.
  intros Hio Hdump.
  destruct (main_shape args config_file api fuel file)
    as [(pre & data & Hpre & Hrun)|(Hquiet & _ & _)].
  2: { eapply Forall_forall in Hquiet; [|exact Hdump]. discriminate. }
  destruct (Hrun None) as (Hfile & Hexit & post & Htrace & Hpost).
  rewrite Htrace in Hdump.
  assert (Hsaving : Dump doc ∈ (Main.save_and_exit None data file).1.1).
  { apply elem_of_app in Hdump as [Hdump|Hdump];
      [eapply Forall_forall in Hpre; [|exact Hdump]; discriminate|].
    apply elem_of_app in Hdump as [Hdump|Hdump]; [done|].
    eapply Forall_forall in Hpost; [|exact Hdump]. discriminate. }
  destruct (Main.sort_by_created_time data) as [sorted_data|e] eqn:Hsort.
  2: { destruct (save_and_exit_Raise None data e file Hsort) as [Hnil _].
       rewrite Hnil in Hsaving. by apply elem_of_nil in Hsaving. }
  rewrite (save_and_exit_Ok None _ _ _ Hsort) in Hsaving, Hfile, Hexit.
  cbn [fst snd] in Hsaving, Hfile, Hexit.
  assert (doc = JList sorted_data) as ->.
  { repeat (apply elem_of_cons in Hsaving as [Hsaving|Hsaving]; [try discriminate|]).
    - by injection Hsaving.
    - by apply elem_of_nil in Hsaving. }
  split; [done|]. split; [done|].
  destruct (Hrun (Some fault)) as (Hfile' & Hexit' & _).
  rewrite (save_and_exit_Ok (Some fault) _ _ _ Hsort) in Hfile', Hexit'.
  destruct fault; try discriminate Hio; cbn [fst snd] in Hfile', Hexit'.
  all: split; [done|]; split; intros [?|?]; try discriminate; done.
Qed.

Lemma C4_witness :
  let stored := JList [JDict [("name", JStr "Live Punk Session"); ("category", JStr "Old");
                              ("tags", JList [JStr "genre:punk"])]] in
  let doc := JList [JDict [("name", JStr "Live Punk Session"); ("category", JStr "Punk");
                           ("tags", JList [JStr "genre:punk"])]] in
  let args := {| Main.limit := None; Main.local_update := true |} in
  let run fault := Main.main (RE := LiteralRe) args Demo.config_file Demo.api fault O
                     (Complete stored) in
  (run None).1.2 = Main.Exit EXIT_SUCCESS /\
  (run None).2 = Complete doc /\
  (run (Some Main.FailClose)).1.2 = Main.Exit EXIT_IO_ERROR /\
  (Main.FailClose = Main.FailMkdir \/ Main.FailClose = Main.FailOpen ->
   (run (Some Main.FailClose)).2 = Complete stored) /\
  (Main.FailClose = Main.FailDump \/ Main.FailClose = Main.FailClose ->
   (run (Some Main.FailClose)).2 = Torn doc).
Proof.
  intros stored doc args run.
  refine (C4_write_failure (RE := LiteralRe) Main.FailClose args Demo.config_file Demo.api
            O (Complete stored) doc eq_refl _).
  apply list_elem_of_In. vm_compute. tauto.
Defined.

(** X15.  A run of [main], in either mode, that ends with neither the
    success code nor the I/O code has made no directory, opened nothing for
    writing and left the index file as it was, with one exception: when
    [json.dump] fails with an error that is not an I/O error (a text that
    cannot be encoded), the exception passes the [except IOError] clauses,
    [main] returns the processing code, and the index file is left truncated
    to a prefix of the text that was being written. *)
Theorem X15_other_exits_leave_the_index `{RE : ReEngine} (args : Main.arguments)
    (config_file : file_state) (api : Fetcher.remote) (fault : option Main.io_fault)
    (fuel : nat) (file : file_state) :
  (Main.main args config_file api fault fuel file).1.2 <> Main.Exit EXIT_SUCCESS ->
  (Main.main args config_file api fault fuel file).1.2 <> Main.Exit EXIT_IO_ERROR ->
  (Main.main args config_file api fault fuel file).2 = file /\
  Forall (fun ev => is_write ev = false)
    (Main.main args config_file api fault fuel file).1.1
  \/ fault = Some Main.FailEncode /\
     (Main.main args config_file api fault fuel file).1.2
     = Main.Exit EXIT_PROCESSING_ERROR /\
     exists doc,
       (Main.main args config_file api fault fuel file).2 = Torn doc /\
       Dump doc ∈ (Main.main args config_file api None fuel file).1.1.
Proof.
  intros Hsuccess Hio.
  destruct (main_shape args config_file api fuel file)
    as [(pre & data & Hpre & Hrun)|(Hquiet & Hfile & Hsame)].
  2: { left. rewrite Hsame. by split. }
  destruct (Hrun fault) as (Hfile & Hexit & post & Htrace & Hpost).
  destruct (Main.sort_by_created_time data) as [sorted_data|e] eqn:Hsort.
  - rewrite (save_and_exit_Ok fault _ _ _ Hsort) in Hfile, Hexit.
    destruct fault as [[]|]; cbn [fst snd] in Hfile, Hexit; try congruence.
    right. split; [done|]. split; [done|]. exists (JList sorted_data).
    split; [done|].
    destruct (Hrun None) as (_ & _ & post0 & Htrace0 & _).
    rewrite Htrace0, (save_and_exit_Ok None _ _ _ Hsort). cbn [fst snd].
    apply elem_of_app. right. apply elem_of_app. left.
    do 3 constructor.
  - destruct (save_and_exit_Raise fault data e file Hsort) as [Hnil Hsame].
    left. rewrite Hfile, Htrace, Hnil. split; [done|].
    rewrite !Forall_app. by repeat split.
Qed.

Lemma X15_witness :
  let args := {| Main.limit := None; Main.local_update := false |} in
  let run := Main.main (RE := LiteralRe) args Demo.config_file Cases.api_page2_down
               None 5 Garbled in
  run.1.2 = Main.Exit EXIT_FETCH_ERROR /\
  (run.2 = Garbled /\ Forall (fun ev => is_write ev = false) run.1.1
   \/ None = Some Main.FailEncode /\
      run.1.2 = Main.Exit EXIT_PROCESSING_ERROR /\
      exists doc, run.2 = Torn doc /\ Dump doc ∈ run.1.1).
Proof.
  intros args run.
  assert (Hexit : run.1.2 = Main.Exit EXIT_FETCH_ERROR) by (vm_compute; reflexivity).
  split; [exact Hexit|].
  refine (X15_other_exits_leave_the_index (RE := LiteralRe) args Demo.config_file
            Cases.api_page2_down None 5 Garbled _ _).
  - fold run. rewrite Hexit. discriminate.
  - fold run. rewrite Hexit. discriminate.
Defined.

Section FetchWrites.
Context `{RE : ReEngine}.
Import Processor Fetcher Main.


End FetchWrites.



(** ** The order of the written index *)

Section Stable.
Import Processor Main.

Lemma sorted_id {A} (le : A -> A -> bool) (l : list A) :
  StronglySorted (fun x y => le x y = true) l -> sorted le l = l.
Proof.
  induction 1 as [|x l _ IH Hx]; simpl; [done|]. rewrite IH.
  destruct l as [|y l]; simpl; [done|].
  by rewrite (Forall_inv Hx).
Qed.



(** When the sort succeeds, either every record is [timed], or there is one
    record and nothing to compare. *)
Lemma sort_by_created_time_Ok (data sorted_data : list json) :
  sort_by_created_time data = Ok sorted_data ->
  Forall timed data /\ sorted_data = sorted newer_first data
  \/ exists x, data = [x] /\ sorted_data = [x].
Proof.
  unfold sort_by_created_time.
  destruct (mapM created_time_key data) as [keys|e] eqn:Hkeys; [|discriminate].
  cbn [mbind result_bind].
  destruct (as_str_list keys) as [strs|] eqn:Hstrs.
  - intros [= <-]. left. split; [|done].
    clear -Hkeys Hstrs. revert keys strs Hkeys Hstrs.
    induction data as [|x data IH]; intros keys strs Hkeys Hstrs; [constructor|].
    cbn [mapM] in Hkeys.
    destruct (created_time_key x) as [key|e] eqn:Hx; [|discriminate].
    cbn [mbind result_bind] in Hkeys.
    destruct (mapM created_time_key data) as [keys'|e]; [|discriminate].
    injection Hkeys as <-.
    unfold as_str_list in Hstrs. cbn [mapM] in Hstrs.
    destruct key as [| | |s| |]; try discriminate.
    cbn [mbind option_bind] in Hstrs.
    destruct (mapM _ keys') as [strs'|] eqn:Hstrs'; [|discriminate].
    constructor; [|by eapply IH].
    destruct x as [| | | | |fields]; try discriminate.
    exists fields. split; [done|]. injection Hx as Hx.
    unfold dict_get_default in Hx.
    destruct (dict_get "created_time" fields) as [v|]; [right|by left].
    exists s. by rewrite Hx.
  - destruct data as [|x [|y data]];
      try (destruct (existsb never_compared keys); discriminate).
    intros [= <-]. right. by exists x.
Qed.

Lemma sort_by_created_time_again (data sorted_data : list json) :
  sort_by_created_time data = Ok sorted_data ->
  sort_by_created_time sorted_data = Ok sorted_data.
Proof.
  intros Hsort.
  destruct (sort_by_created_time_Ok _ _ Hsort) as [[Htimed ->]|(x & -> & ->)]; [|done].
  rewrite sort_by_created_time_timed by (by rewrite sorted_Permutation).
  f_equal. apply sorted_id.
  apply (sorted_StronglySorted newer_first); [apply newer_first_total|apply newer_first_trans].
Qed.

End Stable.



(** X18.  What [save_index] wrote loads back and saves to the same file: a
    successful save leaves the JSON text of a list that is a permutation of
    the records given; [load_existing_index] reads that list back; and saving
    the list read back writes the same text again. *)
Theorem X18_save_load_round_trip (data : list json) (file : file_state) :
  (Main.save_index None data file).1.2 = Ok tt ->
  exists written,
    (Main.save_index None data file).2 = Complete (JList written) /\
    written ≡ₚ data /\
    Main.load_existing_index (Main.save_index None data file).2
    = ([Log INFO (LoadedExisting (length data))], written) /\
    Main.save_index None written (Main.save_index None data file).2
    = Main.save_index None data file.
Proof.
  unfold Main.save_index at 1.
  destruct (Main.sort_by_created_time data) as [written|e] eqn:Hsort; [|discriminate].
  intros _. exists written.
  pose proof (sort_by_created_time_Permutation _ _ Hsort) as Hperm.
  unfold Main.save_index. rewrite Hsort. cbn [snd].
  rewrite (sort_by_created_time_again _ _ Hsort).
  split; [done|]. split; [done|]. split; [|done].
  cbn [Main.load_existing_index]. by rewrite (Permutation_length Hperm).
Qed.

Lemma X18_witness :
  let a := JDict [("name", JStr "a"); ("created_time", JStr "2024-01-01T00:00:00Z")] in
  let b := JDict [("name", JStr "b"); ("created_time", JStr "2024-06-01T00:00:00Z")] in
  exists written,
    (Main.save_index None [a; b] Absent).2 = Complete (JList written) /\
    written ≡ₚ [a; b] /\
    Main.load_existing_index (Main.save_index None [a; b] Absent).2
    = ([Log INFO (LoadedExisting (length [a; b]))], written) /\
    Main.save_index None written (Main.save_index None [a; b] Absent).2
    = Main.save_index None [a; b] Absent.
Proof.
  intros a b. refine (X18_save_load_round_trip [a; b] Absent _).
  vm_compute. reflexivity.
Defined.

(** ** The exit codes *)

Section ExitCodes.
Context `{RE : ReEngine}.
Import Processor Fetcher Main.

Lemma save_and_exit_end (fault : option io_fault) (data : list json) (file : file_state) :
  match (save_and_exit fault data file).1.2 with
  | Exit code => code = EXIT_SUCCESS \/ code = EXIT_IO_ERROR
  | Uncaught _ => True
  | Unfinished => False
  end.
Proof.
  unfold save_and_exit, save_index.
  destruct (sort_by_created_time data) as [sorted_data|e].
  - destruct fault as [[]|]; simpl; auto.
  - destruct e; simpl; auto.
Qed.

Lemma perform_local_update_end (processor : DataProcessor) (fault : option io_fault)
    (file : file_state) :
  match (perform_local_update processor fault file).1.2 with
  | Exit code => code = EXIT_SUCCESS \/ code = EXIT_IO_ERROR
  | Uncaught _ => True
  | Unfinished => False
  end.
Proof.
  unfold perform_local_update.
  destruct (load_existing_index file) as [loading existing_data].
  destruct existing_data as [|show rest]; [simpl; auto|].
  destruct (update_shows processor (show :: rest) O) as [events [[data count]|e]];
    [|done].
  destruct count as [|count]; [simpl; auto|]. cbn [Nat.ltb Nat.leb].
  pose proof (save_and_exit_end fault data file) as Hsave.
  by destruct (save_and_exit fault data file) as [[saving fin] file'].
Qed.

Lemma perform_fetch_and_index_end (config_file : file_state) (api : remote)
    (limit : option Z) (fault : option io_fault) (fuel : nat) (file : file_state) :
  match (perform_fetch_and_index config_file api limit fault fuel file).1.2 with
  | Exit code =>
      code = EXIT_SUCCESS \/ code = EXIT_CONFIG_ERROR \/ code = EXIT_FETCH_ERROR
      \/ code = EXIT_IO_ERROR
  | _ => True
  end.
Proof.
  unfold perform_fetch_and_index.
  destruct (load_existing_index file) as [loading existing_data].
  destruct (existing_ids_of existing_data) as [ids|e]; [|done].
  destruct (DataProcessor_init config_file) as [processor|e];
    [|destruct e; simpl; auto].
  destruct (fetch_shows MixcloudFetcher_init api limit (Some ids) fuel) as [fetching fin].
  destruct (index_shows processor fetching []) as [events [new_shows|e]]; [|done].
  destruct fin as [|e|]; [|destruct e; simpl; auto|done].
  destruct new_shows as [|x new_shows]; [simpl; auto|].
  pose proof (save_and_exit_end fault ((x :: new_shows) ++ existing_data) file) as Hsave.
  destruct (save_and_exit fault ((x :: new_shows) ++ existing_data) file)
    as [[saving fin] file'].
  cbn [prepend fst snd] in *. destruct fin; intuition.
Qed.

End ExitCodes.

(** X19.  One and the same configuration error gives two exit codes.  With a
    configuration file that is there and from which no processor can be
    built, local update lets the [ConfigError] reach [main], which takes it
    for an [IndexerError] and returns the processing code; fetch mode catches
    it itself and returns the configuration code.  Neither touches the index
    file. *)
Theorem X19_config_error_code_depends_on_mode `{RE : ReEngine}
    (config_file : file_state) (api : Fetcher.remote) (limit : option Z)
    (fault : option Main.io_fault) (fuel : nat) (file : file_state) (msg : string) :
  config_file <> Absent ->
  Processor.DataProcessor_init config_file = Raise (ConfigError msg) ->
  Main.main {| Main.limit := limit; Main.local_update := true |}
    config_file api fault fuel file
  = ([Log INFO (Banner "="); Log INFO (Banner "Mixcloud Show Indexer");
      Log INFO (Banner "="); Log ERROR (IndexerFailed (ConfigError msg))],
     Main.Exit EXIT_PROCESSING_ERROR, file) /\
  forall ids,
    Main.existing_ids_of (Main.load_existing_index file).2 = Ok ids ->
    (Main.main {| Main.limit := limit; Main.local_update := false |}
       config_file api fault fuel file).1.2 = Main.Exit EXIT_CONFIG_ERROR /\
    (Main.main {| Main.limit := limit; Main.local_update := false |}
       config_file api fault fuel file).2 = file.
Proof.
  intros Hne Hinit. rewrite !main_present by done. cbn [Main.local_update Main.limit].
  rewrite Hinit. split; [done|]. intros ids Hids.
  destruct (fetch_mode_config_error config_file api limit fault fuel file msg ids
              Hinit Hids) as (Hexit & Hfile & _).
  destruct (Main.perform_fetch_and_index config_file api limit fault fuel file)
    as [[events fin] file'].
  cbn [fst snd] in *. by subst.
Qed.

Lemma X19_witness :
  let msg := "Invalid regex for 'Ska'" in
  Main.main (RE := Cases.BracketRe) {| Main.limit := None; Main.local_update := true |}
    Cases.bad_config Demo.api None 5 Absent
  = ([Log INFO (Banner "="); Log INFO (Banner "Mixcloud Show Indexer");
      Log INFO (Banner "="); Log ERROR (IndexerFailed (ConfigError msg))],
     Main.Exit EXIT_PROCESSING_ERROR, Absent) /\
  forall ids,
    Main.existing_ids_of (Main.load_existing_index Absent).2 = Ok ids ->
    (Main.main (RE := Cases.BracketRe) {| Main.limit := None; Main.local_update := false |}
       Cases.bad_config Demo.api None 5 Absent).1.2 = Main.Exit EXIT_CONFIG_ERROR /\
    (Main.main (RE := Cases.BracketRe) {| Main.limit := None; Main.local_update := false |}
       Cases.bad_config Demo.api None 5 Absent).2 = Absent.
Proof.
  intros msg.
  refine (X19_config_error_code_depends_on_mode (RE := Cases.BracketRe) Cases.bad_config
            Demo.api None None 5 Absent msg _ eq_refl).
  discriminate.
Defined.

(** X20.  [main] ends with one of the five exit codes of [constants.py]
    whenever the run stays inside the typed model and the page walk ends: no
    exception leaves it.  In local update the code is never the fetch code,
    and it is the configuration code only when the configuration file is not
    there. *)
Theorem X20_main_returns_a_declared_exit_code `{RE : ReEngine} (args : Main.arguments)
    (config_file : file_state) (api : Fetcher.remote) (fault : option Main.io_fault)
    (fuel : nat) (file : file_state) :
  match (Main.main args config_file api fault fuel file).1.2 with
  | Main.Exit code =>
      code ∈ [EXIT_SUCCESS; EXIT_CONFIG_ERROR; EXIT_FETCH_ERROR; EXIT_PROCESSING_ERROR;
              EXIT_IO_ERROR] /\
      (Main.local_update args = true ->
       code <> EXIT_FETCH_ERROR /\ (code = EXIT_CONFIG_ERROR -> config_file = Absent))
  | Main.Uncaught e => exists what, e = IllTyped what
  | Main.Unfinished => Main.local_update args = false
  end.
Proof.
  assert (config_file = Absent \/ config_file <> Absent) as [->|Hne]
    by (destruct config_file; auto).
  { simpl. split; [set_solver|]. by intros _. }
  rewrite main_present by done.
  assert (Hcode : forall code,
            code = EXIT_SUCCESS \/ code = EXIT_PROCESSING_ERROR \/ code = EXIT_IO_ERROR ->
            code ∈ [EXIT_SUCCESS; EXIT_CONFIG_ERROR; EXIT_FETCH_ERROR;
                    EXIT_PROCESSING_ERROR; EXIT_IO_ERROR] /\
            (true = true ->
             code <> EXIT_FETCH_ERROR /\ (code = EXIT_CONFIG_ERROR -> config_file = Absent))).
  { intros code Hcode. split; [set_solver|]. intros _.
    unfold EXIT_SUCCESS, EXIT_CONFIG_ERROR, EXIT_FETCH_ERROR, EXIT_PROCESSING_ERROR,
      EXIT_IO_ERROR in *.
    split; [lia|intros ?; lia]. }
  destruct (Main.local_update args) eqn:Hmode.
  - destruct (Processor.DataProcessor_init config_file) as [processor|e].
    + pose proof (perform_local_update_end processor fault file) as Hend.
      destruct (Main.perform_local_update processor fault file) as [[events fin] file'].
      cbn [fst snd] in Hend.
      destruct fin as [code|e|]; [|destruct e|done]; cbn [Main.prepend fst snd].
      all: first [by eexists|apply Hcode; tauto].
    + destruct e; cbn [Main.prepend fst snd].
      all: first [by eexists|apply Hcode; tauto].
  - pose proof (perform_fetch_and_index_end config_file api (Main.limit args) fault fuel
                  file) as Hend.
    destruct (Main.perform_fetch_and_index config_file api (Main.limit args) fault fuel
                file) as [[events fin] file'].
    cbn [fst snd] in Hend.
    destruct fin as [code|e|]; [|destruct e|done]; cbn [Main.prepend fst snd].
    all: first [by eexists|split; [set_solver|done]].
Qed.

(** ** The normalized form of a text *)

Section NormalizeText.
Import Processor.

Lemma is_word_lower_char (c : ascii) : is_word (lower_char c) = is_word c.
Proof. destruct c as [[] [] [] [] [] [] [] []]; vm_compute; reflexivity. Qed.

Lemma lower_char_idempotent (c : ascii) : lower_char (lower_char c) = lower_char c.
Proof. destruct c as [[] [] [] [] [] [] [] []]; vm_compute; reflexivity. Qed.

Lemma is_upper_lower_char (c : ascii) : is_upper (lower_char c) = false.
Proof. destruct c as [[] [] [] [] [] [] [] []]; vm_compute; reflexivity. Qed.

Lemma lower_idempotent (s : string) : lower (lower s) = lower s.
Proof. induction s as [|c s IH]; simpl; [done|]. by rewrite lower_char_idempotent, IH. Qed.

Lemma filter_chars_lower (s : string) :
  filter_chars is_word (lower s) = lower (filter_chars is_word s).
Proof.
  induction s as [|c s IH]; simpl; [done|]. rewrite is_word_lower_char, IH.
  by destruct (is_word c).
Qed.

Lemma filter_chars_idempotent (keep : ascii -> bool) (s : string) :
  filter_chars keep (filter_chars keep s) = filter_chars keep s.
Proof.
  induction s as [|c s IH]; simpl; [done|].
  destruct (keep c) eqn:Hc; simpl; [|done]. by rewrite Hc, IH.
Qed.

Lemma normalize_text_eq (text : string) :
  _normalize_text text = lower (filter_chars is_word text).
Proof. by destruct text. Qed.

Lemma normalize_text_chars (text : string) :
  Forall (fun c => is_word c = true /\ is_upper c = false)
    (list_ascii_of_string (lower (filter_chars is_word text))).
Proof.
  induction text as [|c text IH]; simpl; [constructor|].
  destruct (is_word c) eqn:Hc; simpl; [|done].
  constructor; [|done]. by rewrite is_word_lower_char, is_upper_lower_char.
Qed.

End NormalizeText.

(** X21.  On ASCII text, the form under which [process_show] compares a
    title with a description is a normal form: it is made of characters of
    the class [\w] none of which is an upper-case letter, normalizing it again
    changes nothing, and it is the same for two texts that differ by the case
    of their letters or by characters outside [\w] (spaces, punctuation). *)
Theorem X21_normalize_text_is_a_normal_form (text : string) :
  ascii_text text ->
  Forall (fun c => is_word c = true /\ is_upper c = false)
    (list_ascii_of_string (Processor._normalize_text text)) /\
  Processor._normalize_text (Processor._normalize_text text)
  = Processor._normalize_text text /\
  Processor._normalize_text (lower text) = Processor._normalize_text text /\
  Processor._normalize_text (filter_chars is_word text) = Processor._normalize_text text.
Proof.
  intros _. rewrite !normalize_text_eq. split; [apply normalize_text_chars|].
  split; [|split].
  - by rewrite filter_chars_lower, filter_chars_idempotent, lower_idempotent.
  - by rewrite filter_chars_lower, lower_idempotent.
  - by rewrite filter_chars_idempotent.
Qed.

Lemma X21_witness :
  let text := "Live_Session: Vol. 2!" in
  Processor._normalize_text text = "live_sessionvol2" /\
  Forall (fun c => is_word c = true /\ is_upper c = false)
    (list_ascii_of_string (Processor._normalize_text text)) /\
  Processor._normalize_text (Processor._normalize_text text)
  = Processor._normalize_text text /\
  Processor._normalize_text (lower text) = Processor._normalize_text text /\
  Processor._normalize_text (filter_chars is_word text) = Processor._normalize_text text.
Proof.
  intros text. split; [reflexivity|].
  apply (X21_normalize_text_is_a_normal_form text).
  subst text. unfold ascii_text. cbn [list_ascii_of_string].
  repeat (constructor; [apply Nat.ltb_lt; reflexivity|]). constructor.
Defined.
